(** * A shallow embedding of [xeputils/xep.py]

    The [XEP] class parses the metadata of a XEP document out of its XML
    tree, patches the source text in place, walks the git history of an
    interim document and drives the defer workflow.  The embedding keeps the
    structure of the Python source: one Rocq definition per method, the
    attributes of [self] as a record that is threaded through a small
    state-and-exception monad, and the external processes (git, the
    builders, the file system) as an explicit world.

    Conventions of the model:
    - texts are strings of 8-bit characters; [str], [unicode] and [bytes]
      are not told apart;
    - Python integers are [Z];
    - a method that raises keeps the assignments it made before, so a
      result carries the object in both cases;
    - the functions of the Python library that the module calls
      ([parseString], [strptime], the clock, [repr], [relpath], [abspath])
      are parameters, collected in the record [Library];
    - what a method does to the outside is appended to a trace of events. *)

From Stdlib Require Import String Ascii List ZArith NArith Bool Lia.
From Stdlib Require Import DecimalString DecimalZ OrdersEx RelationClasses.
Import ListNotations.

Local Open Scope string_scope.
Local Open Scope Z_scope.

(** ** Python built-ins used by the module *)

Module Py.

(** Exceptions that the modelled code can raise.  The string carried by
    [ValueError] is the message that [str(exception)] shows. *)
Inductive Exn : Type :=
| IndexError
| KeyError (key : string)
| ValueError (msg : string)
| AttributeError (attr : string)
| IOError (file : string)
| ExpatError.

Definition exn_str (e : Exn) : string :=
  match e with
  | IndexError => "list index out of range"
  | KeyError k => k
  | ValueError m => m
  | AttributeError a => "'XEP' object has no attribute '" ++ a ++ "'"
  | IOError f => "No such file or directory: " ++ f
  | ExpatError => "not well-formed"
  end.

(** A value that is an [int] or a [str] at run time ([nr], [minorVersion]). *)
Inductive PyVal : Type :=
| PyInt (z : Z)
| PyStr (s : string).

Definition truthy (s : string) : bool :=
  match s with EmptyString => false | _ => true end.

Definition is_digit (c : ascii) : bool :=
  ((48 <=? nat_of_ascii c) && (nat_of_ascii c <=? 57))%nat.

Definition is_upper (c : ascii) : bool :=
  ((65 <=? nat_of_ascii c) && (nat_of_ascii c <=? 90))%nat.

Definition is_lower (c : ascii) : bool :=
  ((97 <=? nat_of_ascii c) && (nat_of_ascii c <=? 122))%nat.

(** Characters removed by [str.strip()] and skipped by [int()]. *)
Definition is_space (c : ascii) : bool :=
  let n := nat_of_ascii c in
  ((n =? 32) || ((9 <=? n) && (n <=? 13)))%nat.

Fixpoint lstrip (s : string) : string :=
  match s with
  | String c s' => if is_space c then lstrip s' else s
  | EmptyString => s
  end.

Fixpoint rev_append (s acc : string) : string :=
  match s with
  | EmptyString => acc
  | String c s' => rev_append s' (String c acc)
  end.

Definition rev (s : string) : string := rev_append s EmptyString.

Definition strip (s : string) : string := rev (lstrip (rev (lstrip s))).

Fixpoint all_chars (p : ascii -> bool) (s : string) : bool :=
  match s with
  | EmptyString => true
  | String c s' => p c && all_chars p s'
  end.

Definition digit_value (c : ascii) : Z := Z.of_nat (nat_of_ascii c) - 48.

Fixpoint digits_value (acc : Z) (s : string) : Z :=
  match s with
  | EmptyString => acc
  | String c s' => digits_value (10 * acc + digit_value c) s'
  end.

Definition parse_digits (s : string) : option Z :=
  if truthy s && all_chars is_digit s then Some (digits_value 0 s) else None.

(** [int(s)] for a text [s]: surrounding white space is dropped, one sign
    is allowed, the rest must be a non-empty run of decimal digits.
    [None] stands for the [ValueError] that the built-in raises. *)
Definition int (s : string) : option Z :=
  match strip s with
  | String "-" d => option_map Z.opp (parse_digits d)
  | String "+" d => parse_digits d
  | d => parse_digits d
  end.

(** [str(n)] for an integer. *)
Definition str_of_int (n : Z) : string := NilZero.string_of_int (Z.to_int n).

Fixpoint repeat_char (c : ascii) (n : nat) : string :=
  match n with
  | O => EmptyString
  | S n' => String c (repeat_char c n')
  end.

(** ["{:0>4d}".format(n)]: the decimal text, right-aligned in a field of
    width 4 that is filled with the character 0. *)
Definition format_04d (n : Z) : string :=
  let s := str_of_int n in
  repeat_char "0" (4 - String.length s) ++ s.

(** [s.split(sep)] for a one-character separator. *)
Fixpoint split (sep : ascii) (s : string) : list string :=
  match s with
  | EmptyString => [EmptyString]
  | String c s' =>
      if Ascii.eqb c sep then EmptyString :: split sep s'
      else match split sep s' with
           | w :: ws => String c w :: ws
           | [] => [String c EmptyString]
           end
  end.

(** [s[:-4]] *)
Definition drop_last4 (s : string) : string :=
  String.substring 0 (String.length s - 4) s.

(** [os.path.split]: the text up to the last slash and the text after it;
    trailing slashes of the head are removed unless it is the root. *)
Fixpoint split_at_last_slash (p : string) : string * string :=
  match p with
  | EmptyString => (EmptyString, EmptyString)
  | String c p' =>
      let (h, t) := split_at_last_slash p' in
      if truthy h then (String c h, t)
      else if Ascii.eqb c "/" then ("/", p')
      else (EmptyString, String c p')
  end.

Definition rstrip_slash (s : string) : string :=
  let fix drop (r : string) : string :=
    match r with
    | String c r' => if Ascii.eqb c "/" then drop r' else r
    | EmptyString => r
    end in
  rev (drop (rev s)).

Definition os_path_split (p : string) : string * string :=
  let (h, t) := split_at_last_slash p in
  if truthy h && negb (all_chars (Ascii.eqb "/") h) then (rstrip_slash h, t)
  else (h, t).

Definition os_path_basename (p : string) : string :=
  snd (split_at_last_slash p).

(** [os.path.join] of two components. *)
Definition os_path_join (a b : string) : string :=
  match b with
  | String "/" _ => b
  | _ =>
      match rev a with
      | EmptyString => b
      | String "/" _ => a ++ b
      | _ => a ++ "/" ++ b
      end
  end.

End Py.
Import Py.

(** ** The minidom tree *)

#[local] Set Warnings "-register-all".

Module Dom.

(** Nodes of a parsed document.  [OtherNode] stands for the node kinds
    that are neither elements nor text (comments, CDATA sections,
    processing instructions). *)
Inductive Node : Type :=
| Element (tagName : string) (attributes : list (string * string))
          (childNodes : list Node)
| TextNode (data : string)
| OtherNode (data : string).

Record Document : Type := mkDocument { documentNodes : list Node }.

Definition childNodes (n : Node) : list Node :=
  match n with
  | Element _ _ cs => cs
  | _ => []
  end.

Definition has_tag (name : string) (n : Node) : bool :=
  match n with
  | Element t _ _ => String.eqb t name
  | _ => false
  end.

(** The helper behind [getElementsByTagName]: a node that matches is
    appended before its own descendants are visited (document order). *)
Fixpoint collect (name : string) (n : Node) : list Node :=
  (if has_tag name n then [n] else []) ++
  match n with
  | Element _ _ cs => flat_map (collect name) cs
  | _ => []
  end.

Definition getElementsByTagName (name : string) (n : Node) : list Node :=
  flat_map (collect name) (childNodes n).

Definition Document_getElementsByTagName (name : string) (d : Document)
  : list Node :=
  flat_map (collect name) (documentNodes d).

(** [node.attributes[name].value] *)
Fixpoint attribute (name : string) (attrs : list (string * string))
  : option string :=
  match attrs with
  | [] => None
  | (k, v) :: rest => if String.eqb k name then Some v else attribute name rest
  end.

Definition attributes (n : Node) : list (string * string) :=
  match n with
  | Element _ a _ => a
  | _ => []
  end.

End Dom.
Import Dom.

Record datetime : Type := mkDate { year : Z; month : Z; day : Z }.


(** ** The record behind [self] *)

(** One field per attribute of the Python object.  [nrFormatted] is read by
    [__str__] before the first parse has assigned it, so the model keeps
    track of whether the attribute exists ([None]: not assigned yet).
    [lastcall] is a date or [False] in the source: [None] stands for
    [False].  The other attributes are never read before they are written;
    before the first parse they hold an arbitrary placeholder. *)
Record XEP : Type := mkXEP {
  filename : string;
  xslpath : option string;
  imagespath : option string;
  gittoplevel : option string;
  outpath : option string;
  raw : string;
  buildErrors : list string;
  parseErrors : list string;
  xep : option Document;
  title : string;
  path : string;
  nr : PyVal;
  nrFormatted : option string;
  shortname : option string;
  abstract : string;
  status : string;
  lastcall : option datetime;
  type : string;
  interim : bool;
  date : datetime;
  version : string;
  majorVersion : Z;
  minorVersion : PyVal;
  depends : list string;
  images : list string
}.

Definition set_raw (v : string) (self : XEP) : XEP :=
  mkXEP (filename self) (xslpath self) (imagespath self) (gittoplevel self)
    (outpath self) v (buildErrors self) (parseErrors self) (xep self) (title self)
    (path self) (nr self) (nrFormatted self) (shortname self) (abstract self)
    (status self) (lastcall self) (type self) (interim self) (date self) (version self)
    (majorVersion self) (minorVersion self) (depends self) (images self).

Definition set_buildErrors (v : list string) (self : XEP) : XEP :=
  mkXEP (filename self) (xslpath self) (imagespath self) (gittoplevel self)
    (outpath self) (raw self) v (parseErrors self) (xep self) (title self) (path self)
    (nr self) (nrFormatted self) (shortname self) (abstract self) (status self)
    (lastcall self) (type self) (interim self) (date self) (version self)
    (majorVersion self) (minorVersion self) (depends self) (images self).

Definition set_parseErrors (v : list string) (self : XEP) : XEP :=
  mkXEP (filename self) (xslpath self) (imagespath self) (gittoplevel self)
    (outpath self) (raw self) (buildErrors self) v (xep self) (title self) (path self)
    (nr self) (nrFormatted self) (shortname self) (abstract self) (status self)
    (lastcall self) (type self) (interim self) (date self) (version self)
    (majorVersion self) (minorVersion self) (depends self) (images self).

Definition set_xep (v : option Document) (self : XEP) : XEP :=
  mkXEP (filename self) (xslpath self) (imagespath self) (gittoplevel self)
    (outpath self) (raw self) (buildErrors self) (parseErrors self) v (title self)
    (path self) (nr self) (nrFormatted self) (shortname self) (abstract self)
    (status self) (lastcall self) (type self) (interim self) (date self) (version self)
    (majorVersion self) (minorVersion self) (depends self) (images self).

Definition set_title (v : string) (self : XEP) : XEP :=
  mkXEP (filename self) (xslpath self) (imagespath self) (gittoplevel self)
    (outpath self) (raw self) (buildErrors self) (parseErrors self) (xep self) v
    (path self) (nr self) (nrFormatted self) (shortname self) (abstract self)
    (status self) (lastcall self) (type self) (interim self) (date self) (version self)
    (majorVersion self) (minorVersion self) (depends self) (images self).

Definition set_path (v : string) (self : XEP) : XEP :=
  mkXEP (filename self) (xslpath self) (imagespath self) (gittoplevel self)
    (outpath self) (raw self) (buildErrors self) (parseErrors self) (xep self)
    (title self) v (nr self) (nrFormatted self) (shortname self) (abstract self)
    (status self) (lastcall self) (type self) (interim self) (date self) (version self)
    (majorVersion self) (minorVersion self) (depends self) (images self).

Definition set_nr (v : PyVal) (self : XEP) : XEP :=
  mkXEP (filename self) (xslpath self) (imagespath self) (gittoplevel self)
    (outpath self) (raw self) (buildErrors self) (parseErrors self) (xep self)
    (title self) (path self) v (nrFormatted self) (shortname self) (abstract self)
    (status self) (lastcall self) (type self) (interim self) (date self) (version self)
    (majorVersion self) (minorVersion self) (depends self) (images self).

Definition set_nrFormatted (v : option string) (self : XEP) : XEP :=
  mkXEP (filename self) (xslpath self) (imagespath self) (gittoplevel self)
    (outpath self) (raw self) (buildErrors self) (parseErrors self) (xep self)
    (title self) (path self) (nr self) v (shortname self) (abstract self) (status self)
    (lastcall self) (type self) (interim self) (date self) (version self)
    (majorVersion self) (minorVersion self) (depends self) (images self).

Definition set_shortname (v : option string) (self : XEP) : XEP :=
  mkXEP (filename self) (xslpath self) (imagespath self) (gittoplevel self)
    (outpath self) (raw self) (buildErrors self) (parseErrors self) (xep self)
    (title self) (path self) (nr self) (nrFormatted self) v (abstract self)
    (status self) (lastcall self) (type self) (interim self) (date self) (version self)
    (majorVersion self) (minorVersion self) (depends self) (images self).

Definition set_abstract (v : string) (self : XEP) : XEP :=
  mkXEP (filename self) (xslpath self) (imagespath self) (gittoplevel self)
    (outpath self) (raw self) (buildErrors self) (parseErrors self) (xep self)
    (title self) (path self) (nr self) (nrFormatted self) (shortname self) v
    (status self) (lastcall self) (type self) (interim self) (date self) (version self)
    (majorVersion self) (minorVersion self) (depends self) (images self).

Definition set_status (v : string) (self : XEP) : XEP :=
  mkXEP (filename self) (xslpath self) (imagespath self) (gittoplevel self)
    (outpath self) (raw self) (buildErrors self) (parseErrors self) (xep self)
    (title self) (path self) (nr self) (nrFormatted self) (shortname self)
    (abstract self) v (lastcall self) (type self) (interim self) (date self)
    (version self) (majorVersion self) (minorVersion self) (depends self) (images self).

Definition set_lastcall (v : option datetime) (self : XEP) : XEP :=
  mkXEP (filename self) (xslpath self) (imagespath self) (gittoplevel self)
    (outpath self) (raw self) (buildErrors self) (parseErrors self) (xep self)
    (title self) (path self) (nr self) (nrFormatted self) (shortname self)
    (abstract self) (status self) v (type self) (interim self) (date self)
    (version self) (majorVersion self) (minorVersion self) (depends self) (images self).

Definition set_type (v : string) (self : XEP) : XEP :=
  mkXEP (filename self) (xslpath self) (imagespath self) (gittoplevel self)
    (outpath self) (raw self) (buildErrors self) (parseErrors self) (xep self)
    (title self) (path self) (nr self) (nrFormatted self) (shortname self)
    (abstract self) (status self) (lastcall self) v (interim self) (date self)
    (version self) (majorVersion self) (minorVersion self) (depends self) (images self).

Definition set_interim (v : bool) (self : XEP) : XEP :=
  mkXEP (filename self) (xslpath self) (imagespath self) (gittoplevel self)
    (outpath self) (raw self) (buildErrors self) (parseErrors self) (xep self)
    (title self) (path self) (nr self) (nrFormatted self) (shortname self)
    (abstract self) (status self) (lastcall self) (type self) v (date self)
    (version self) (majorVersion self) (minorVersion self) (depends self) (images self).

Definition set_date (v : datetime) (self : XEP) : XEP :=
  mkXEP (filename self) (xslpath self) (imagespath self) (gittoplevel self)
    (outpath self) (raw self) (buildErrors self) (parseErrors self) (xep self)
    (title self) (path self) (nr self) (nrFormatted self) (shortname self)
    (abstract self) (status self) (lastcall self) (type self) (interim self) v
    (version self) (majorVersion self) (minorVersion self) (depends self) (images self).

Definition set_version (v : string) (self : XEP) : XEP :=
  mkXEP (filename self) (xslpath self) (imagespath self) (gittoplevel self)
    (outpath self) (raw self) (buildErrors self) (parseErrors self) (xep self)
    (title self) (path self) (nr self) (nrFormatted self) (shortname self)
    (abstract self) (status self) (lastcall self) (type self) (interim self) (date self)
    v (majorVersion self) (minorVersion self) (depends self) (images self).

Definition set_majorVersion (v : Z) (self : XEP) : XEP :=
  mkXEP (filename self) (xslpath self) (imagespath self) (gittoplevel self)
    (outpath self) (raw self) (buildErrors self) (parseErrors self) (xep self)
    (title self) (path self) (nr self) (nrFormatted self) (shortname self)
    (abstract self) (status self) (lastcall self) (type self) (interim self) (date self)
    (version self) v (minorVersion self) (depends self) (images self).

Definition set_minorVersion (v : PyVal) (self : XEP) : XEP :=
  mkXEP (filename self) (xslpath self) (imagespath self) (gittoplevel self)
    (outpath self) (raw self) (buildErrors self) (parseErrors self) (xep self)
    (title self) (path self) (nr self) (nrFormatted self) (shortname self)
    (abstract self) (status self) (lastcall self) (type self) (interim self) (date self)
    (version self) (majorVersion self) v (depends self) (images self).

Definition set_depends (v : list string) (self : XEP) : XEP :=
  mkXEP (filename self) (xslpath self) (imagespath self) (gittoplevel self)
    (outpath self) (raw self) (buildErrors self) (parseErrors self) (xep self)
    (title self) (path self) (nr self) (nrFormatted self) (shortname self)
    (abstract self) (status self) (lastcall self) (type self) (interim self) (date self)
    (version self) (majorVersion self) (minorVersion self) v (images self).

Definition set_images (v : list string) (self : XEP) : XEP :=
  mkXEP (filename self) (xslpath self) (imagespath self) (gittoplevel self)
    (outpath self) (raw self) (buildErrors self) (parseErrors self) (xep self)
    (title self) (path self) (nr self) (nrFormatted self) (shortname self)
    (abstract self) (status self) (lastcall self) (type self) (interim self) (date self)
    (version self) (majorVersion self) (minorVersion self) (depends self) v.

(** ** State and exceptions *)

(** A method either returns or raises; in both cases the object keeps the
    assignments made so far. *)
Inductive Result (S A : Type) : Type :=
| Ok (a : A) (s : S)
| Raise (e : Exn) (s : S).
Arguments Ok {S A} a s.
Arguments Raise {S A} e s.

Definition M (S A : Type) : Type := S -> Result S A.

Definition ret {S A} (a : A) : M S A := fun s => Ok a s.

Definition bind {S A B} (c : M S A) (k : A -> M S B) : M S B :=
  fun s => match c s with
           | Ok a s' => k a s'
           | Raise e s' => Raise e s'
           end.

Definition raise {S A} (e : Exn) : M S A := fun s => Raise e s.

Definition get {S} : M S S := fun s => Ok s s.

Definition modify {S} (f : S -> S) : M S unit := fun s => Ok tt (f s).

(** [try: body  except: handler] (a bare [except] catches everything). *)
Definition try_except {S A} (body : M S A) (handler : Exn -> M S A) : M S A :=
  fun s => match body s with
           | Ok a s' => Ok a s'
           | Raise e s' => handler e s'
           end.

(** [try: body  except ValueError: handler] *)
Definition try_except_ValueError {S A} (body : M S A) (handler : Exn -> M S A)
  : M S A :=
  try_except body
    (fun e => match e with
              | ValueError _ => handler e
              | _ => raise e
              end).

Declare Scope monad_scope.
Delimit Scope monad_scope with monad.
Notation "x <- c ;; k" := (bind c (fun x => k))
  (at level 61, c at next level, right associativity) : monad_scope.
Notation "c ;; k" := (bind c (fun _ => k))
  (at level 61, right associativity) : monad_scope.
Local Open Scope monad_scope.

(** The object after a call, however the call ended. *)
Definition final {S A} (r : Result S A) : S :=
  match r with
  | Ok _ s => s
  | Raise _ s => s
  end.


(** [l[i]] *)
Definition item {S A} (i : nat) (l : list A) : M S A :=
  match nth_error l i with
  | Some x => ret x
  | None => raise IndexError
  end.

Definition nl : string := String (ascii_of_nat 10) EmptyString.

(** ** Library functions taken as parameters *)

(** [parseString] is the XML parser of [xml.dom.minidom] ([None]: the text
    is not a document), [strptime] is [datetime.datetime.strptime] at the
    format [%Y-%m-%d] (the right injection carries the message of the
    [ValueError]), [now] is the reading of the clock, [repr] is the
    built-in that quotes a text inside the message of [int]'s error,
    [relpath] is [os.path.relpath] and [abspath] is [os.path.abspath]. *)
Record Library : Type := mkLibrary {
  parseString : string -> option Document;
  strptime : string -> datetime + string;
  now : datetime;
  repr : string -> string;
  relpath : string -> string -> string;
  abspath : string -> string
}.

Section Parser.

Variable L : Library.

(** [__getText__]: the data of the text nodes of a node list, concatenated. *)
Definition __getText__ (nodelist : list Node) : string :=
  fold_left
    (fun thisText node =>
       match node with
       | TextNode d => thisText ++ d
       | _ => thisText
       end)
    nodelist EmptyString.

(** [__str__] *)
Definition __str__ : M XEP string :=
  self <- get ;;
  match nrFormatted self with
  | None => raise (AttributeError "nrFormatted")
  | Some nf =>
      if negb (truthy nf) then ret (filename self)
      else ret ("XEP-" ++ nf)
  end.

(** The text that [__processParsingError__] builds: [name] is
    [str(self)], [file] is [self.filename], [exc] is the exception being
    handled ([sys.exc_info()[1]]). *)
Definition parsing_error (valuedescription name file : string) (exc : Exn) : string :=
  let e := "Invalid value for " ++ valuedescription ++ " while parsing "
           ++ name ++ ", setting to a default." ++ nl in
  let e := e ++ "  XEP file: " ++ file ++ nl in
  e ++ "  Error: " ++ exn_str exc ++ nl.

(** [__processParsingError__] *)
Definition __processParsingError__ (valuedescription : string) (exc : Exn)
  : M XEP unit :=
  name <- __str__ ;;
  self <- get ;;
  let e := parsing_error valuedescription name (filename self) exc in
  modify (fun self => set_parseErrors (parseErrors self ++ [e]) self).

(** The exception of [int(s)] for a text that is no integer literal. *)
Definition int_error (s : string) : Exn :=
  ValueError ("invalid literal for int() with base 10: " ++ repr L s).

Definition int_ (s : string) : M XEP Z :=
  match Py.int s with
  | Some n => ret n
  | None => raise (int_error s)
  end.

Definition strptime_ (s : string) : M XEP datetime :=
  match strptime L s with
  | inl d => ret d
  | inr msg => raise (ValueError msg)
  end.

Definition is_xxxx (nr : string) : bool :=
  String.eqb nr "xxxx" || String.eqb nr "XXXX".

(** Lines 143-144. *)
Definition read_title (headerNode : Node) : M XEP unit :=
  titleNode <- item 0 (getElementsByTagName "title" headerNode) ;;
  modify (set_title (__getText__ (childNodes titleNode))).

(** Lines 145-170: [nr] and [nrFormatted]. *)
Definition read_number (headerNode : Node) : M XEP unit :=
  numberNode <- item 0 (getElementsByTagName "number" headerNode) ;;
  let nr' := __getText__ (childNodes numberNode) in
  self <- get ;;
  let (p, fle) := os_path_split (filename self) in
  modify (set_path p) ;;
  (if String.eqb (os_path_basename p) "inbox" || String.eqb fle "xep-template.xml"
   then
     (if negb (is_xxxx nr') then
        let e := "Invalid value for XEP-number (" ++ nr'
                 ++ ") while parsing protoXEP." ++ nl in
        let e := e ++ "  XEP file: " ++ filename self in
        modify (fun self => set_parseErrors (parseErrors self ++ [e]) self)
      else ret tt) ;;
     modify (set_nr (PyStr (drop_last4 fle)))
   else if is_xxxx nr' then
     modify (set_nr (PyStr (drop_last4 fle)))
   else if String.eqb fle "xep-README.xml" && String.eqb nr' "README" then
     modify (set_nr (PyStr nr'))
   else
     try_except
       (n <- int_ nr' ;; modify (set_nr (PyInt n)))
       (fun exc =>
          modify (set_nr (PyStr nr')) ;;
          __processParsingError__ "XEP number" exc)) ;;
  self <- get ;;
  match nr self with
  | PyInt n => modify (set_nrFormatted (Some (format_04d n)))
  | PyStr s => modify (set_nrFormatted (Some s))
  end.

(** Lines 171-175. *)
Definition read_shortname (headerNode : Node) : M XEP unit :=
  match getElementsByTagName "shortname" headerNode with
  | shortnameNode :: _ =>
      modify (set_shortname (Some (__getText__ (childNodes shortnameNode))))
  | [] => modify (set_shortname None)
  end.

(** Lines 176-179. *)
Definition read_abstract_status (headerNode : Node) : M XEP unit :=
  abstractNode <- item 0 (getElementsByTagName "abstract" headerNode) ;;
  modify (set_abstract (__getText__ (childNodes abstractNode))) ;;
  statusNode <- item 0 (getElementsByTagName "status" headerNode) ;;
  modify (set_status (__getText__ (childNodes statusNode))).

(** Lines 180-191. *)
Definition read_lastcall (headerNode : Node) : M XEP unit :=
  match getElementsByTagName "lastcall" headerNode with
  | lastcallNode :: _ =>
      let lastcallString := __getText__ (childNodes lastcallNode) in
      try_except
        (d <- strptime_ lastcallString ;; modify (set_lastcall (Some d)))
        (fun exc =>
           modify (set_lastcall None) ;;
           __processParsingError__ "last call" exc)
  | [] => modify (set_lastcall None)
  end.

(** Lines 192-198. *)
Definition read_type_interim (headerNode : Node) : M XEP unit :=
  typeNode <- item 0 (getElementsByTagName "type" headerNode) ;;
  modify (set_type (__getText__ (childNodes typeNode))) ;;
  match getElementsByTagName "interim" headerNode with
  | _ :: _ => modify (set_interim true)
  | [] => modify (set_interim false)
  end.

(** Lines 199-208: the first revision element gives the date and the
    version. *)
Definition read_revision (headerNode : Node) : M XEP unit :=
  revNode <- item 0 (getElementsByTagName "revision" headerNode) ;;
  dateNode <- item 0 (getElementsByTagName "date" revNode) ;;
  let dateString := __getText__ (childNodes dateNode) in
  try_except
    (d <- strptime_ dateString ;; modify (set_date d))
    (fun exc =>
       modify (set_date (now L)) ;;
       __processParsingError__ "date" exc) ;;
  versionNode <- item 0 (getElementsByTagName "version" revNode) ;;
  modify (set_version (__getText__ (childNodes versionNode))).

(** Lines 209-213. *)
Definition read_majorVersion : M XEP unit :=
  try_except
    (self <- get ;;
     c <- item 0 (split "." (version self)) ;;
     n <- int_ c ;;
     modify (set_majorVersion n))
    (fun exc =>
       modify (set_majorVersion 0) ;;
       __processParsingError__ "major version" exc).

(** Lines 214-221. *)
Definition read_minorVersion : M XEP unit :=
  try_except_ValueError
    (self <- get ;;
     c <- item 1 (split "." (version self)) ;;
     n <- int_ c ;;
     modify (set_minorVersion (PyInt n)))
    (fun exc =>
       self <- get ;;
       if interim self then
         c <- item 1 (split "." (version self)) ;;
         modify (set_minorVersion (PyStr c))
       else
         modify (set_minorVersion (PyInt 0)) ;;
         __processParsingError__ "major version" exc).

(** Lines 223-228. *)
Definition read_depends (headerNode : Node) : M XEP unit :=
  modify (set_depends []) ;;
  match getElementsByTagName "dependencies" headerNode with
  | depNode :: _ =>
      fold_left
        (fun acc dep =>
           acc ;;
           modify (fun self =>
                     set_depends (depends self ++ [__getText__ (childNodes dep)])
                                 self))
        (getElementsByTagName "spec" depNode) (ret tt)
  | [] => ret tt
  end.

(** Lines 230-233. *)
Definition read_images (xepNode : Node) : M XEP unit :=
  let imgs := getElementsByTagName "img" xepNode in
  modify (set_images []) ;;
  fold_left
    (fun acc img =>
       acc ;;
       match attribute "src" (attributes img) with
       | Some v => modify (fun self => set_images (images self ++ [v]) self)
       | None => raise (KeyError "src")
       end)
    imgs (ret tt).

(** The fields read below the header node, in the order of the source. *)
Definition read_header (headerNode : Node) : M XEP unit :=
  read_title headerNode ;;
  read_number headerNode ;;
  read_shortname headerNode ;;
  read_abstract_status headerNode ;;
  read_lastcall headerNode ;;
  read_type_interim headerNode ;;
  read_revision headerNode ;;
  read_majorVersion ;;
  read_minorVersion ;;
  read_depends headerNode.

(** [readXEP] on the tree that [parseString] returned. *)
Definition read_document (doc : Document) : M XEP unit :=
  modify (set_xep (Some doc)) ;;
  xepNode <- item 0 (Document_getElementsByTagName "xep" doc) ;;
  headerNode <- item 0 (getElementsByTagName "header" xepNode) ;;
  read_header headerNode ;;
  read_images xepNode.

(** [readXEP] *)
Definition readXEP : M XEP unit :=
  self <- get ;;
  match parseString L (raw self) with
  | None => raise ExpatError
  | Some doc => read_document doc
  end.

(** [__lt__] *)
Definition __lt__ (other : XEP) : M XEP bool :=
  a <- __str__ ;;
  match __str__ other with
  | Ok b _ => ret (String.ltb a b)
  | Raise e _ => raise e
  end.

End Parser.

(** ** Regular-expression substitution of [replaceElementText] *)

Module Re.

(** The character class of the pattern: a-z, A-Z, 0-9. *)
Definition in_class (c : ascii) : bool :=
  is_lower c || is_upper c || is_digit c.

(** Characters that are not literal in a pattern of the [re] module. *)
Definition is_special (c : ascii) : bool :=
  existsb (Ascii.eqb c)
    ["."; "^"; "$"; "*"; "+"; "?"; "{"; "}"; "["; "]"; "\"; "|"; "("; ")"]%char.

(** An element name that the pattern and the replacement template both
    take literally. *)
Definition literal (s : string) : bool :=
  all_chars (fun c => negb (is_special c)) s.

(** [s] starts with the literal [p]: what follows it. *)
Fixpoint match_literal (p s : string) : option string :=
  match p, s with
  | EmptyString, _ => Some s
  | String a p', String b s' =>
      if Ascii.eqb a b then match_literal p' s' else None
  | String _ _, EmptyString => None
  end.

(** The class repeated (greedy, with backtracking), then the literal
    [closing]: what follows the match. *)
Fixpoint match_star_then (closing s : string) : option string :=
  match s with
  | String c s' =>
      if in_class c then
        match match_star_then closing s' with
        | Some rest => Some rest
        | None => match_literal closing s
        end
      else match_literal closing s
  | EmptyString => match_literal closing s
  end.

(** ["<{0}>".format(name)] and ["</{0}>".format(name)] *)
Definition open_tag (name : string) : string := "<" ++ name ++ ">".

Definition close_tag (name : string) : string := "</" ++ name ++ ">".

(** The pattern [<name>[a-zA-Z0-9]*</name>] matched at the start of [s]. *)
Definition match_here (name s : string) : option string :=
  match match_literal (open_tag name) s with
  | Some body => match_star_then (close_tag name) body
  | None => None
  end.

(** [re.sub(pattern, replacement, s, count=1)]: the leftmost match is
    replaced, the text without a match is returned as it is. *)
Fixpoint sub_first (name replacement s : string) : string :=
  match match_here name s with
  | Some rest => replacement ++ rest
  | None =>
      match s with
      | EmptyString => EmptyString
      | String c s' => String c (sub_first name replacement s')
      end
  end.

(** The substitution that [replaceElementText] applies to the file text. *)
Definition replace_text (elementname text xepText : string) : string :=
  sub_first elementname (open_tag elementname ++ text ++ close_tag elementname)
            xepText.

(** The first position at which the literal [p] occurs in [s]: the text
    before it and the text after it. *)
Fixpoint find_literal (p s : string) : option (string * string) :=
  match match_literal p s with
  | Some rest => Some (EmptyString, rest)
  | None =>
      match s with
      | EmptyString => None
      | String c s' =>
          match find_literal p s' with
          | Some (before, rest) => Some (String c before, rest)
          | None => None
          end
      end
  end.

(** The reading of the patcher that replaces the content of the first
    occurrence of the named element, whatever that content is: the text
    between the first [<name>] and the [</name>] that follows it. *)
Definition replace_first_occurrence (elementname text xepText : string) : string :=
  match find_literal (open_tag elementname) xepText with
  | Some (before, body) =>
      match find_literal (close_tag elementname) body with
      | Some (_, rest) =>
          before ++ open_tag elementname ++ text ++ close_tag elementname ++ rest
      | None => xepText
      end
  | None => xepText
  end.

End Re.

(** ** The world outside the object *)

(** What the methods do to the outside, in the order in which they do it.
    [Call] marks the entry of a method of the object. *)
Inductive Event : Type :=
| Call (method : string)
| GitRevParse (cwd : string)
| GitStatus (cwd gitref : string)
| GitCommit (cwd gitref message : string)
| GitLog (cwd gitref : string)
| GitShow (cwd object : string)
| FileWrite (name contents : string)
| FileCopy (source target : string)
| BuildXHTML (x : XEP) (outpath xslpath : option string)
| BuildPDF (x : XEP) (outpath xslpath imagespath : option string).

(** The files and directories, the answers of the git processes as pairs
    of standard output and standard error, and the trace of effects. *)
Record World : Type := mkWorld {
  files : list (string * string);
  dirs : list string;
  git_rev_parse : string -> string * string;
  git_status : string -> string -> string * string;
  git_commit : string -> string -> string -> string * string;
  git_log : string -> string -> string * string;
  git_show : string -> string -> string * string;
  trace : list Event
}.

Definition set_files (v : list (string * string)) (w : World) : World :=
  mkWorld v (dirs w) (git_rev_parse w) (git_status w) (git_commit w) (git_log w)
    (git_show w) (trace w).

Definition set_trace (v : list Event) (w : World) : World :=
  mkWorld (files w) (dirs w) (git_rev_parse w) (git_status w) (git_commit w)
    (git_log w) (git_show w) v.

Fixpoint lookup_file (name : string) (fs : list (string * string)) : option string :=
  match fs with
  | [] => None
  | (k, v) :: rest => if String.eqb k name then Some v else lookup_file name rest
  end.

Fixpoint store_file (name contents : string) (fs : list (string * string))
  : list (string * string) :=
  match fs with
  | [] => [(name, contents)]
  | (k, v) :: rest =>
      if String.eqb k name then (k, contents) :: rest
      else (k, v) :: store_file name contents rest
  end.

Definition isfile (w : World) (name : string) : bool :=
  match lookup_file name (files w) with
  | Some _ => true
  | None => false
  end.

Definition isdir (w : World) (name : string) : bool :=
  existsb (String.eqb name) (dirs w).

(** An optional path argument is used when it is given and not empty. *)
Definition given (p : option string) : bool :=
  match p with
  | Some s => truthy s
  | None => false
  end.

Definition State : Type := XEP * World.

Definition on_self {A} (c : M XEP A) : M State A :=
  fun s => match c (fst s) with
           | Ok a x => Ok a (x, snd s)
           | Raise e x => Raise e (x, snd s)
           end.

Definition on_world (f : World -> World) : M State unit :=
  modify (fun s : State => (fst s, f (snd s))).

Definition emit (e : Event) : M State unit :=
  on_world (fun w => set_trace (trace w ++ [e]) w).

Definition add_buildError (e : string) : M State unit :=
  on_self (modify (fun self => set_buildErrors (buildErrors self ++ [e]) self)).

(** [open(name, 'r').read()] *)
Definition read_file (name : string) : M State string :=
  s <- get ;;
  match lookup_file name (files (snd s)) with
  | Some text => ret text
  | None => raise (IOError name)
  end.

(** [open(name, 'w').write(text)] *)
Definition write_file (name text : string) : M State unit :=
  on_world (fun w => set_files (store_file name text (files w)) w) ;;
  emit (FileWrite name text).

Section Workflow.

Variable L : Library.

(** [replaceElementText] *)
Definition replaceElementText (elementname text : string) : M State unit :=
  emit (Call "replaceElementText") ;;
  s <- get ;;
  xepText <- read_file (filename (fst s)) ;;
  let xepText := Re.replace_text elementname text xepText in
  write_file (filename (fst s)) xepText.

(** [setDeferred] *)
Definition setDeferred : M State unit :=
  emit (Call "setDeferred") ;;
  replaceElementText "status" "Deferred" ;;
  s <- get ;;
  text <- read_file (filename (fst s)) ;;
  on_self (modify (set_raw text)) ;;
  on_self (readXEP L).

(** Modelled from the spec: [xeputils.builder.buildXHTML] is not among the
    sources; the specification treats the HTML renderer as an opaque
    collaborator that receives the parsed record and the two paths and
    writes files as a side effect.  Its invocation is recorded with its
    arguments. *)
Definition builder_buildXHTML (x : XEP) (outpath' xslpath' : option string)
  : M State unit :=
  emit (BuildXHTML x outpath' xslpath').

(** Modelled from the spec: [xeputils.builder.buildPDF] is not among the
    sources; the specification treats the PDF renderer as an opaque
    collaborator that receives the parsed record and the three paths and
    writes files as a side effect.  Its invocation is recorded with its
    arguments. *)
Definition builder_buildPDF (x : XEP) (outpath' xslpath' imagespath' : option string)
  : M State unit :=
  emit (BuildPDF x outpath' xslpath' imagespath').

(** [buildXHTML] *)
Definition buildXHTML (outpath' xslpath' : option string) : M State unit :=
  emit (Call "buildXHTML") ;;
  s <- get ;;
  let self := fst s in
  let outpath' :=
    if negb (given outpath') && given (outpath self) then outpath self else outpath' in
  let xslpath' :=
    if negb (given xslpath') && given (xslpath self) then xslpath self else xslpath' in
  builder_buildXHTML self outpath' xslpath'.

(** [buildPDF] *)
Definition buildPDF (outpath' xslpath' imagespath' : option string) : M State unit :=
  emit (Call "buildPDF") ;;
  s <- get ;;
  let self := fst s in
  let outpath' :=
    if negb (given outpath') && given (outpath self) then outpath self else outpath' in
  let xslpath' :=
    if negb (given xslpath') && given (xslpath self) then xslpath self else xslpath' in
  let imagespath' :=
    if negb (given imagespath') && given (imagespath self) then imagespath self
    else imagespath' in
  builder_buildPDF self outpath' xslpath' imagespath'.

(** [archive] *)
Definition archive : M State unit :=
  emit (Call "archive") ;;
  s <- get ;;
  let self := fst s in
  match outpath self with
  | Some out =>
      if truthy out then
        nf <- match nrFormatted self with
              | Some nf => ret nf
              | None => raise (AttributeError "nrFormatted")
              end ;;
        let attic := os_path_join out "attic" in
        let htmlIn := os_path_join out ("xep-" ++ nf ++ ".html") in
        let htmlOut :=
          os_path_join attic ("xep-" ++ nf ++ "-" ++ version self ++ ".html") in
        if isdir (snd s) attic && isfile (snd s) htmlIn then
          text <- read_file htmlIn ;;
          on_world (fun w => set_files (store_file htmlOut text (files w)) w) ;;
          emit (FileCopy htmlIn htmlOut)
        else ret tt
      else ret tt
  | None => ret tt
  end.

(** The top-level directory as the methods use it ([None] also makes
    [os.path.relpath] and the process start fail, which the guards of the
    callers exclude). *)
Definition toplevel (self : XEP) : string :=
  match gittoplevel self with
  | Some top => top
  | None => EmptyString
  end.

(** [isGitClean] *)
Definition isGitClean : M State bool :=
  emit (Call "isGitClean") ;;
  s <- get ;;
  let self := fst s in
  let gitref := relpath L (filename self) (toplevel self) in
  emit (GitStatus (toplevel self) gitref) ;;
  let (out, error) := git_status (snd s) (toplevel self) gitref in
  if truthy error then
    name <- on_self __str__ ;;
    add_buildError ("WARNING: error reading git status: " ++ name ++ ": " ++ error) ;;
    ret false
  else if truthy out then ret false
  else ret true.

(** [gitCommit] *)
Definition gitCommit (message : string) : M State unit :=
  emit (Call "gitCommit") ;;
  s <- get ;;
  let self := fst s in
  let gitref := relpath L (filename self) (toplevel self) in
  emit (GitCommit (toplevel self) gitref message) ;;
  let (out, error) := git_commit (snd s) (toplevel self) gitref message in
  if truthy error then
    name <- on_self __str__ ;;
    add_buildError
      ("WARNING: error while committing " ++ name ++ " to git: " ++ error)
  else ret tt.

(** [defer] *)
Definition defer : M State unit :=
  s <- get ;;
  commitToGit <-
    (if negb (given (gittoplevel (fst s))) then
       name <- on_self __str__ ;;
       add_buildError
         ("WARNING: " ++ name
          ++ " is not in a git repository, will not commit change to deferred.") ;;
       ret false
     else
       clean <- isGitClean ;;
       if clean then ret true
       else
         name <- on_self __str__ ;;
         add_buildError
           ("WARNING: " ++ name
            ++ " has uncommitted changes, will not commit change to deferred.") ;;
         ret false) ;;
  setDeferred ;;
  buildXHTML None None ;;
  buildPDF None None None ;;
  archive ;;
  if commitToGit : bool then
    name <- on_self __str__ ;;
    gitCommit ("Deferring " ++ name)
  else ret tt.

(** The object as [__init__] finds it: no attribute of the parser is
    assigned yet. *)
Definition new_XEP : XEP :=
  mkXEP EmptyString None None None None EmptyString [] [] None EmptyString EmptyString (PyStr EmptyString) None None EmptyString EmptyString None EmptyString
    false (mkDate 0 0 0) EmptyString 0 (PyInt 0) [] [].

Definition set_config (filename' : string) (xslpath' imagespath' gittoplevel' outpath' : option string)
  (self : XEP) : XEP :=
  mkXEP filename' xslpath' imagespath' gittoplevel' outpath' (raw self)
    (buildErrors self) (parseErrors self) (xep self) (title self) (path self) (nr self)
    (nrFormatted self) (shortname self) (abstract self) (status self) (lastcall self)
    (type self) (interim self) (date self) (version self) (majorVersion self)
    (minorVersion self) (depends self) (images self).

(** [__init__], run on [new_XEP].  The five attributes that only the
    constructor assigns are set in one step. *)
Definition __init__ (filename' : string) (outpath' xslpath' imagespath' : option string)
  : M State unit :=
  let filename' := abspath L filename' in
  let xslpath' := if given xslpath' then option_map (abspath L) xslpath' else None in
  let imagespath' :=
    if given imagespath' then option_map (abspath L) imagespath' else None in
  let cwd := fst (os_path_split filename') in
  emit (GitRevParse cwd) ;;
  s <- get ;;
  let (out, error) := git_rev_parse (snd s) cwd in
  let gittoplevel' := if truthy error then None else Some (strip out) in
  on_self (modify (set_config filename' xslpath' imagespath' gittoplevel' outpath')) ;;
  text <- read_file filename' ;;
  on_self (modify (set_raw text)) ;;
  on_self (modify (set_buildErrors [])) ;;
  on_self (modify (set_parseErrors [])) ;;
  on_self (readXEP L).

(** The [while self.interim] loop of [revertInterim]; [rest] is
    [commits[commitIndex:]], so that [commits[commitIndex]] is its head and
    raises [IndexError] when it is empty. *)
Fixpoint revert_loop (top gitref : string) (rest : list string) : M State unit :=
  s <- get ;;
  if interim (fst s) then
    match rest with
    | [] => raise IndexError
    | commit :: rest' =>
        let object := commit ++ ":" ++ gitref in
        emit (GitShow top object) ;;
        let (out, error) := git_show (snd s) top object in
        if truthy error then
          name <- on_self __str__ ;;
          add_buildError
            ("WARNING: error reading git blob, not reversing interim XEP "
             ++ name ++ ": " ++ error)
        else
          on_self (modify (set_raw out)) ;;
          on_self (readXEP L) ;;
          revert_loop top gitref rest'
    end
  else ret tt.

(** [revertInterim] *)
Definition revertInterim : M State unit :=
  s <- get ;;
  let self := fst s in
  if negb (interim self) then ret tt
  else if negb (given (gittoplevel self)) then
    add_buildError
      "WARNING: {0} is not in a git repository, will be using interim XEPs"
  else
    let gitref := relpath L (filename self) (toplevel self) in
    emit (GitLog (toplevel self) gitref) ;;
    let (out, error) := git_log (snd s) (toplevel self) gitref in
    if truthy error then
      name <- on_self __str__ ;;
      add_buildError
        ("WARNING: error reading git log, not reversing interim XEP "
         ++ name ++ ": " ++ error)
    else
      let commits := split (ascii_of_nat 10) out in
      let commitIndex := 1%nat in
      revert_loop (toplevel self) gitref (skipn commitIndex commits).

End Workflow.

(** ** Predicates of the statements *)

(** [nrFormatted] is the value that the formatting rule gives for [nr]. *)
Definition formatted (self : XEP) : Prop :=
  nrFormatted self =
  Some (match nr self with
        | PyInt n => format_04d n
        | PyStr s => s
        end).

(** The pattern matches at no position of [s]. *)
Definition no_match (name s : string) : Prop :=
  forall before after, s = before ++ after -> Re.match_here name after = None.

(** [result] is [s] with the leftmost match of the pattern rewritten: the
    match starts right after [before], its content [body] is in the class,
    the pattern matches at no earlier position, and only [body] changed. *)
Definition leftmost_match_replaced (name text s result : string) : Prop :=
  exists before body after,
    s = before ++ Re.open_tag name ++ body ++ Re.close_tag name ++ after /\
    all_chars Re.in_class body = true /\
    (forall p q, before = p ++ q -> q <> EmptyString ->
                 Re.match_here name (q ++ Re.open_tag name ++ body ++ Re.close_tag name ++ after)
                 = None) /\
    result = before ++ Re.open_tag name ++ text ++ Re.close_tag name ++ after.

(** Queries on the tree, as the parser makes them. *)

Definition first_element (name : string) (n : Node) : option Node :=
  hd_error (getElementsByTagName name n).

Definition element_text (name : string) (n : Node) : option string :=
  option_map (fun e => __getText__ (childNodes e)) (first_element name n).

Definition xep_node (doc : Document) : option Node :=
  hd_error (Document_getElementsByTagName "xep" doc).

Definition present (name : string) (n : Node) : bool :=
  match first_element name n with
  | Some _ => true
  | None => false
  end.

(** The version text of the first revision of the header [h]. *)
Definition version_text (h : Node) : option string :=
  match first_element "revision" h with
  | Some r => element_text "version" r
  | None => None
  end.

(** The header has every element that the parser indexes with [[0]]. *)
Definition complete_header (h : Node) : bool :=
  forallb (fun name => present name h)
    ["title"; "number"; "abstract"; "status"; "type"; "revision"]
  && match first_element "revision" h with
     | Some r => present "date" r && present "version" r
     | None => false
     end.

(** The version text has a second component. *)
Definition dotted (v : string) : bool :=
  match split "." v with
  | _ :: _ :: _ => true
  | _ => false
  end.

Definition dotted_version (h : Node) : bool :=
  match version_text h with
  | Some v => dotted v
  | None => false
  end.

Definition has_src (img : Node) : bool :=
  match attribute "src" (attributes img) with
  | Some _ => true
  | None => false
  end.

Definition interim_marked (h : Node) : bool :=
  match getElementsByTagName "interim" h with
  | _ :: _ => true
  | [] => false
  end.

(** The texts of the spec elements inside the first dependencies block. *)
Definition spec_texts (h : Node) : list string :=
  match getElementsByTagName "dependencies" h with
  | depNode :: _ =>
      map (fun dep => __getText__ (childNodes dep)) (getElementsByTagName "spec" depNode)
  | [] => []
  end.


(** The src values of the img elements below [x], in document order. *)
Definition image_sources (x : Node) : list string :=
  flat_map (fun img => match attribute "src" (attributes img) with
                       | Some v => [v]
                       | None => []
                       end)
           (getElementsByTagName "img" x).

(** The tree has what the parser needs to run to its end: the indexed
    elements, a version with a second component, a src on every img. *)
Definition well_formed (x h : Node) : bool :=
  complete_header h && dotted_version h
  && forallb has_src (getElementsByTagName "img" x).

(** The number text is an integer literal. *)
Definition number_parses (h : Node) : bool :=
  match element_text "number" h with
  | Some t => match Py.int t with Some _ => true | None => false end
  | None => false
  end.

(** The parser can name the object in a diagnostic: [nrFormatted] is
    assigned already, or the number step will not need a diagnostic. *)
Definition nameable (self : XEP) (h : Node) : Prop :=
  nrFormatted self <> None \/ number_parses h = true.

(** The file name that the number step looks at, and its test for a
    document of the inbox or the template. *)
Definition file_part (self : XEP) : string := snd (os_path_split (filename self)).

Definition in_inbox_or_template (self : XEP) : bool :=
  String.eqb (os_path_basename (fst (os_path_split (filename self)))) "inbox"
  || String.eqb (file_part self) "xep-template.xml".

(** The stem of a file name as [os.path.splitext] gives it: the name up to
    its last dot, the whole name when it has no dot or only leading dots. *)
Fixpoint stem_aux (seen_other : bool) (s : string) : option string :=
  match s with
  | EmptyString => None
  | String c s' =>
      let dot := Ascii.eqb c "." in
      match stem_aux (seen_other || negb dot) s' with
      | Some t => Some (String c t)
      | None => if dot && seen_other then Some EmptyString else None
      end
  end.

Definition stem (s : string) : string :=
  match stem_aux false s with
  | Some t => t
  | None => s
  end.

(** Relations between the object before and after a call. *)

(** The attribute [f] has the value it had. *)
Definition same {S X : Type} (f : S -> X) : S -> S -> Prop :=
  fun a b => f b = f a.

(** [parseErrors] only gained entries at its end. *)
Definition grows (a b : XEP) : Prop :=
  exists extra : list string, parseErrors b = (parseErrors a ++ extra)%list.

(** Once assigned, [nrFormatted] stays assigned. *)
Definition named (a b : XEP) : Prop :=
  nrFormatted a <> None -> nrFormatted b <> None.

(** The attributes that the parser never assigns. *)
Definition config (self : XEP) :=
  (filename self, xslpath self, imagespath self, gittoplevel self, outpath self,
   buildErrors self, raw self).

(** What every step of the parser keeps. *)
Definition kept_by_parser (a b : XEP) : Prop :=
  same config a b /\ grows a b /\ named a b.

(** What the steps after the number keep. *)
Definition kept_after_number (a b : XEP) : Prop :=
  kept_by_parser a b /\ same nr a b /\ same nrFormatted a b.

(** What the steps after the interim marker keep. *)
Definition kept_after_interim (a b : XEP) : Prop :=
  kept_after_number a b /\ same interim a b.

(** What the steps after the revision keep. *)
Definition kept_after_revision (a b : XEP) : Prop :=
  kept_after_interim a b /\ same version a b.

(** What the image step keeps. *)
Definition kept_after_depends (a b : XEP) : Prop :=
  kept_after_revision a b /\ same depends a b.

(** [c] relates every object to the object it leaves behind, whether it
    returns or raises. *)
Definition preserves {S A : Type} (R : S -> S -> Prop) (c : M S A) : Prop :=
  forall s, R s (final (c s)).

(** The blob of the commit [c] can be read, parses into a well-formed
    tree, and carries the interim marker or not, as [marked] says. *)
Definition blob_parses (L : Library) (w : World) (top gitref c : string)
  (marked : bool) (blob : string) : Prop :=
  exists doc x h,
    git_show w top (c ++ ":" ++ gitref) = (blob, EmptyString) /\
    parseString L blob = Some doc /\
    xep_node doc = Some x /\ first_element "header" x = Some h /\
    well_formed x h = true /\ interim_marked h = marked.



(** The record after warnings were added to [buildErrors]. *)
Definition warned (warnings : list string) (self : XEP) : XEP :=
  set_buildErrors (buildErrors self ++ warnings) self.

(** ** Values and diagnostics of the fields *)

(** The text of the first [name] element below [n] (empty when there is
    none), and of the first [name] element of the first revision. *)
Definition text_of (name : string) (n : Node) : string :=
  match element_text name n with
  | Some t => t
  | None => EmptyString
  end.

Definition revision_text (name : string) (h : Node) : string :=
  match first_element "revision" h with
  | Some r => text_of name r
  | None => EmptyString
  end.

(** The component [i] of the version text of the header. *)
Definition component (i : nat) (h : Node) : string :=
  nth i (split "." (revision_text "version" h)) EmptyString.

(** The record with entries added to [parseErrors]. *)
Definition diagnosed (entries : list string) (self : XEP) : XEP :=
  set_parseErrors (parseErrors self ++ entries) self.

(** What [str(self)] gives for a formatted number and a file name. *)
Definition display_of (nf file : string) : string :=
  if negb (truthy nf) then file else "XEP-" ++ nf.

(** The entry that a field leaves when reading it failed with the
    exception [failure], and nothing when it did not fail. *)
Definition field_diagnostic (valuedescription name file : string)
  (failure : option Exn) : list string :=
  match failure with
  | Some e => [parsing_error valuedescription name file e]
  | None => []
  end.

Definition date_failure (L : Library) (t : string) : option Exn :=
  match strptime L t with
  | inl _ => None
  | inr msg => Some (ValueError msg)
  end.

Definition int_failure (L : Library) (t : string) : option Exn :=
  match Py.int t with
  | Some _ => None
  | None => Some (int_error L t)
  end.

(** The number that the rules of the number step give for the number
    text [t], and the text it is formatted to. *)
Definition number_value (self : XEP) (t : string) : PyVal :=
  if in_inbox_or_template self then PyStr (drop_last4 (file_part self))
  else if is_xxxx t then PyStr (drop_last4 (file_part self))
  else if String.eqb (file_part self) "xep-README.xml" && String.eqb t "README"
       then PyStr t
  else match Py.int t with
       | Some n => PyInt n
       | None => PyStr t
       end.

Definition format_number (v : PyVal) : string :=
  match v with
  | PyInt n => format_04d n
  | PyStr s => s
  end.

(** The entries of the number step: the message for a document of the
    inbox or the template whose number is not the placeholder, or the
    message for a text that no rule accepts, which names the object as it
    was named before ([None]: it had no name, the step raises). *)
Definition number_diagnostics (L : Library) (self : XEP) (t : string) : list string :=
  if in_inbox_or_template self then
    if negb (is_xxxx t) then
      [("Invalid value for XEP-number (" ++ t ++ ") while parsing protoXEP." ++ nl)
       ++ "  XEP file: " ++ filename self]
    else []
  else if is_xxxx t then []
  else if String.eqb (file_part self) "xep-README.xml" && String.eqb t "README"
       then []
  else match Py.int t, nrFormatted self with
       | None, Some nf =>
           [parsing_error "XEP number" (display_of nf (filename self)) (filename self)
              (int_error L t)]
       | _, _ => []
       end.

(** The values of the two dates. *)
Definition lastcall_value (L : Library) (h : Node) : option datetime :=
  match element_text "lastcall" h with
  | Some t => match strptime L t with
              | inl d => Some d
              | inr _ => None
              end
  | None => None
  end.

Definition lastcall_failure (L : Library) (h : Node) : option Exn :=
  match element_text "lastcall" h with
  | Some t => date_failure L t
  | None => None
  end.

Definition date_value (L : Library) (h : Node) : datetime :=
  match strptime L (revision_text "date" h) with
  | inl d => d
  | inr _ => now L
  end.

(** The values of the two version numbers. *)
Definition major_value (h : Node) : Z :=
  match Py.int (component 0 h) with
  | Some n => n
  | None => 0
  end.

Definition minor_value (h : Node) : PyVal :=
  match Py.int (component 1 h) with
  | Some n => PyInt n
  | None => if interim_marked h then PyStr (component 1 h) else PyInt 0
  end.

Definition minor_failure (L : Library) (h : Node) : option Exn :=
  if interim_marked h then None else int_failure L (component 1 h).

(** All the entries that one parse adds, in the order of the steps. *)
Definition diagnostics (L : Library) (self : XEP) (h : Node) : list string :=
  let name :=
    display_of (format_number (number_value self (text_of "number" h))) (filename self) in
  number_diagnostics L self (text_of "number" h)
  ++ field_diagnostic "last call" name (filename self) (lastcall_failure L h)
  ++ field_diagnostic "date" name (filename self)
       (date_failure L (revision_text "date" h))
  ++ field_diagnostic "major version" name (filename self)
       (int_failure L (component 0 h))
  ++ field_diagnostic "major version" name (filename self) (minor_failure L h).


(** The number step can complete: the record has a name already (this is
    not its first parse), or one of the rules of the step accepts the
    number text, so that no diagnostic has to name the record: the file is
    in the inbox or is the template, the text is the placeholder, the file
    and the text are those of the README, or the text is an integer
    literal. *)
Definition number_accepted (self : XEP) (h : Node) : Prop :=
  nrFormatted self <> None \/
  in_inbox_or_template self = true \/
  is_xxxx (text_of "number" h) = true \/
  String.eqb (file_part self) "xep-README.xml"
  && String.eqb (text_of "number" h) "README" = true \/
  Py.int (text_of "number" h) <> None.


(** The events of processes that read the history of the file. *)
Definition reads_history (e : Event) : bool :=
  match e with
  | GitLog _ _ | GitShow _ _ => true
  | _ => false
  end.

(** Between two states, nothing happened but reading the history: the
    record kept its file name and its top-level directory, [buildErrors]
    only gained entries, no file was written, and the trace gained only
    events that read the history. *)
Definition only_reads_history (a b : State) : Prop :=
  filename (fst b) = filename (fst a) /\
  gittoplevel (fst b) = gittoplevel (fst a) /\
  (exists warnings, buildErrors (fst b) = (buildErrors (fst a) ++ warnings)%list) /\
  files (snd b) = files (snd a) /\
  exists events,
    trace (snd b) = (trace (snd a) ++ events)%list /\
    forallb reads_history events = true.

(** ** Fixtures: a serialiser, a table-driven parser and sample documents *)

Module Fixture.

Fixpoint toxml (n : Node) : string :=
  match n with
  | Element t attrs cs =>
      "<" ++ t
      ++ fold_right (fun kv acc => " " ++ fst kv ++ "='" ++ snd kv ++ "'" ++ acc) EmptyString attrs
      ++ ">" ++ fold_right (fun c acc => toxml c ++ acc) EmptyString cs
      ++ "</" ++ t ++ ">"
  | TextNode d => d
  | OtherNode d => "<!--" ++ d ++ "-->"
  end.

Definition document_xml (d : Document) : string :=
  fold_right (fun c acc => toxml c ++ acc) EmptyString (documentNodes d).

Definition leaf (tag text : string) : Node := Element tag [] [TextNode text].

(** A document of the schema: number, status, version of its only
    revision, whether it carries the interim marker, and further nodes for
    the header and for the body. *)
Definition sample (number status' version' : string) (interim' : bool)
  (header_extra body : list Node) : Document :=
  mkDocument
    [Element "xep" []
       (Element "header" []
          ([leaf "title" "Sample"; leaf "number" number;
            leaf "abstract" "A sample."; leaf "status" status';
            leaf "type" "Standards Track"]
           ++ (if interim' then [Element "interim" [] []] else [])
           ++ header_extra
           ++ [Element "revision" []
                 [leaf "version" version'; leaf "date" "2014-09-23"]])
        :: body)].

Definition deps (specs : list Node) : Node := Element "dependencies" [] specs.

Definition doc_plain : Document := sample "0001" "Active" "1.2" false [] [].
Definition doc_deferred : Document := sample "0001" "Deferred" "1.2" false [] [].
Definition doc_undotted : Document := sample "0001" "Active" "1" false [] [].
Definition doc_minor_x : Document := sample "0001" "Active" "1.x" false [] [].
Definition doc_rc1 : Document := sample "0001" "Active" "1.2rc1" true [] [].
Definition doc_rc2 : Document := sample "0001" "Active" "1.3rc2" true [] [].
Definition doc_rc3 : Document := sample "0001" "Active" "1.4rc1" true [] [].
Definition doc_bad_number : Document := sample "12a" "Active" "1.2" false [] [].
Definition doc_0045 : Document := sample "0045" "Active" "0.3" false [] [].

Definition doc_two_specs : Document :=
  sample "0045" "Active" "0.3" false [deps [leaf "spec" "A"; leaf "spec" "B"]] [].

Definition doc_no_deps : Document := doc_0045.

Definition doc_nested_spec : Document :=
  sample "0045" "Active" "0.3" false
    [deps [Element "spec" [] [TextNode "A"; leaf "spec" "B"]]] [].

Definition doc_images : Document :=
  sample "0045" "Active" "0.3" false []
    [Element "img" [("src", "a.png")] [];
     Element "p" [] [Element "img" [("src", "b.png")] []]].

Definition doc_image_without_src : Document :=
  sample "0045" "Active" "0.3" false []
    [Element "img" [("src", "a.png")] []; Element "img" [("alt", "b")] []].

Definition samples : list Document :=
  [doc_plain; doc_deferred; doc_undotted; doc_minor_x; doc_rc1; doc_rc2; doc_rc3;
   doc_bad_number; doc_0045; doc_two_specs; doc_nested_spec; doc_images;
   doc_image_without_src].

(** The xep node and the header node of a sample. *)
Definition xep_of (d : Document) : Node :=
  match xep_node d with
  | Some x => x
  | None => TextNode EmptyString
  end.

Definition header_of (d : Document) : Node :=
  match first_element "header" (xep_of d) with
  | Some h => h
  | None => TextNode EmptyString
  end.

(** The parser of the fixtures: a text is a document when it is the
    serialisation of one of the samples. *)
Definition parse (rawText : string) : option Document :=
  find (fun d => String.eqb (document_xml d) rawText) samples.

(** Dates of the form YYYY-MM-DD with digits only are accepted. *)
Definition parse_date (s : string) : datetime + string :=
  match s with
  | String y1 (String y2 (String y3 (String y4 (String "-" (String m1 (String m2
      (String "-" (String d1 (String d2 EmptyString))))))))) =>
      match parse_digits (String y1 (String y2 (String y3 (String y4 EmptyString))))%string,
            parse_digits (String m1 (String m2 EmptyString))%string,
            parse_digits (String d1 (String d2 EmptyString))%string with
      | Some y, Some m, Some d => inl (mkDate y m d)
      | _, _, _ =>
          inr ("time data '" ++ s ++ "' does not match format '%Y-%m-%d'")
      end
  | _ => inr ("time data '" ++ s ++ "' does not match format '%Y-%m-%d'")
  end.

Definition drop_prefix_path (file top : string) : string :=
  match Re.match_literal (top ++ "/") file with
  | Some rest => rest
  | None => file
  end.

Definition lib : Library :=
  mkLibrary parse parse_date (mkDate 2014 9 23)
    (fun s => "'" ++ s ++ "'") drop_prefix_path (fun p => p).

Definition no_output : string * string := (EmptyString, EmptyString).

(** A world with one source file and a git process that answers from the
    given log and blobs. *)
Definition world (file text : string) (status_out log_out : string)
  (blobs : list (string * string)) : World :=
  mkWorld [(file, text)] []
    (fun _ => ("/repo", EmptyString))
    (fun _ _ => (status_out, EmptyString))
    (fun _ _ _ => no_output)
    (fun _ _ => (log_out, EmptyString))
    (fun _ object =>
       match lookup_file object blobs with
       | Some text => (text, EmptyString)
       | None => (EmptyString, "fatal: bad object")
       end)
    [].

Definition log3 : string := "c0" ++ nl ++ "c1" ++ nl ++ "c2".


(** A history of three commits that are all interim. *)
Definition interim_history : World :=
  world "/repo/xep-0001.xml" (document_xml doc_rc3) EmptyString log3
    [("c1:xep-0001.xml", document_xml doc_rc2);
     ("c2:xep-0001.xml", document_xml doc_rc1)].

(** A working tree in which the file of the plain sample is clean. *)
Definition clean_tree : World :=
  world "/repo/xep-0001.xml" (document_xml doc_plain) EmptyString "c0" [].

(** A working tree in which the file of the plain sample is modified. *)
Definition dirty_tree : World :=
  world "/repo/xep-0001.xml" (document_xml doc_plain) " M xep-0001.xml" "c0" [].

(** The object that holds the text of [d], read from the file [file],
    before its first parse. *)
Definition unparsed (file : string) (top : option string) (d : Document) : XEP :=
  set_raw (document_xml d) (set_config file None None top None new_XEP).

(** The outcome of the first parse. *)
Definition parsed (file : string) (top : option string) (d : Document) : Result XEP unit :=
  readXEP lib (unparsed file top d).

End Fixture.

(** ** Further sample documents *)

Module Cases.

(** A header whose last call, date and major version do not parse. *)
Definition doc_bad_fields : Document :=
  mkDocument
    [Element "xep" []
       [Element "header" []
          [Fixture.leaf "title" "Sample"; Fixture.leaf "number" "0007";
           Fixture.leaf "abstract" "A sample."; Fixture.leaf "status" "Proposed";
           Fixture.leaf "type" "Standards Track"; Fixture.leaf "shortname" "sample";
           Fixture.leaf "lastcall" "soon";
           Element "revision" []
             [Fixture.leaf "version" "x.2"; Fixture.leaf "date" "yesterday"]]]].

Definition samples : list Document := Fixture.samples ++ [doc_bad_fields].

Definition parse (rawText : string) : option Document :=
  find (fun d => String.eqb (Fixture.document_xml d) rawText) samples.

Definition lib : Library :=
  mkLibrary parse Fixture.parse_date (mkDate 2014 9 23)
    (fun s => "'" ++ s ++ "'") Fixture.drop_prefix_path (fun p => p).

(** A record of the plain sample with an output directory, and a tree in
    which its page has been built and the attic exists. *)
Definition built : XEP :=
  final (readXEP Fixture.lib
           (set_raw (Fixture.document_xml Fixture.doc_plain)
              (set_config "/repo/xep-0001.xml" None None None (Some "/out") new_XEP))).

Definition built_tree : World :=
  mkWorld [("/repo/xep-0001.xml", Fixture.document_xml Fixture.doc_plain);
           ("/out/xep-0001.html", "<html>XEP-0001</html>")]
    ["/out/attic"]
    (fun _ => ("/repo", EmptyString))
    (fun _ _ => Fixture.no_output) (fun _ _ _ => Fixture.no_output)
    (fun _ _ => ("c0", EmptyString)) (fun _ _ => Fixture.no_output) [].

End Cases.

(** * Properties *)

(** ** Strings *)

Lemma append_nil_r (s : string) : s ++ EmptyString = s.
Proof. induction s as [|c s IH]; simpl; [reflexivity | now rewrite IH]. Qed.

Lemma append_assoc (a b c : string) : (a ++ b) ++ c = a ++ b ++ c.
Proof. induction a as [|x a IH]; simpl; [reflexivity | now rewrite IH]. Qed.

Lemma compare_as_OT (a b : string) :
  String.compare a b = OrdersEx.String_as_OT.compare a b.
Proof. revert b; induction a; destruct b; simpl; auto. Qed.

Lemma compare_lt_trans (a b c : string) :
  String.compare a b = Lt -> String.compare b c = Lt -> String.compare a c = Lt.
Proof.
  rewrite !compare_as_OT. intros Hab Hbc.
  exact (StrictOrder_Transitive (R := OrdersEx.String_as_OT.lt) a b c Hab Hbc).
Qed.

Lemma compare_refl (a : string) : String.compare a a = Eq.
Proof.
  induction a as [|c a IH]; simpl; [reflexivity|].
  unfold Ascii.compare. now rewrite N.compare_refl.
Qed.

Lemma truthy_append_r (a b : string) : truthy b = true -> truthy (a ++ b) = true.
Proof. destruct a; simpl; auto. Qed.

Lemma drop_last4_xml (base : string) : drop_last4 (base ++ ".xml") = base.
Proof.
  unfold drop_last4.
  assert (E : String.length (base ++ ".xml") = (String.length base + 4)%nat).
  { induction base as [|c b IH]; simpl; [reflexivity | now rewrite IH]. }
  rewrite E. replace (String.length base + 4 - 4)%nat with (String.length base) by lia.
  clear E. induction base as [|c b IH]; simpl; [reflexivity | now rewrite IH].
Qed.

(** ** Ordering of records (C9) *)

Lemma format_04d_step (n : nat) :
  Z.of_nat n < 9999 ->
  String.compare (format_04d (Z.of_nat n)) (format_04d (Z.of_nat (S n))) = Lt.
Proof.
  intros Hn.
  assert (H : forallb
                (fun n => match String.compare (format_04d (Z.of_nat n))
                                               (format_04d (Z.of_nat (S n))) with
                          | Lt => true
                          | _ => false
                          end)
                (seq 0 (Z.to_nat 9999)) = true) by (vm_compute; reflexivity).
  rewrite forallb_forall in H.
  assert (Hin : In n (seq 0 (Z.to_nat 9999))) by (apply in_seq; lia).
  specialize (H n Hin).
  destruct (String.compare _ _); [discriminate | reflexivity | discriminate].
Qed.

Lemma format_04d_increasing (x y : nat) :
  (x < y)%nat -> Z.of_nat y <= 9999 ->
  String.compare (format_04d (Z.of_nat x)) (format_04d (Z.of_nat y)) = Lt.
Proof.
  induction y as [|y IH]; intros Hxy Hy; [lia|].
  destruct (Nat.eq_dec x y) as [->|Hne].
  - apply format_04d_step; lia.
  - eapply compare_lt_trans; [apply IH; lia | apply format_04d_step; lia].
Qed.

Lemma format_04d_ltb (x y : Z) :
  0 <= x <= 9999 -> 0 <= y <= 9999 ->
  String.ltb (format_04d x) (format_04d y) = (x <? y).
Proof.
  intros Hx Hy. unfold String.ltb.
  rewrite <- (Z2Nat.id x), <- (Z2Nat.id y) by lia.
  destruct (Z.ltb_spec (Z.of_nat (Z.to_nat x)) (Z.of_nat (Z.to_nat y))) as [Hlt|Hge].
  - rewrite format_04d_increasing by lia. reflexivity.
  - destruct (Z.eq_dec (Z.of_nat (Z.to_nat x)) (Z.of_nat (Z.to_nat y))) as [->|Hne].
    + now rewrite compare_refl.
    + rewrite String.compare_antisym, format_04d_increasing by lia. reflexivity.
Qed.

Lemma format_04d_truthy (x : Z) : truthy (format_04d x) = true.
Proof.
  unfold format_04d. destruct (str_of_int x) as [|c s]; [reflexivity|].
  now apply truthy_append_r.
Qed.

Lemma ltb_XEP_prefix (s t : string) :
  String.ltb ("XEP-" ++ s) ("XEP-" ++ t) = String.ltb s t.
Proof. reflexivity. Qed.

Lemma str_of_formatted (self : XEP) (n : Z) :
  nr self = PyInt n -> formatted self ->
  __str__ self = Ok ("XEP-" ++ format_04d n) self.
Proof.
  unfold formatted, __str__, bind, get, ret. intros -> ->.
  now rewrite format_04d_truthy.
Qed.

(** C9: for two records whose numbers are integers between 0 and 9999 and
    whose formatted numbers follow the formatting rule, the less-than
    comparison of the records (the comparison of their display strings
    XEP-nnnn) returns exactly the comparison of the numbers. *)
Theorem lt_orders_by_number (a b : XEP) (x y : Z) :
  nr a = PyInt x -> nr b = PyInt y ->
  formatted a -> formatted b ->
  0 <= x <= 9999 -> 0 <= y <= 9999 ->
  __lt__ b a = Ok (x <? y) a.
Proof.
  intros Ha Hb Fa Fb Hx Hy.
  unfold __lt__, bind.
  rewrite (str_of_formatted a x Ha Fa), (str_of_formatted b y Hb Fb).
  unfold ret. now rewrite ltb_XEP_prefix, format_04d_ltb.
Qed.

Lemma lt_orders_by_number_witness :
  let a := final (Fixture.parsed "/repo/xep-0001.xml" None Fixture.doc_plain) in
  let b := final (Fixture.parsed "/repo/xep-0045.xml" None Fixture.doc_0045) in
  __lt__ b a = Ok (1 <? 45) a.
Proof.
  apply lt_orders_by_number; first [reflexivity | lia].
Defined.

(** ** The text patcher (C3) *)

Lemma match_literal_sound (p s rest : string) :
  Re.match_literal p s = Some rest -> s = p ++ rest.
Proof.
  revert s; induction p as [|a p IH]; intros s H; simpl in *.
  - now inversion H.
  - destruct s as [|b s]; [discriminate|].
    destruct (Ascii.eqb_spec a b) as [->|]; [|discriminate].
    now rewrite (IH _ H).
Qed.

Lemma match_star_then_sound (closing s rest : string) :
  Re.match_star_then closing s = Some rest ->
  exists body, s = body ++ closing ++ rest /\ all_chars Re.in_class body = true.
Proof.
  revert rest; induction s as [|c s IH]; intros rest H;
    cbn [Re.match_star_then] in H.
  - exists EmptyString; split; [simpl; now apply match_literal_sound | reflexivity].
  - destruct (Re.in_class c) eqn:Hc.
    + destruct (Re.match_star_then closing s) as [r|] eqn:Hs.
      * inversion H; subst r. destruct (IH _ eq_refl) as (body & -> & Hb).
        exists (String c body); simpl; now rewrite Hc.
      * exists EmptyString; split; [simpl; now apply match_literal_sound | reflexivity].
    + exists EmptyString; split; [simpl; now apply match_literal_sound | reflexivity].
Qed.

Lemma match_here_sound (name s rest : string) :
  Re.match_here name s = Some rest ->
  exists body,
    s = Re.open_tag name ++ body ++ Re.close_tag name ++ rest /\
    all_chars Re.in_class body = true.
Proof.
  unfold Re.match_here.
  destruct (Re.match_literal (Re.open_tag name) s) as [b|] eqn:Ho; [|discriminate].
  intros H. apply match_literal_sound in Ho.
  destruct (match_star_then_sound _ _ _ H) as (body & -> & Hb).
  exists body; split; [exact Ho | exact Hb].
Qed.

Lemma split_nil_prefix (p q s : string) :
  EmptyString = p ++ q -> q <> EmptyString -> s = s -> False.
Proof. destruct p; simpl; intros H Hq _; [now subst q | discriminate]. Qed.

Lemma sub_first_spec (name replacement s : string) :
  (no_match name s /\ Re.sub_first name replacement s = s) \/
  (exists before rest r,
      Re.match_here name rest = Some r /\
      (forall p q, before = p ++ q -> q <> EmptyString ->
                   Re.match_here name (q ++ rest) = None) /\
      s = before ++ rest /\
      Re.sub_first name replacement s = before ++ replacement ++ r).
Proof.
  induction s as [|c s IH].
  - cbn [Re.sub_first]. destruct (Re.match_here name EmptyString) as [r|] eqn:Hm.
    + right. exists EmptyString, EmptyString, r. split; [exact Hm|]. split; [|split; reflexivity].
      intros p q Hpq Hq. exfalso. exact (split_nil_prefix p q q Hpq Hq eq_refl).
    + left. split; [|reflexivity].
      intros b a Hba. destruct b; destruct a; try discriminate. exact Hm.
  - cbn [Re.sub_first]. destruct (Re.match_here name (String c s)) as [r|] eqn:Hm.
    + right. exists EmptyString, (String c s), r. split; [exact Hm|]. split; [|split; reflexivity].
      intros p q Hpq Hq. exfalso. exact (split_nil_prefix p q q Hpq Hq eq_refl).
    + destruct IH as [[Hno Hs]|(before & rest & r & Hr & Hfirst & Hsplit & Hres)].
      * left. split; [|now rewrite Hs].
        intros b a Hba. destruct b as [|c' b]; simpl in Hba.
        -- subst a. exact Hm.
        -- inversion Hba; subst. now apply (Hno b a).
      * right. exists (String c before), rest, r.
        split; [exact Hr|]. split; [|split].
        -- intros p q Hpq Hq. destruct p as [|c' p]; simpl in Hpq.
           ++ subst q. simpl. rewrite <- Hsplit. exact Hm.
           ++ inversion Hpq; subst. exact (Hfirst p q eq_refl Hq).
        -- simpl. now rewrite Hsplit.
        -- simpl. now rewrite Hres.
Qed.

Lemma replace_text_spec (name text s : string) :
  (no_match name s /\ Re.replace_text name text s = s) \/
  leftmost_match_replaced name text s (Re.replace_text name text s).
Proof.
  unfold Re.replace_text.
  destruct (sub_first_spec name (Re.open_tag name ++ text ++ Re.close_tag name) s)
    as [H|(before & rest & r & Hr & Hfirst & Hsplit & Hres)].
  - left. exact H.
  - right. destruct (match_here_sound _ _ _ Hr) as (body & Hrest & Hbody).
    exists before, body, r. subst rest. split; [exact Hsplit|].
    split; [exact Hbody|]. split; [exact Hfirst|].
    unfold Re.open_tag, Re.close_tag in *. rewrite Hres.
    now rewrite !append_assoc.
Qed.

(** ** Reasoning about calls *)

Lemma bind_ok {S A B} (c : M S A) (k : A -> M S B) (s s' : S) (a : A) :
  c s = Ok a s' -> bind c k s = k a s'.
Proof. unfold bind. now intros ->. Qed.

Lemma bind_ok_inv {S A B} (c : M S A) (k : A -> M S B) (s s' : S) (b : B) :
  bind c k s = Ok b s' -> exists a s1, c s = Ok a s1 /\ k a s1 = Ok b s'.
Proof. unfold bind. destruct (c s) as [a s1|e s1]; [eauto | discriminate]. Qed.

Lemma bind_modify {S B} (f : S -> S) (k : unit -> M S B) (s : S) :
  bind (modify f) k s = k tt (f s).
Proof. reflexivity. Qed.

Lemma bind_ret {S A B} (a : A) (k : A -> M S B) (s : S) : bind (ret a) k s = k a s.
Proof. reflexivity. Qed.

Lemma bind_get {S B} (k : S -> M S B) (s : S) : bind get k s = k s s.
Proof. reflexivity. Qed.

Lemma bind_raise {S A B} (e : Exn) (k : A -> M S B) (s : S) :
  bind (raise e) k s = Raise e s.
Proof. reflexivity. Qed.

Lemma bind_assoc {S A B C} (c : M S A) (k1 : A -> M S B) (k2 : B -> M S C) (s : S) :
  bind (bind c k1) k2 s = bind c (fun a => bind (k1 a) k2) s.
Proof. unfold bind. now destruct (c s). Qed.

(** Runs the assignments at the head of a method body. *)
Ltac mrun :=
  repeat first
    [ rewrite bind_assoc | rewrite bind_modify | rewrite bind_ret | rewrite bind_get
    | rewrite bind_raise ].

#[local] Instance same_preorder {S X : Type} (f : S -> X) : PreOrder (same f).
Proof.
  split; [intros a; reflexivity | intros a b c Hab Hbc; unfold same in *; congruence].
Qed.

#[local] Instance grows_preorder : PreOrder grows.
Proof.
  split.
  - intros a. exists []. now rewrite app_nil_r.
  - intros a b c [x Hx] [y Hy]. exists (x ++ y)%list. now rewrite Hy, Hx, <- app_assoc.
Qed.

#[local] Instance named_preorder : PreOrder named.
Proof. split; [intros a H; exact H | intros a b c Hab Hbc H; exact (Hbc (Hab H))]. Qed.

Section Preserves.

Context {S : Type} (R : S -> S -> Prop) `{!PreOrder R}.

Lemma preserves_ret {A} (a : A) : preserves R (ret a).
Proof. intros s; simpl; reflexivity. Qed.

Lemma preserves_get : preserves R get.
Proof. intros s; simpl; reflexivity. Qed.

Lemma preserves_raise {A} (e : Exn) : preserves R (@raise S A e).
Proof. intros s; simpl; reflexivity. Qed.

Lemma preserves_item {A} (i : nat) (l : list A) : preserves R (item i l).
Proof. unfold item. destruct (nth_error l i); [apply preserves_ret | apply preserves_raise]. Qed.

Lemma preserves_modify (f : S -> S) : (forall s, R s (f s)) -> preserves R (modify f).
Proof. intros H s; simpl; apply H. Qed.

Lemma preserves_bind {A B} (c : M S A) (k : A -> M S B) :
  preserves R c -> (forall a, preserves R (k a)) -> preserves R (bind c k).
Proof.
  intros Hc Hk s. unfold bind. specialize (Hc s).
  destruct (c s) as [a s'|e s']; simpl in *; [|exact Hc].
  etransitivity; [exact Hc | apply Hk].
Qed.

Lemma preserves_try_except {A} (body : M S A) (handler : Exn -> M S A) :
  preserves R body -> (forall e, preserves R (handler e)) ->
  preserves R (try_except body handler).
Proof.
  intros Hb Hh s. unfold try_except. specialize (Hb s).
  destruct (body s) as [a s'|e s']; simpl in *; [exact Hb|].
  etransitivity; [exact Hb | apply Hh].
Qed.

Lemma preserves_try_except_ValueError {A} (body : M S A) (handler : Exn -> M S A) :
  preserves R body -> (forall e, preserves R (handler e)) ->
  preserves R (try_except_ValueError body handler).
Proof.
  intros Hb Hh. apply preserves_try_except; [exact Hb|].
  intros e; destruct e; try apply preserves_raise; apply Hh.
Qed.

Lemma preserves_fold_left {X} (step : X -> M S unit) (l : list X) (acc : M S unit) :
  preserves R acc -> (forall x, preserves R (step x)) ->
  preserves R (fold_left (fun acc x => bind acc (fun _ => step x)) l acc).
Proof.
  revert acc; induction l as [|x l IH]; intros acc Ha Hs; simpl; [exact Ha|].
  apply IH; [|exact Hs]. apply preserves_bind; [exact Ha | intros _; apply Hs].
Qed.

End Preserves.

Lemma preserves_weaken {S A} (R R' : S -> S -> Prop) (c : M S A) :
  (forall a b, R a b -> R' a b) -> preserves R c -> preserves R' c.
Proof. intros W P s. apply W, P. Qed.

(** Closes the side condition of an assignment. *)
Ltac frame_assign :=
  intros;
  first
    [ reflexivity
    | exists []; symmetry; apply app_nil_r
    | eexists; reflexivity
    | intros ?; first [assumption | discriminate] ].

Lemma and_preorder {S} (R1 R2 : S -> S -> Prop) :
  PreOrder R1 -> PreOrder R2 -> PreOrder (fun a b => R1 a b /\ R2 a b).
Proof.
  intros H1 H2. split.
  - intros a; split; reflexivity.
  - intros a b c [? ?] [? ?]; split; etransitivity; eassumption.
Qed.

#[local] Instance kept_by_parser_preorder : PreOrder kept_by_parser.
Proof. repeat apply and_preorder; typeclasses eauto. Qed.

#[local] Instance kept_after_number_preorder : PreOrder kept_after_number.
Proof. repeat apply and_preorder; typeclasses eauto. Qed.

#[local] Instance kept_after_interim_preorder : PreOrder kept_after_interim.
Proof. repeat apply and_preorder; typeclasses eauto. Qed.

#[local] Instance kept_after_revision_preorder : PreOrder kept_after_revision.
Proof. repeat apply and_preorder; typeclasses eauto. Qed.

#[local] Instance kept_after_depends_preorder : PreOrder kept_after_depends.
Proof. repeat apply and_preorder; typeclasses eauto. Qed.

(** Closes the side condition of an assignment for the relations of the
    parser. *)
Ltac kept_assign :=
  intros;
  unfold kept_after_depends, kept_after_revision, kept_after_interim,
    kept_after_number, kept_by_parser;
  repeat split; frame_assign.

Ltac parser_frame :=
  unfold read_title, read_number, read_shortname, read_abstract_status, read_lastcall,
    read_type_interim, read_revision, read_majorVersion, read_minorVersion,
    read_depends, read_images, __processParsingError__, __str__, int_, strptime_;
  repeat
    match goal with
    | |- PreOrder _ => typeclasses eauto
    | |- forall _, _ => intro
    | |- preserves _ (ret _) => apply preserves_ret
    | |- preserves _ get => apply preserves_get
    | |- preserves _ (raise _) => apply preserves_raise
    | |- preserves _ (item _ _) => apply preserves_item
    | |- preserves _ (modify _) => apply preserves_modify; kept_assign
    | |- preserves _ (bind _ _) => apply preserves_bind
    | |- preserves _ (try_except_ValueError _ _) => apply preserves_try_except_ValueError
    | |- preserves _ (try_except _ _) => apply preserves_try_except
    | |- preserves _ (fold_left _ _ _) => apply preserves_fold_left
    | |- preserves _ (if ?x then _ else _) => destruct x
    | |- preserves _ (match ?x with _ => _ end) => destruct x
    | |- preserves _ (let (_, _) := ?x in _) => destruct x
    end.

Section StepFrames.

Variable L : Library.

Lemma read_title_kept h : preserves kept_by_parser (read_title h).
Proof. parser_frame. Qed.

Lemma read_number_kept h : preserves kept_by_parser (read_number L h).
Proof. parser_frame. Qed.

Lemma read_shortname_kept h : preserves kept_after_number (read_shortname h).
Proof. parser_frame. Qed.

Lemma read_abstract_status_kept h : preserves kept_after_number (read_abstract_status h).
Proof. parser_frame. Qed.

Lemma read_lastcall_kept h : preserves kept_after_number (read_lastcall L h).
Proof. parser_frame. Qed.

Lemma read_type_interim_kept h : preserves kept_after_number (read_type_interim h).
Proof. parser_frame. Qed.

Lemma read_revision_kept h : preserves kept_after_interim (read_revision L h).
Proof. parser_frame. Qed.

Lemma read_majorVersion_kept : preserves kept_after_revision (read_majorVersion L).
Proof. parser_frame. Qed.

Lemma read_minorVersion_kept : preserves kept_after_revision (read_minorVersion L).
Proof. parser_frame. Qed.

Lemma read_depends_kept h : preserves kept_after_revision (read_depends h).
Proof. parser_frame. Qed.

Lemma read_images_kept x : preserves kept_after_depends (read_images x).
Proof. parser_frame. Qed.

End StepFrames.

(** ** The steps of the parser *)

Lemma item0_first {S} (name : string) (n e : Node) (s : S) :
  first_element name n = Some e ->
  item 0 (getElementsByTagName name n) s = Ok e s.
Proof.
  unfold first_element, item. destruct (getElementsByTagName name n); simpl; [discriminate|].
  now intros [= ->].
Qed.

Lemma present_first (name : string) (n : Node) :
  present name n = true -> exists e, first_element name n = Some e.
Proof. unfold present. destruct (first_element name n); [eauto | discriminate]. Qed.

Section Steps.

Variable L : Library.

Lemma str_named (s : XEP) :
  nrFormatted s <> None -> exists name, __str__ s = Ok name s.
Proof.
  unfold __str__, bind, get, ret. destruct (nrFormatted s) as [nf|]; [|congruence].
  intros _. destruct (negb (truthy nf)); eauto.
Qed.

Lemma processParsingError_named_ok (d : string) (e : Exn) (s : XEP) :
  nrFormatted s <> None -> exists s', __processParsingError__ d e s = Ok tt s'.
Proof.
  intros H. destruct (str_named s H) as [name Hn].
  unfold __processParsingError__. rewrite (bind_ok _ _ _ _ _ Hn).
  unfold bind, get, modify. eauto.
Qed.

Lemma read_title_ok (h : Node) (s : XEP) :
  present "title" h = true -> exists s', read_title h s = Ok tt s'.
Proof.
  intros H. destruct (present_first _ _ H) as [e He].
  unfold read_title. rewrite (bind_ok _ _ _ _ _ (item0_first _ _ _ s He)).
  unfold modify. eauto.
Qed.

Lemma read_shortname_ok (h : Node) (s : XEP) : exists s', read_shortname h s = Ok tt s'.
Proof. unfold read_shortname. destruct (getElementsByTagName "shortname" h); unfold modify; eauto. Qed.

Lemma read_abstract_status_ok (h : Node) (s : XEP) :
  present "abstract" h = true -> present "status" h = true ->
  exists s', read_abstract_status h s = Ok tt s'.
Proof.
  intros Ha Hs. destruct (present_first _ _ Ha) as [a Hea].
  destruct (present_first _ _ Hs) as [t Het].
  unfold read_abstract_status.
  rewrite (bind_ok _ _ _ _ _ (item0_first _ _ _ s Hea)).
  unfold bind at 1. unfold modify at 1.
  rewrite (bind_ok _ _ _ _ _ (item0_first _ _ _ _ Het)).
  unfold modify. eauto.
Qed.

Lemma read_lastcall_ok (h : Node) (s : XEP) :
  nrFormatted s <> None -> exists s', read_lastcall L h s = Ok tt s'.
Proof.
  intros Hn. unfold read_lastcall.
  destruct (getElementsByTagName "lastcall" h) as [|n _]; [unfold modify; eauto|].
  unfold try_except, strptime_, bind.
  destruct (strptime L _); unfold ret, raise, modify; [eauto|].
  apply processParsingError_named_ok. exact Hn.
Qed.

Lemma read_type_interim_ok (h : Node) (s : XEP) :
  present "type" h = true ->
  exists s', read_type_interim h s = Ok tt s' /\ interim s' = interim_marked h.
Proof.
  intros H. destruct (present_first _ _ H) as [e He].
  unfold read_type_interim. rewrite (bind_ok _ _ _ _ _ (item0_first _ _ _ s He)).
  unfold bind, modify, interim_marked.
  destruct (getElementsByTagName "interim" h); eexists; split; reflexivity.
Qed.

Lemma read_revision_ok (h : Node) (v : string) (s : XEP) :
  nrFormatted s <> None ->
  complete_header h = true -> version_text h = Some v ->
  exists s', read_revision L h s = Ok tt s' /\ version s' = v.
Proof.
  intros Hn Hc Hv. unfold complete_header in Hc.
  apply andb_prop in Hc. destruct Hc as [_ Hc]. unfold version_text in Hv.
  destruct (first_element "revision" h) as [r|] eqn:Hr; [|discriminate].
  apply andb_prop in Hc. destruct Hc as [Hd Hve].
  destruct (present_first _ _ Hd) as [d Hed].
  unfold element_text in Hv.
  destruct (first_element "version" r) as [ve|] eqn:Hev; [|discriminate].
  simpl in Hv. injection Hv as Hv.
  unfold read_revision.
  rewrite (bind_ok _ _ _ _ _ (item0_first _ _ _ s Hr)).
  rewrite (bind_ok _ _ _ _ _ (item0_first _ _ _ s Hed)).
  assert (Hdate : exists s1,
             try_except
               (d0 <- strptime_ L (__getText__ (childNodes d));; modify (set_date d0))
               (fun exc => modify (set_date (now L));; __processParsingError__ "date" exc) s
             = Ok tt s1).
  { unfold try_except, strptime_, bind at 1.
    destruct (strptime L _); unfold ret, raise, modify; [eauto|].
    unfold bind. apply processParsingError_named_ok. exact Hn. }
  destruct Hdate as [s1 H1]. rewrite (bind_ok _ _ _ _ _ H1).
  rewrite (bind_ok _ _ _ _ _ (item0_first _ _ _ s1 Hev)).
  unfold modify. eexists; split; [reflexivity|]. exact Hv.
Qed.

Lemma read_number_ok (h : Node) (s : XEP) :
  present "number" h = true -> nameable s h ->
  exists s', read_number L h s = Ok tt s' /\ formatted s'.
Proof.
  intros H Hname. destruct (present_first _ _ H) as [e He].
  unfold read_number. rewrite (bind_ok _ _ _ _ _ (item0_first _ _ _ s He)).
  rewrite bind_get.
  destruct (os_path_split (filename s)) as [p fle].
  rewrite bind_modify.
  set (t := __getText__ (childNodes e)).
  assert (Hfin : forall s1, exists s',
             (self <- get;;
              match nr self with
              | PyInt n => modify (set_nrFormatted (Some (format_04d n)))
              | PyStr s0 => modify (set_nrFormatted (Some s0))
              end) s1 = Ok tt s' /\ formatted s').
  { intros s1. unfold bind, get, modify, formatted.
    destruct (nr s1) eqn:E; eexists; (split; [reflexivity|]); simpl; now rewrite E. }
  destruct (String.eqb (os_path_basename p) "inbox" || String.eqb fle "xep-template.xml").
  - destruct (negb (is_xxxx t)); mrun; apply Hfin.
  - destruct (is_xxxx t); [mrun; apply Hfin|].
    destruct (String.eqb fle "xep-README.xml" && String.eqb t "README");
      [mrun; apply Hfin|].
    unfold bind at 1. unfold try_except, int_.
    destruct (Py.int t) as [n|] eqn:Hint.
    + mrun. apply Hfin.
    + mrun. destruct Hname as [Hn|Hp].
      * destruct (processParsingError_named_ok "XEP number" (int_error L t)
                    (set_nr (PyStr t) (set_path p s)) Hn) as [s2 H2].
        rewrite H2. apply Hfin.
      * exfalso. unfold number_parses, element_text in Hp. rewrite He in Hp.
        simpl in Hp. fold t in Hp. rewrite Hint in Hp. discriminate.
Qed.

Lemma read_number_inbox (h : Node) (t : string) (s : XEP) :
  element_text "number" h = Some t ->
  in_inbox_or_template s = true -> is_xxxx t = false ->
  exists s' e,
    read_number L h s = Ok tt s' /\
    nr s' = PyStr (drop_last4 (file_part s)) /\
    parseErrors s' = (parseErrors s ++ [e])%list.
Proof.
  unfold element_text, in_inbox_or_template, file_part. intros Ht Hin Hx.
  destruct (first_element "number" h) as [e|] eqn:He; [|discriminate].
  simpl in Ht. injection Ht as Ht.
  unfold read_number. rewrite (bind_ok _ _ _ _ _ (item0_first _ _ _ s He)).
  unfold bind at 1. unfold get at 1.
  destruct (os_path_split (filename s)) as [p fle]. simpl in Hin |- *.
  rewrite Hin, Ht, Hx. simpl.
  unfold bind, modify, get. simpl. eexists; eexists. repeat split.
Qed.

Lemma read_majorVersion_ok (s : XEP) :
  nrFormatted s <> None -> exists s', read_majorVersion L s = Ok tt s'.
Proof.
  intros Hn. unfold read_majorVersion, try_except.
  destruct ((self <- get;; c <- item 0 (split "." (version self));; n <- int_ L c;;
             modify (set_majorVersion n)) s) as [[] s1|e s1] eqn:E; [eauto|].
  unfold bind at 1. unfold modify at 1.
  apply processParsingError_named_ok.
  assert (K : kept_after_revision s s1).
  { pose proof (read_majorVersion_kept L) as P.
    assert (preserves kept_after_revision
              (self <- get;; c <- item 0 (split "." (version self));; n <- int_ L c;;
               modify (set_majorVersion n))) as P' by parser_frame.
    specialize (P' s). now rewrite E in P'. }
  simpl. apply K. exact Hn.
Qed.

Lemma processParsingError_eq (d name : string) (e : Exn) (s : XEP) :
  __str__ s = Ok name s ->
  __processParsingError__ d e s =
  Ok tt (set_parseErrors (parseErrors s ++ [parsing_error d name (filename s) e]) s).
Proof.
  intros H. unfold __processParsingError__. rewrite (bind_ok _ _ _ _ _ H). reflexivity.
Qed.


(** The three outcomes of the minor version for a version text with a
    second component [c]. *)
Lemma read_minorVersion_dotted (s : XEP) (c0 c name : string) (rest : list string) :
  split "." (version s) = c0 :: c :: rest ->
  __str__ s = Ok name s ->
  read_minorVersion L s =
  match Py.int c with
  | Some n => Ok tt (set_minorVersion (PyInt n) s)
  | None =>
      if interim s then Ok tt (set_minorVersion (PyStr c) s)
      else Ok tt (set_parseErrors
                    (parseErrors s
                     ++ [parsing_error "major version" name (filename s) (int_error L c)])
                    (set_minorVersion (PyInt 0) s))
  end.
Proof.
  intros H Hstr. unfold read_minorVersion, try_except_ValueError, try_except.
  rewrite bind_get, H. cbn [item nth_error]. rewrite bind_ret.
  unfold int_. destruct (Py.int c) as [n|]; [reflexivity|].
  rewrite bind_raise. unfold int_error at 1. rewrite bind_get.
  destruct (interim s) eqn:Hi.
  - rewrite H. reflexivity.
  - rewrite bind_modify.
    rewrite (processParsingError_eq _ name _ (set_minorVersion (PyInt 0) s));
      [reflexivity|].
    revert Hstr. unfold __str__, bind, get. simpl.
    destruct (nrFormatted s) as [nf|]; [|discriminate].
    destruct (negb (truthy nf)); unfold ret; intros [= <-]; reflexivity.
Qed.

Lemma read_minorVersion_ok (s : XEP) :
  nrFormatted s <> None -> dotted (version s) = true ->
  exists s', read_minorVersion L s = Ok tt s'.
Proof.
  intros Hn Hd. unfold dotted in Hd.
  destruct (split "." (version s)) as [|c0 [|c rest]] eqn:E; try discriminate.
  destruct (str_named s Hn) as [name Hname].
  rewrite (read_minorVersion_dotted s c0 c name rest E Hname).
  destruct (Py.int c); [eauto|]. destruct (interim s); eauto.
Qed.

Lemma fold_depends (l : list Node) (acc : M XEP unit) (s s0 : XEP) :
  acc s = Ok tt s0 ->
  fold_left
    (fun acc dep =>
       bind acc (fun _ =>
         modify (fun self =>
                   set_depends (depends self ++ [__getText__ (childNodes dep)]) self)))
    l acc s
  = Ok tt (set_depends
             (depends s0 ++ map (fun dep => __getText__ (childNodes dep)) l) s0).
Proof.
  revert acc s0; induction l as [|d l IH]; intros acc s0 H; simpl.
  - rewrite H, app_nil_r. now destruct s0.
  - erewrite IH; [|rewrite (bind_ok _ _ _ _ _ H); reflexivity].
    simpl. now rewrite <- app_assoc.
Qed.

Lemma read_depends_ok (h : Node) (s : XEP) :
  read_depends h s = Ok tt (set_depends (spec_texts h) s).
Proof.
  unfold read_depends, spec_texts. rewrite bind_modify.
  destruct (getElementsByTagName "dependencies" h) as [|depNode _]; [reflexivity|].
  erewrite fold_depends; [|reflexivity]. reflexivity.
Qed.

Lemma fold_images_ok (l : list Node) (acc : M XEP unit) (s s0 : XEP) :
  acc s = Ok tt s0 -> forallb has_src l = true ->
  fold_left
    (fun acc img =>
       bind acc (fun _ =>
         match attribute "src" (attributes img) with
         | Some v => modify (fun self => set_images (images self ++ [v]) self)
         | None => raise (KeyError "src")
         end))
    l acc s
  = Ok tt (set_images
             (images s0
              ++ flat_map (fun img => match attribute "src" (attributes img) with
                                      | Some v => [v]
                                      | None => []
                                      end) l) s0).
Proof.
  revert acc s0; induction l as [|d l IH]; intros acc s0 H Hs; simpl.
  - rewrite H, app_nil_r. now destruct s0.
  - simpl in Hs. apply andb_prop in Hs. destruct Hs as [Hd Hl].
    unfold has_src in Hd. destruct (attribute "src" (attributes d)) as [v|] eqn:Ea;
      [|discriminate].
    erewrite IH; [| rewrite (bind_ok _ _ _ _ _ H); reflexivity | exact Hl].
    simpl. now rewrite <- app_assoc.
Qed.



Lemma read_images_ok (x : Node) (s : XEP) :
  forallb has_src (getElementsByTagName "img" x) = true ->
  read_images x s = Ok tt (set_images (image_sources x) s).
Proof.
  intros H. unfold read_images, image_sources. rewrite bind_modify.
  erewrite fold_images_ok; [| reflexivity | exact H]. reflexivity.
Qed.


End Steps.

(** ** The parser as a whole *)

Section WholeParser.

Variable L : Library.

Lemma kept_of_ok {R : XEP -> XEP -> Prop} (c : M XEP unit) (s s' : XEP) :
  preserves R c -> c s = Ok tt s' -> R s s'.
Proof. intros P H. specialize (P s). now rewrite H in P. Qed.

Lemma complete_header_present (h : Node) :
  complete_header h = true ->
  present "title" h = true /\ present "number" h = true /\
  present "abstract" h = true /\ present "status" h = true /\
  present "type" h = true.
Proof.
  unfold complete_header. intros H. apply andb_prop in H. destruct H as [H _].
  simpl in H. repeat (apply andb_prop in H; destruct H as [? H]). auto.
Qed.

(** The steps below the header return for a complete header with a dotted
    version, and leave the documented values. *)
Lemma read_header_ok (h : Node) (s : XEP) :
  complete_header h = true -> dotted_version h = true -> nameable s h ->
  exists s',
    read_header L h s = Ok tt s' /\
    kept_by_parser s s' /\
    formatted s' /\
    interim s' = interim_marked h /\
    depends s' = spec_texts h.
Proof.
  intros Hc Hd Hn.
  destruct (complete_header_present h Hc) as (Pt & Pn & Pa & Ps & Py).
  unfold dotted_version in Hd.
  destruct (version_text h) as [v|] eqn:Hv; [|discriminate].
  unfold read_header.
  destruct (read_title_ok h s Pt) as [s1 H1]. rewrite (bind_ok _ _ _ _ _ H1).
  pose proof (kept_of_ok _ _ _ (read_title_kept h) H1) as K1.
  assert (Hn1 : nameable s1 h).
  { destruct Hn as [Hn|Hn]; [left; apply K1; exact Hn | right; exact Hn]. }
  destruct (read_number_ok L h s1 Pn Hn1) as (s2 & H2 & F2).
  rewrite (bind_ok _ _ _ _ _ H2).
  pose proof (kept_of_ok _ _ _ (read_number_kept L h) H2) as K2.
  assert (N2 : nrFormatted s2 <> None) by (unfold formatted in F2; congruence).
  destruct (read_shortname_ok h s2) as [s3 H3]. rewrite (bind_ok _ _ _ _ _ H3).
  pose proof (kept_of_ok _ _ _ (read_shortname_kept h) H3) as K3.
  destruct (read_abstract_status_ok h s3 Pa Ps) as [s4 H4]. rewrite (bind_ok _ _ _ _ _ H4).
  pose proof (kept_of_ok _ _ _ (read_abstract_status_kept h) H4) as K4.
  assert (K24 : kept_after_number s2 s4) by (etransitivity; eassumption).
  assert (N4 : nrFormatted s4 <> None) by (apply K24; exact N2).
  destruct (read_lastcall_ok L h s4 N4) as [s5 H5]. rewrite (bind_ok _ _ _ _ _ H5).
  pose proof (kept_of_ok _ _ _ (read_lastcall_kept L h) H5) as K5.
  destruct (read_type_interim_ok h s5 Py) as (s6 & H6 & I6). rewrite (bind_ok _ _ _ _ _ H6).
  pose proof (kept_of_ok _ _ _ (read_type_interim_kept h) H6) as K6.
  assert (K26 : kept_after_number s2 s6) by (repeat (etransitivity; [eassumption|]); reflexivity).
  assert (N6 : nrFormatted s6 <> None) by (apply K26; exact N2).
  destruct (read_revision_ok L h v s6 N6 Hc Hv) as (s7 & H7 & V7).
  rewrite (bind_ok _ _ _ _ _ H7).
  pose proof (kept_of_ok _ _ _ (read_revision_kept L h) H7) as K7.
  assert (N7 : nrFormatted s7 <> None) by (apply K7; exact N6).
  destruct (read_majorVersion_ok L s7 N7) as [s8 H8]. rewrite (bind_ok _ _ _ _ _ H8).
  pose proof (kept_of_ok _ _ _ (read_majorVersion_kept L) H8) as K8.
  assert (N8 : nrFormatted s8 <> None) by (apply K8; exact N7).
  assert (V8 : dotted (version s8) = true).
  { destruct K8 as [_ E]. unfold same in E. rewrite E, V7. exact Hd. }
  destruct (read_minorVersion_ok L s8 N8 V8) as [s9 H9]. rewrite (bind_ok _ _ _ _ _ H9).
  pose proof (kept_of_ok _ _ _ (read_minorVersion_kept L) H9) as K9.
  rewrite read_depends_ok.
  pose proof (kept_of_ok _ _ _ (read_depends_kept h) (read_depends_ok h s9)) as K10.
  eexists. split; [reflexivity|].
  assert (K6' : kept_after_interim s6 (set_depends (spec_texts h) s9)).
  { etransitivity; [exact K7|]. etransitivity; [apply K8|].
    etransitivity; [apply K9|]. apply K10. }
  assert (K2' : kept_after_number s2 (set_depends (spec_texts h) s9)).
  { etransitivity; [exact K26|]. apply K6'. }
  split; [|split; [|split]].
  - etransitivity; [exact K1|]. etransitivity; [exact K2|]. apply K2'.
  - unfold formatted in *. destruct K2' as (_ & En & Ef). unfold same in *.
    rewrite Ef, En. exact F2.
  - destruct K6' as [_ Ei]. unfold same in Ei. rewrite Ei. exact I6.
  - reflexivity.
Qed.

(** [readXEP] returns for a text that parses into a well-formed tree, and
    leaves the documented values. *)
Lemma readXEP_ok (self : XEP) (doc : Document) (x h : Node) :
  parseString L (raw self) = Some doc ->
  xep_node doc = Some x -> first_element "header" x = Some h ->
  well_formed x h = true -> nameable self h ->
  exists self',
    readXEP L self = Ok tt self' /\
    kept_by_parser self self' /\
    formatted self' /\
    interim self' = interim_marked h /\
    depends self' = spec_texts h /\
    images self' = image_sources x.
Proof.
  intros Hp Hx Hh Hw Hn. unfold well_formed in Hw.
  apply andb_prop in Hw. destruct Hw as [Hw Hi].
  apply andb_prop in Hw. destruct Hw as [Hc Hd].
  unfold readXEP. rewrite bind_get, Hp. unfold read_document.
  rewrite bind_modify.
  assert (Ex : item 0 (Document_getElementsByTagName "xep" doc) (set_xep (Some doc) self)
               = Ok x (set_xep (Some doc) self)).
  { unfold xep_node in Hx. unfold item.
    destruct (Document_getElementsByTagName "xep" doc); simpl in *; [discriminate|].
    now injection Hx as ->. }
  rewrite (bind_ok _ _ _ _ _ Ex).
  rewrite (bind_ok _ _ _ _ _ (item0_first _ _ _ _ Hh)).
  destruct (read_header_ok h (set_xep (Some doc) self) Hc Hd Hn)
    as (s1 & H1 & K1 & F1 & I1 & D1).
  rewrite (bind_ok _ _ _ _ _ H1). rewrite (read_images_ok x s1 Hi).
  eexists. split; [reflexivity|].
  split; [exact K1|]. split; [exact F1|]. split; [exact I1|].
  split; [exact D1 | reflexivity].
Qed.

End WholeParser.

Section ParserClaims.

Variable L : Library.

(** The steps that follow the number keep [nr] and only add to
    [parseErrors], however they end. *)
Lemma after_number_kept (h x : Node) :
  preserves kept_after_number
    ((read_shortname h ;; read_abstract_status h ;; read_lastcall L h ;;
      read_type_interim h ;; read_revision L h ;; read_majorVersion L ;;
      read_minorVersion L ;; read_depends h) ;; read_images x).
Proof.
  assert (W1 : forall a b, kept_after_interim a b -> kept_after_number a b)
    by (intros a b K; apply K).
  assert (W2 : forall a b, kept_after_revision a b -> kept_after_number a b)
    by (intros a b K; apply K).
  assert (W3 : forall a b, kept_after_depends a b -> kept_after_number a b)
    by (intros a b K; apply K).
  apply preserves_bind; [typeclasses eauto | | intros _].
  - apply preserves_bind; [typeclasses eauto | apply read_shortname_kept | intros _].
    apply preserves_bind; [typeclasses eauto | apply read_abstract_status_kept | intros _].
    apply preserves_bind; [typeclasses eauto | apply read_lastcall_kept | intros _].
    apply preserves_bind; [typeclasses eauto | apply read_type_interim_kept | intros _].
    apply preserves_bind;
      [typeclasses eauto | exact (preserves_weaken _ _ _ W1 (read_revision_kept L h))
      | intros _].
    apply preserves_bind;
      [typeclasses eauto | exact (preserves_weaken _ _ _ W2 (read_majorVersion_kept L))
      | intros _].
    apply preserves_bind;
      [typeclasses eauto | exact (preserves_weaken _ _ _ W2 (read_minorVersion_kept L))
      | intros _].
    exact (preserves_weaken _ _ _ W2 (read_depends_kept h)).
  - exact (preserves_weaken _ _ _ W3 (read_images_kept x)).
Qed.

(** C6 (amended): for a document whose parent directory is named inbox, or
    whose file is xep-template.xml, and whose number text is neither xxxx
    nor XXXX, the parser leaves a non-empty [parseErrors] and sets [nr] to
    the file name without its last four characters, however the later
    steps end; for a file name that ends in .xml that is the name without
    the extension. *)
Theorem inbox_number_is_file_name_cut (self : XEP) (doc : Document) (x h : Node)
    (t : string) :
  parseString L (raw self) = Some doc ->
  xep_node doc = Some x -> first_element "header" x = Some h ->
  present "title" h = true -> element_text "number" h = Some t ->
  in_inbox_or_template self = true -> is_xxxx t = false ->
  let self' := final (readXEP L self) in
  parseErrors self' <> [] /\
  nr self' = PyStr (drop_last4 (file_part self)) /\
  (forall base, file_part self = base ++ ".xml" -> nr self' = PyStr base).
Proof.
  intros Hp Hx Hh Pt Ht Hin Hxx.
  assert (G : parseErrors (final (readXEP L self)) <> [] /\
              nr (final (readXEP L self)) = PyStr (drop_last4 (file_part self))).
  { unfold readXEP. rewrite bind_get, Hp. unfold read_document. rewrite bind_modify.
    assert (Ex : item 0 (Document_getElementsByTagName "xep" doc) (set_xep (Some doc) self)
                 = Ok x (set_xep (Some doc) self)).
    { unfold xep_node in Hx. unfold item.
      destruct (Document_getElementsByTagName "xep" doc); simpl in *; [discriminate|].
      now injection Hx as ->. }
    rewrite (bind_ok _ _ _ _ _ Ex).
    rewrite (bind_ok _ _ _ _ _ (item0_first _ _ _ _ Hh)).
    unfold read_header. rewrite bind_assoc.
    destruct (read_title_ok h (set_xep (Some doc) self) Pt) as [s1 H1].
    rewrite (bind_ok _ _ _ _ _ H1). rewrite bind_assoc.
    pose proof (kept_of_ok _ _ _ (read_title_kept h) H1) as K1.
    assert (Hin1 : in_inbox_or_template s1 = true).
    { destruct K1 as (Kc & _). unfold same, config in Kc.
      unfold in_inbox_or_template, file_part in *.
      replace (filename s1) with (filename self) by (simpl in Kc; congruence).
      exact Hin. }
    destruct (read_number_inbox L h t s1 Ht Hin1 Hxx) as (s2 & e & H2 & N2 & E2).
    rewrite (bind_ok _ _ _ _ _ H2).
    pose proof (after_number_kept h x s2) as K.
    destruct K as ((_ & (extra & Kg) & _) & Kn & _).
    unfold same in Kn. split.
    - rewrite Kg, E2. destruct (parseErrors s1); discriminate.
    - rewrite Kn, N2. destruct K1 as (Kc & _). unfold same, config in Kc.
      unfold file_part. simpl in Kc. congruence. }
  destruct G as [G1 G2]. split; [exact G1|]. split; [exact G2|].
  intros base Hb. rewrite G2, Hb. now rewrite drop_last4_xml.
Qed.

End ParserClaims.

Section Formatting.

Variable L : Library.

(** Whenever the number step returns, [nrFormatted] follows the
    formatting rule. *)
Lemma read_number_formats (h : Node) (s s' : XEP) :
  read_number L h s = Ok tt s' -> formatted s'.
Proof.
  unfold read_number. intros H.
  apply bind_ok_inv in H. destruct H as (e & s0 & _ & H).
  rewrite bind_get in H. destruct (os_path_split (filename s0)) as [p fle].
  rewrite bind_modify in H.
  apply bind_ok_inv in H. destruct H as ([] & s1 & _ & H).
  rewrite bind_get in H. unfold formatted.
  destruct (nr s1) eqn:E; injection H as <-; simpl; now rewrite E.
Qed.

(** Whenever the parser returns, [nrFormatted] follows the formatting
    rule: integers are padded to four digits, texts are kept. *)
Lemma readXEP_formats_number (self self' : XEP) :
  readXEP L self = Ok tt self' -> formatted self'.
Proof.
  unfold readXEP. rewrite bind_get.
  destruct (parseString L (raw self)) as [doc|]; [|discriminate].
  unfold read_document. rewrite bind_modify. intros H.
  apply bind_ok_inv in H. destruct H as (x & s0 & _ & H).
  apply bind_ok_inv in H. destruct H as (h & s1 & _ & H).
  unfold read_header in H. rewrite bind_assoc in H.
  apply bind_ok_inv in H. destruct H as ([] & s2 & _ & H).
  rewrite bind_assoc in H.
  apply bind_ok_inv in H. destruct H as ([] & s3 & Hn & H).
  apply read_number_formats in Hn.
  pose proof (after_number_kept L h x s3) as K. rewrite H in K. cbn [final] in K.
  destruct K as (_ & Kn & Kf). unfold same in Kn, Kf. unfold formatted in *.
  now rewrite Kf, Kn.
Qed.

End Formatting.

(** ** The version fields (C1, C2) *)

(** C1: on a first parse of a document whose version text is 1, without a
    dot, [readXEP] does not complete: the minor version raises
    [IndexError], no diagnostic is recorded and no default is set. *)
Theorem readXEP_raises_on_version_without_dot :
  exists self',
    Fixture.parsed "/repo/xep-0001.xml" None Fixture.doc_undotted
    = Raise IndexError self' /\
    version self' = "1" /\ majorVersion self' = 1 /\ parseErrors self' = [].
Proof. eexists. split; [vm_compute; reflexivity|]. repeat split. Qed.

(** C2: on a first parse of a document that is not interim and whose
    version text is 1.x, the minor version is set to 0 and one diagnostic
    is recorded, and that diagnostic names the major version. *)
Theorem minor_version_error_names_major_version :
  exists self' entry,
    Fixture.parsed "/repo/xep-0001.xml" None Fixture.doc_minor_x = Ok tt self' /\
    majorVersion self' = 1 /\ minorVersion self' = PyInt 0 /\
    parseErrors self' = [entry] /\
    entry = parsing_error "major version" "XEP-0001" "/repo/xep-0001.xml"
              (int_error Fixture.lib "x") /\
    String.prefix "Invalid value for major version while parsing XEP-0001" entry = true.
Proof.
  eexists. eexists. split; [vm_compute; reflexivity|].
  split; [reflexivity|]. split; [reflexivity|]. split; [reflexivity|].
  split; reflexivity.
Qed.

(** ** Dependencies (C8) *)



Section MoreParserClaims.

Variable L : Library.



End MoreParserClaims.

(** ** The parser claims on the sample documents *)

Lemma inbox_number_is_file_name_cut_witness :
  let self := Fixture.unparsed "/repo/inbox/proto.xml" None Fixture.doc_plain in
  let self' := final (readXEP Fixture.lib self) in
  parseErrors self' <> [] /\
  nr self' = PyStr (drop_last4 (file_part self)) /\
  (forall base, file_part self = base ++ ".xml" -> nr self' = PyStr base).
Proof.
  apply (inbox_number_is_file_name_cut Fixture.lib
           (Fixture.unparsed "/repo/inbox/proto.xml" None Fixture.doc_plain)
           Fixture.doc_plain (Fixture.xep_of Fixture.doc_plain)
           (Fixture.header_of Fixture.doc_plain) "0001");
    vm_compute; reflexivity.
Defined.

(** C6, as stated, fails for a file of the inbox whose extension is not
    three characters long: the number is the file name cut by four
    characters, not the stem. *)
Lemma inbox_number_is_not_the_stem :
  let self := Fixture.unparsed "/repo/inbox/draft.xhtml" None Fixture.doc_plain in
  let self' := final (readXEP Fixture.lib self) in
  in_inbox_or_template self = true /\
  parseErrors self' <> [] /\
  nr self' = PyStr "draft.x" /\
  stem (file_part self) = "draft" /\
  nr self' <> PyStr (stem (file_part self)).
Proof. vm_compute. repeat split; discriminate. Qed.




Example images_in_document_order :
  images (final (Fixture.parsed "/repo/xep-0045.xml" None Fixture.doc_images))
  = ["a.png"; "b.png"].
Proof. reflexivity. Qed.

Example missing_src_raises_KeyError :
  exists self',
    Fixture.parsed "/repo/xep-0045.xml" None Fixture.doc_image_without_src
    = Raise (KeyError "src") self' /\ parseErrors self' = [].
Proof. eexists. split; [vm_compute; reflexivity | reflexivity]. Qed.

Example no_dependencies_block :
  depends (final (Fixture.parsed "/repo/xep-0045.xml" None Fixture.doc_no_deps)) = [].
Proof. reflexivity. Qed.

(** A first parse of a number that is no integer fails inside the
    diagnostic: [__str__] reads [nrFormatted] before it is assigned. *)
Example first_parse_of_bad_number :
  exists self',
    Fixture.parsed "/repo/xep-0001.xml" None Fixture.doc_bad_number
    = Raise (AttributeError "nrFormatted") self' /\ parseErrors self' = [].
Proof. eexists. split; [vm_compute; reflexivity | reflexivity]. Qed.

(** ** The text patcher on the file (C3) *)

Lemma lookup_store_same (name text : string) (fs : list (string * string)) :
  lookup_file name (store_file name text fs) = Some text.
Proof.
  induction fs as [|[k v] fs IH]; simpl.
  - now rewrite String.eqb_refl.
  - destruct (String.eqb k name) eqn:E; simpl; now rewrite E.
Qed.

Lemma lookup_store_other (name other text : string) (fs : list (string * string)) :
  other <> name ->
  lookup_file other (store_file name text fs) = lookup_file other fs.
Proof.
  intros Hne. induction fs as [|[k v] fs IH]; simpl.
  - destruct (String.eqb_spec name other); [congruence | reflexivity].
  - destruct (String.eqb_spec k name) as [->|Hk]; simpl.
    + destruct (String.eqb_spec name other); [congruence | reflexivity].
    + now rewrite IH.
Qed.

Lemma replaceElementText_run (elementname text : string) (self : XEP) (w : World)
    (s : string) :
  lookup_file (filename self) (files w) = Some s ->
  replaceElementText elementname text (self, w) =
  Ok tt (self,
         set_trace
           (trace w ++ [Call "replaceElementText"]
            ++ [FileWrite (filename self) (Re.replace_text elementname text s)])
           (set_files
              (store_file (filename self) (Re.replace_text elementname text s) (files w))
              w)).
Proof.
  intros H. unfold replaceElementText, emit, on_world, read_file, write_file, emit, on_world.
  mrun. cbn [fst snd set_trace files trace]. rewrite H. mrun.
  unfold modify, set_trace, set_files. cbn. now rewrite <- app_assoc.
Qed.

(** C3 (amended): for an element name without pattern characters and an
    alphanumeric replacement, [replaceElementText] rewrites the file so
    that the leftmost match of the pattern, that is the first occurrence of
    the element whose content is purely alphanumeric, has the new content;
    every character before and after that content is kept, a later
    occurrence is not touched, a text without a match and every other file
    stay as they are. *)
Theorem replaceElementText_rewrites_leftmost_match (elementname text : string)
    (self : XEP) (w : World) (s : string) :
  Re.literal elementname = true -> all_chars Re.in_class text = true ->
  lookup_file (filename self) (files w) = Some s ->
  exists w',
    replaceElementText elementname text (self, w) = Ok tt (self, w') /\
    lookup_file (filename self) (files w')
    = Some (Re.replace_text elementname text s) /\
    (forall other, other <> filename self ->
                   lookup_file other (files w') = lookup_file other (files w)) /\
    ((no_match elementname s /\ Re.replace_text elementname text s = s) \/
     leftmost_match_replaced elementname text s (Re.replace_text elementname text s)).
Proof.
  intros _ _ H. eexists. split; [apply (replaceElementText_run _ _ _ _ _ H)|].
  cbn [files set_trace set_files]. split; [apply lookup_store_same|].
  split; [intros other Hne; now apply lookup_store_other|].
  apply replace_text_spec.
Qed.

Lemma replaceElementText_rewrites_leftmost_match_witness :
  let self := Fixture.unparsed "/repo/xep-0001.xml" None Fixture.doc_plain in
  let w := Fixture.world "/repo/xep-0001.xml"
             "<status>Active</status><status>Active</status>" EmptyString EmptyString [] in
  exists w',
    replaceElementText "status" "Deferred" (self, w) = Ok tt (self, w') /\
    lookup_file "/repo/xep-0001.xml" (files w')
    = Some "<status>Deferred</status><status>Active</status>".
Proof.
  destruct (replaceElementText_rewrites_leftmost_match "status" "Deferred"
              (Fixture.unparsed "/repo/xep-0001.xml" None Fixture.doc_plain)
              (Fixture.world "/repo/xep-0001.xml"
                 "<status>Active</status><status>Active</status>" EmptyString EmptyString [])
              "<status>Active</status><status>Active</status>"
              eq_refl eq_refl eq_refl) as (w' & H & F & _).
  exists w'. split; [exact H | exact F].
Defined.

(** C3, as stated, fails when the first occurrence of the element has a
    content that is not alphanumeric: that occurrence is skipped and the
    second one is rewritten. *)
Lemma replaceElementText_skips_first_occurrence :
  let s := "<status>In Progress</status><status>Active</status>" in
  Re.replace_text "status" "Deferred" s
  = "<status>In Progress</status><status>Deferred</status>" /\
  Re.replace_first_occurrence "status" "Deferred" s
  = "<status>Deferred</status><status>Active</status>" /\
  Re.replace_text "status" "Deferred" s
  <> Re.replace_first_occurrence "status" "Deferred" s.
Proof. vm_compute. repeat split. discriminate. Qed.

Example patch_status_of_sample :
  Re.replace_text "status" "Deferred" (Fixture.document_xml Fixture.doc_plain)
  = Fixture.document_xml Fixture.doc_deferred.
Proof. reflexivity. Qed.

(** ** The history resolver (C4, C5) *)

Lemma on_self_ok {A} (c : M XEP A) (x x' : XEP) (w : World) (a : A) :
  c x = Ok a x' -> on_self c (x, w) = Ok a (x', w).
Proof. unfold on_self. cbn [fst snd]. now intros ->. Qed.

Lemma emit_run (e : Event) (x : XEP) (w : World) :
  emit e (x, w) = Ok tt (x, set_trace (trace w ++ [e]) w).
Proof. reflexivity. Qed.

Lemma add_buildError_run (e : string) (x : XEP) (w : World) :
  add_buildError e (x, w) = Ok tt (warned [e] x, w).
Proof. reflexivity. Qed.



Lemma str_warned (ws : list string) (x : XEP) (name : string) :
  __str__ x = Ok name x -> __str__ (warned ws x) = Ok name (warned ws x).
Proof.
  unfold __str__. rewrite !bind_get. cbn.
  destruct (nrFormatted x) as [nf|]; [|discriminate].
  destruct (negb (truthy nf)); unfold ret; intros [= <-]; reflexivity.
Qed.

Section Resolver.

Variable L : Library.

(** A record that is not interim is left alone. *)
Lemma revertInterim_not_interim (self : XEP) (w : World) :
  interim self = false -> revertInterim L (self, w) = Ok tt (self, w).
Proof. intros H. unfold revertInterim. rewrite bind_get. cbn [fst]. now rewrite H. Qed.

(** Outside a git working tree one warning is recorded. *)
Lemma revertInterim_outside_git (self : XEP) (w : World) :
  interim self = true -> given (gittoplevel self) = false ->
  revertInterim L (self, w) =
  Ok tt (warned ["WARNING: {0} is not in a git repository, will be using interim XEPs"]
                self, w).
Proof.
  intros Hi Hg. unfold revertInterim. rewrite bind_get. cbn [fst]. now rewrite Hi, Hg.
Qed.

(** A log that cannot be read ends the call with one warning. *)
Lemma revertInterim_log_error (self : XEP) (w : World) (name out error : string) :
  interim self = true -> given (gittoplevel self) = true ->
  __str__ self = Ok name self ->
  git_log w (toplevel self) (relpath L (filename self) (toplevel self)) = (out, error) ->
  truthy error = true ->
  revertInterim L (self, w) =
  Ok tt (warned ["WARNING: error reading git log, not reversing interim XEP "
                 ++ name ++ ": " ++ error] self,
         set_trace
           (trace w ++ [GitLog (toplevel self)
                               (relpath L (filename self) (toplevel self))]) w).
Proof.
  intros Hi Hg Hs Hlog He. unfold revertInterim. rewrite bind_get. cbn [fst snd].
  rewrite Hi, Hg. cbn [negb]. rewrite (bind_ok _ _ _ _ _ (emit_run _ _ _)).
  rewrite Hlog, He. rewrite (bind_ok _ _ _ _ _ (on_self_ok _ _ _ _ _ Hs)).
  apply add_buildError_run.
Qed.

(** A blob that cannot be read ends the walk with one warning; the record
    keeps what the last parse gave it. *)
Lemma revert_loop_blob_error (self : XEP) (w : World) (top gitref c name out error : string)
    (rest : list string) :
  interim self = true -> __str__ self = Ok name self ->
  git_show w top (c ++ ":" ++ gitref) = (out, error) -> truthy error = true ->
  revert_loop L top gitref (c :: rest) (self, w) =
  Ok tt (warned ["WARNING: error reading git blob, not reversing interim XEP "
                 ++ name ++ ": " ++ error] self,
         set_trace (trace w ++ [GitShow top (c ++ ":" ++ gitref)]) w).
Proof.
  intros Hi Hs Hshow He. cbn [revert_loop]. rewrite bind_get. cbn [fst snd]. rewrite Hi.
  rewrite (bind_ok _ _ _ _ _ (emit_run _ _ _)). rewrite Hshow, He.
  rewrite (bind_ok _ _ _ _ _ (on_self_ok _ _ _ _ _ Hs)).
  apply add_buildError_run.
Qed.

(** One round of the loop: the blob of the commit is fetched and parsed
    into the record. *)
Lemma revert_loop_round (top gitref c blob : string) (marked : bool)
    (rest : list string) (self : XEP) (w : World) :
  interim self = true -> nrFormatted self <> None ->
  blob_parses L w top gitref c marked blob ->
  exists self1,
    readXEP L (set_raw blob self) = Ok tt self1 /\
    interim self1 = marked /\ nrFormatted self1 <> None /\
    same config (set_raw blob self) self1 /\
    revert_loop L top gitref (c :: rest) (self, w)
    = revert_loop L top gitref rest
        (self1, set_trace (trace w ++ [GitShow top (c ++ ":" ++ gitref)]) w).
Proof.
  intros Hi Hn (doc & x & h & Hshow & Hp & Hx & Hh & Hw & Hm).
  destruct (readXEP_ok L (set_raw blob self) doc x h Hp Hx Hh Hw (or_introl Hn))
    as (self1 & H1 & (Kc & _ & _) & F1 & I1 & _).
  exists self1. split; [exact H1|]. split; [now rewrite I1|].
  split; [unfold formatted in F1; congruence|]. split; [exact Kc|].
  cbn [revert_loop]. rewrite bind_get. cbn [fst snd]. rewrite Hi.
  rewrite (bind_ok _ _ _ _ _ (emit_run _ _ _)). rewrite Hshow. cbn [truthy].
  rewrite (bind_ok _ _ _ _ _ (on_self_ok (modify (set_raw blob)) self _ _ tt eq_refl)).
  rewrite (bind_ok _ _ _ _ _ (on_self_ok (readXEP L) _ _ _ tt H1)).
  reflexivity.
Qed.

Lemma blob_parses_same_git (w w0 : World) (top gitref c blob : string) (marked : bool) :
  git_show w = git_show w0 ->
  blob_parses L w0 top gitref c marked blob -> blob_parses L w top gitref c marked blob.
Proof.
  intros E (doc & x & h & H). exists doc, x, h. now rewrite E.
Qed.



End Resolver.



(** C5: when every commit of the log is interim the loop runs past the end
    of the log: [revertInterim] raises [IndexError] and records no
    warning. *)
Theorem revertInterim_raises_when_log_is_exhausted :
  let self := final (Fixture.parsed "/repo/xep-0001.xml" (Some "/repo") Fixture.doc_rc3) in
  exists self' w',
    revertInterim Fixture.lib (self, Fixture.interim_history)
    = Raise IndexError (self', w') /\
    interim self' = true /\ buildErrors self' = [] /\
    trace w' =
      [GitLog "/repo" "xep-0001.xml"; GitShow "/repo" "c1:xep-0001.xml";
       GitShow "/repo" "c2:xep-0001.xml"].
Proof. eexists. eexists. split; [vm_compute; reflexivity|]. repeat split. Qed.

Section Exhausted.

Variable L : Library.

(** However long the log is, a history without a release ends in
    [IndexError]. *)
Lemma revert_loop_exhausts (top gitref : string) (w0 : World) (rest : list string) :
  Forall (fun c => exists blob, blob_parses L w0 top gitref c true blob) rest ->
  forall self w,
    interim self = true -> nrFormatted self <> None -> git_show w = git_show w0 ->
    exists self' w',
      revert_loop L top gitref rest (self, w) = Raise IndexError (self', w') /\
      buildErrors self' = buildErrors self.
Proof.
  intros Hrest. induction Hrest as [|c rest [blob Hc] _ IH]; intros self w Hi Hn Hg.
  - exists self, w. cbn [revert_loop]. rewrite bind_get. cbn [fst]. rewrite Hi.
    split; reflexivity.
  - destruct (revert_loop_round L top gitref c blob true rest self w Hi Hn
                (blob_parses_same_git L _ _ _ _ _ _ _ Hg Hc))
      as (self1 & _ & I1 & N1 & Kc & Hrun).
    destruct (IH self1 (set_trace (trace w ++ [GitShow top (c ++ ":" ++ gitref)]) w)
                I1 N1 Hg) as (self' & w' & H & B').
    exists self', w'. rewrite Hrun. split; [exact H|].
    unfold same, config in Kc. cbn in Kc. congruence.
Qed.

End Exhausted.

(** ** The defer workflow (C7) *)

Section Defer.

Variable L : Library.









End Defer.


Example defer_in_a_clean_tree :
  let self := final (Fixture.parsed "/repo/xep-0001.xml" (Some "/repo") Fixture.doc_plain) in
  exists self' w',
    defer Fixture.lib (self, Fixture.clean_tree) = Ok tt (self', w') /\
    status self' = "Deferred" /\ buildErrors self' = [] /\
    trace w' =
      [Call "isGitClean"; GitStatus "/repo" "xep-0001.xml";
       Call "setDeferred"; Call "replaceElementText";
       FileWrite "/repo/xep-0001.xml" (Fixture.document_xml Fixture.doc_deferred);
       Call "buildXHTML"; BuildXHTML self' None None;
       Call "buildPDF"; BuildPDF self' None None None;
       Call "archive";
       Call "gitCommit"; GitCommit "/repo" "xep-0001.xml" "Deferring XEP-0001"].
Proof. eexists. eexists. split; [vm_compute; reflexivity|]. repeat split. Qed.

Example defer_in_a_dirty_tree :
  let self := final (Fixture.parsed "/repo/xep-0001.xml" (Some "/repo") Fixture.doc_plain) in
  exists self' w',
    defer Fixture.lib (self, Fixture.dirty_tree) = Ok tt (self', w') /\
    status self' = "Deferred" /\
    buildErrors self' =
      ["WARNING: XEP-0001 has uncommitted changes, will not commit change to deferred."] /\
    trace w' =
      [Call "isGitClean"; GitStatus "/repo" "xep-0001.xml";
       Call "setDeferred"; Call "replaceElementText";
       FileWrite "/repo/xep-0001.xml" (Fixture.document_xml Fixture.doc_deferred);
       Call "buildXHTML"; BuildXHTML self' None None;
       Call "buildPDF"; BuildPDF self' None None None;
       Call "archive"].
Proof. eexists. eexists. split; [vm_compute; reflexivity|]. repeat split. Qed.

Example defer_outside_git :
  let self := final (Fixture.parsed "/repo/xep-0001.xml" None Fixture.doc_plain) in
  exists self' w',
    defer Fixture.lib (self, Fixture.clean_tree) = Ok tt (self', w') /\
    buildErrors self' =
      ["WARNING: XEP-0001 is not in a git repository, will not commit change to deferred."] /\
    existsb (fun e => match e with GitCommit _ _ _ => true | _ => false end) (trace w')
    = false.
Proof. eexists. eexists. split; [vm_compute; reflexivity|]. repeat split. Qed.

(** The constructor runs the first parse on the text of the file. *)
Example constructor_parses_the_file :
  exists self' w',
    __init__ Fixture.lib "/repo/xep-0001.xml" None None None
      (new_XEP, Fixture.clean_tree) = Ok tt (self', w') /\
    Ok tt self' = Fixture.parsed "/repo/xep-0001.xml" (Some "/repo") Fixture.doc_plain.
Proof. eexists. eexists. split; [vm_compute; reflexivity|]. vm_compute. reflexivity. Qed.

(** * Further properties of the module *)

(** ** What the parser never touches *)

Section ParserKeeps.

Variable L : Library.

Lemma read_header_kept (h : Node) : preserves kept_by_parser (read_header L h).
Proof.
  assert (W1 : forall a b, kept_after_number a b -> kept_by_parser a b)
    by (intros a b K; apply K).
  assert (W2 : forall a b, kept_after_interim a b -> kept_by_parser a b)
    by (intros a b K; apply K).
  assert (W3 : forall a b, kept_after_revision a b -> kept_by_parser a b)
    by (intros a b K; apply K).
  unfold read_header.
  apply preserves_bind; [typeclasses eauto | apply read_title_kept | intros _].
  apply preserves_bind; [typeclasses eauto | apply read_number_kept | intros _].
  apply preserves_bind;
    [typeclasses eauto | exact (preserves_weaken _ _ _ W1 (read_shortname_kept h))
    | intros _].
  apply preserves_bind;
    [typeclasses eauto | exact (preserves_weaken _ _ _ W1 (read_abstract_status_kept h))
    | intros _].
  apply preserves_bind;
    [typeclasses eauto | exact (preserves_weaken _ _ _ W1 (read_lastcall_kept L h))
    | intros _].
  apply preserves_bind;
    [typeclasses eauto | exact (preserves_weaken _ _ _ W1 (read_type_interim_kept h))
    | intros _].
  apply preserves_bind;
    [typeclasses eauto | exact (preserves_weaken _ _ _ W2 (read_revision_kept L h))
    | intros _].
  apply preserves_bind;
    [typeclasses eauto | exact (preserves_weaken _ _ _ W3 (read_majorVersion_kept L))
    | intros _].
  apply preserves_bind;
    [typeclasses eauto | exact (preserves_weaken _ _ _ W3 (read_minorVersion_kept L))
    | intros _].
  exact (preserves_weaken _ _ _ W3 (read_depends_kept h)).
Qed.

Lemma readXEP_kept : preserves kept_by_parser (readXEP L).
Proof.
  assert (W : forall a b, kept_after_depends a b -> kept_by_parser a b)
    by (intros a b K; apply K).
  unfold readXEP.
  apply preserves_bind; [typeclasses eauto | apply preserves_get; typeclasses eauto |].
  intros self. destruct (parseString L (raw self)) as [doc|];
    [|apply preserves_raise; typeclasses eauto].
  unfold read_document.
  apply preserves_bind; [typeclasses eauto | apply preserves_modify; kept_assign |].
  intros _. apply preserves_bind; [typeclasses eauto | apply preserves_item; typeclasses eauto |].
  intros x. apply preserves_bind; [typeclasses eauto | apply preserves_item; typeclasses eauto |].
  intros h. apply preserves_bind; [typeclasses eauto | apply read_header_kept | intros _].
  exact (preserves_weaken _ _ _ W (read_images_kept x)).
Qed.

(** X1: however [readXEP] ends, normally or with an exception, it has not
    changed the file name, the configured paths, the git top level, the
    raw text or [buildErrors], and [parseErrors] has only gained entries
    at its end: entries of an earlier parse are never removed. *)
Theorem readXEP_only_appends_diagnostics (self : XEP) :
  let self' := final (readXEP L self) in
  filename self' = filename self /\
  xslpath self' = xslpath self /\ imagespath self' = imagespath self /\
  gittoplevel self' = gittoplevel self /\ outpath self' = outpath self /\
  buildErrors self' = buildErrors self /\ raw self' = raw self /\
  exists added, parseErrors self' = (parseErrors self ++ added)%list.
Proof.
  destruct (readXEP_kept self) as (Kc & Kg & _).
  unfold same, config in Kc. injection Kc as E1 E2 E3 E4 E5 E6 E7.
  cbv zeta. repeat (split; [assumption|]). exact Kg.
Qed.

End ParserKeeps.

(** ** Text of a node list *)

Lemma getText_from (acc : string) (l : list Node) :
  fold_left
    (fun thisText node =>
       match node with
       | TextNode d => thisText ++ d
       | _ => thisText
       end) l acc
  = acc ++ __getText__ l.
Proof.
  unfold __getText__. revert acc. induction l as [|n l IH]; intros acc; simpl.
  - now rewrite append_nil_r.
  - destruct n as [t a cs|d|d]; rewrite IH; [reflexivity| |reflexivity].
    rewrite (IH d). now rewrite append_assoc.
Qed.

(** X2: [__getText__] is the concatenation, in order, of the data of the
    text nodes of the list: it distributes over the concatenation of node
    lists, a text node contributes its data, and an element (with
    whatever it contains) or another kind of node contributes nothing. *)
Theorem getText_concatenates_text_nodes (l1 l2 : list Node) :
  __getText__ (l1 ++ l2) = __getText__ l1 ++ __getText__ l2 /\
  (forall d, __getText__ (TextNode d :: l2) = d ++ __getText__ l2) /\
  (forall t a cs, __getText__ (Element t a cs :: l2) = __getText__ l2) /\
  (forall d, __getText__ (OtherNode d :: l2) = __getText__ l2).
Proof.
  split; [|split; [|split]].
  - unfold __getText__ at 1. rewrite fold_left_app. fold (__getText__ l1).
    apply getText_from.
  - intros d. unfold __getText__ at 1. simpl. apply getText_from.
  - reflexivity.
  - reflexivity.
Qed.

(** ** The order of records *)

Lemma lt_named (a b : XEP) :
  nrFormatted a <> None -> nrFormatted b <> None ->
  exists na nb,
    __str__ a = Ok na a /\ __str__ b = Ok nb b /\
    __lt__ b a = Ok (String.ltb na nb) a.
Proof.
  intros Ha Hb. destruct (str_named a Ha) as [na Hna].
  destruct (str_named b Hb) as [nb Hnb]. exists na, nb.
  split; [exact Hna|]. split; [exact Hnb|].
  unfold __lt__. rewrite (bind_ok _ _ _ _ _ Hna). now rewrite Hnb.
Qed.

Lemma str_deterministic (a : XEP) (n m : string) :
  __str__ a = Ok n a -> __str__ a = Ok m a -> n = m.
Proof. intros H1 H2. rewrite H1 in H2. now injection H2. Qed.

(** X3: on records whose [nrFormatted] is assigned, [__lt__] never raises
    and is a strict order: no record is less than itself, the comparison
    is asymmetric, and it is transitive. *)
Theorem lt_is_a_strict_order (a b c : XEP) :
  nrFormatted a <> None -> nrFormatted b <> None -> nrFormatted c <> None ->
  __lt__ a a = Ok false a /\
  (__lt__ b a = Ok true a -> __lt__ a b = Ok false b) /\
  (__lt__ b a = Ok true a -> __lt__ c b = Ok true b -> __lt__ c a = Ok true a).
Proof.
  intros Ha Hb Hc.
  destruct (lt_named a a Ha Ha) as (n1 & n2 & H1 & H2 & Haa).
  pose proof (str_deterministic _ _ _ H1 H2) as <-.
  destruct (lt_named a b Ha Hb) as (na & nb & Hna & Hnb & Hab).
  destruct (lt_named b a Hb Ha) as (nb' & na' & Hnb' & Hna' & Hba).
  destruct (lt_named b c Hb Hc) as (nb'' & nc & Hnb'' & Hnc & Hbc).
  destruct (lt_named a c Ha Hc) as (na'' & nc' & Hna'' & Hnc' & Hac).
  pose proof (str_deterministic _ _ _ Hnb Hnb') as <-.
  pose proof (str_deterministic _ _ _ Hna Hna') as <-.
  pose proof (str_deterministic _ _ _ Hnb Hnb'') as <-.
  pose proof (str_deterministic _ _ _ Hna Hna'') as <-.
  pose proof (str_deterministic _ _ _ Hnc Hnc') as <-.
  pose proof (str_deterministic _ _ _ H1 Hna) as ->.
  split; [|split].
  - rewrite Haa. unfold String.ltb. now rewrite compare_refl.
  - rewrite Hab, Hba. unfold String.ltb. rewrite (String.compare_antisym nb na).
    destruct (String.compare na nb); simpl; intros E; try discriminate E; reflexivity.
  - rewrite Hab, Hbc, Hac. unfold String.ltb.
    destruct (String.compare na nb) eqn:E1; intros E; try discriminate E.
    destruct (String.compare nb nc) eqn:E2; intros E'; try discriminate E'.
    now rewrite (compare_lt_trans _ _ _ E1 E2).
Qed.

Lemma lt_is_a_strict_order_witness :
  let a := final (Fixture.parsed "/repo/xep-0001.xml" None Fixture.doc_plain) in
  let b := final (Fixture.parsed "/repo/xep-0045.xml" None Fixture.doc_0045) in
  let c := final (Fixture.parsed "/repo/inbox/proto.xml" None Fixture.doc_plain) in
  __lt__ a a = Ok false a /\
  (__lt__ b a = Ok true a -> __lt__ a b = Ok false b) /\
  (__lt__ b a = Ok true a -> __lt__ c b = Ok true b -> __lt__ c a = Ok true a).
Proof.
  apply lt_is_a_strict_order; vm_compute; discriminate.
Defined.

(** ** Printing and reading integers *)

Lemma digits_value_acc (d : Decimal.uint) (p : positive) :
  digits_value (Z.pos p) (NilEmpty.string_of_uint d) = Z.pos (Pos.of_uint_acc d p).
Proof.
  revert p; induction d; intros p; cbn [NilEmpty.string_of_uint digits_value Pos.of_uint_acc];
    [reflexivity|..];
    match goal with
    | |- digits_value ?a _ = Z.pos (Pos.of_uint_acc _ ?q) =>
        replace a with (Z.pos q)
          by (match goal with
              | |- context [digit_value ?c] =>
                  let v := eval vm_compute in (digit_value c) in
                  change (digit_value c) with v
              end; lia)
    end; apply IHd.
Qed.

Lemma digits_value_uint (d : Decimal.uint) :
  digits_value 0 (NilEmpty.string_of_uint d) = Z.of_N (Pos.of_uint d).
Proof.
  induction d; cbn [NilEmpty.string_of_uint digits_value Pos.of_uint];
    [reflexivity | exact IHd |..];
    match goal with
    | |- digits_value ?a _ = Z.of_N (N.pos (Pos.of_uint_acc _ ?q)) =>
        replace a with (Z.pos q)
          by (match goal with
              | |- context [digit_value ?c] =>
                  let v := eval vm_compute in (digit_value c) in
                  change (digit_value c) with v
              end; lia)
    end; apply digits_value_acc.
Qed.

Lemma digits_of_uint (d : Decimal.uint) :
  all_chars is_digit (NilEmpty.string_of_uint d) = true.
Proof. induction d; cbn [NilEmpty.string_of_uint all_chars]; [reflexivity|..]; exact IHd. Qed.

Lemma parse_digits_uint (d : Decimal.uint) :
  parse_digits (NilZero.string_of_uint d) = Some (Z.of_N (Pos.of_uint d)).
Proof.
  unfold parse_digits.
  destruct d; try reflexivity;
    unfold NilZero.string_of_uint;
    rewrite digits_of_uint, digits_value_uint; reflexivity.
Qed.

Lemma rev_append_rev_append (s a b : string) :
  rev_append (rev_append s a) b = rev_append a (s ++ b).
Proof.
  revert a; induction s as [|c s IH]; intros a; simpl; [reflexivity|].
  now rewrite IH.
Qed.

Lemma rev_involutive (s : string) : Py.rev (Py.rev s) = s.
Proof. unfold Py.rev. rewrite rev_append_rev_append. simpl. apply append_nil_r. Qed.

Lemma all_chars_rev_append (p : ascii -> bool) (s a : string) :
  all_chars p (rev_append s a) = all_chars p s && all_chars p a.
Proof.
  revert a; induction s as [|c s IH]; intros a; simpl; [reflexivity|].
  rewrite IH. simpl. destruct (p c), (all_chars p s); reflexivity.
Qed.

Lemma all_chars_append (p : ascii -> bool) (a b : string) :
  all_chars p (a ++ b) = all_chars p a && all_chars p b.
Proof.
  induction a as [|c a IH]; simpl; [reflexivity|]. rewrite IH. now destruct (p c).
Qed.

Lemma lstrip_no_space (s : string) :
  all_chars (fun c => negb (is_space c)) s = true -> lstrip s = s.
Proof.
  destruct s as [|c s]; simpl; [reflexivity|].
  destruct (is_space c); [discriminate | reflexivity].
Qed.

Lemma strip_no_space (s : string) :
  all_chars (fun c => negb (is_space c)) s = true -> strip s = s.
Proof.
  intros H. unfold strip. rewrite (lstrip_no_space s H).
  rewrite lstrip_no_space; [apply rev_involutive|].
  unfold Py.rev. rewrite all_chars_rev_append, H. reflexivity.
Qed.

Lemma digit_is_no_space (c : ascii) : is_digit c = true -> negb (is_space c) = true.
Proof.
  unfold is_digit, is_space. intros H. apply andb_prop in H. destruct H as [H1 H2].
  apply Nat.leb_le in H1. apply Nat.leb_le in H2.
  apply negb_true_iff. apply orb_false_iff. split.
  - apply Nat.eqb_neq. lia.
  - apply andb_false_iff. right. apply Nat.leb_gt. lia.
Qed.

Lemma digits_no_space (s : string) :
  all_chars is_digit s = true -> all_chars (fun c => negb (is_space c)) s = true.
Proof.
  induction s as [|c s IH]; simpl; [reflexivity|]. intros H.
  apply andb_prop in H. destruct H as [H1 H2].
  now rewrite (digit_is_no_space c H1), (IH H2).
Qed.

(** A text of digits is read as it stands. *)
Lemma int_of_digits (s : string) :
  all_chars is_digit s = true -> Py.int s = parse_digits s.
Proof.
  intros H. unfold Py.int. rewrite (strip_no_space s (digits_no_space s H)).
  destruct s as [|c s]; [reflexivity|]. simpl in H.
  apply andb_prop in H. destruct H as [H _].
  destruct c as [[] [] [] [] [] [] [] []]; try reflexivity; discriminate H.
Qed.

(** [int(str(n))] is [n]. *)
Lemma int_of_str (n : Z) : Py.int (str_of_int n) = Some n.
Proof.
  unfold str_of_int. pose proof (DecimalZ.of_to n) as E.
  destruct (Z.to_int n) as [d|d]; cbn [NilZero.string_of_int].
  - rewrite int_of_digits.
    + rewrite parse_digits_uint. f_equal. exact E.
    + destruct d; try reflexivity; apply digits_of_uint.
  - unfold Py.int. rewrite strip_no_space.
    + rewrite parse_digits_uint. simpl. f_equal. exact E.
    + simpl. apply digits_no_space. destruct d; try reflexivity; apply digits_of_uint.
Qed.

Lemma str_of_nonnegative (n : Z) :
  0 <= n -> all_chars is_digit (str_of_int n) = true /\ parse_digits (str_of_int n) = Some n.
Proof.
  intros Hn. unfold str_of_int. pose proof (DecimalZ.of_to n) as E.
  destruct n as [|p|p]; [split; reflexivity | | lia].
  cbn [Z.to_int NilZero.string_of_int] in *. split.
  - destruct (Pos.to_uint p); try reflexivity; apply digits_of_uint.
  - rewrite parse_digits_uint. f_equal. exact E.
Qed.

Lemma digits_value_zeros (k : nat) (s : string) :
  digits_value 0 (repeat_char "0" k ++ s) = digits_value 0 s.
Proof. induction k as [|k IH]; simpl; [reflexivity | exact IH]. Qed.

Lemma length_append (a b : string) :
  String.length (a ++ b) = (String.length a + String.length b)%nat.
Proof. induction a as [|c a IH]; simpl; [reflexivity | now rewrite IH]. Qed.

Lemma length_repeat_char (c : ascii) (k : nat) : String.length (repeat_char c k) = k.
Proof. induction k as [|k IH]; simpl; [reflexivity | now rewrite IH]. Qed.

Lemma format_04d_short (n : nat) :
  Z.of_nat n <= 9999 -> (String.length (str_of_int (Z.of_nat n)) <= 4)%nat.
Proof.
  intros Hn.
  assert (H : forallb (fun n => (String.length (str_of_int (Z.of_nat n)) <=? 4)%nat)
                (seq 0 (Z.to_nat 10000)) = true) by (vm_compute; reflexivity).
  rewrite forallb_forall in H.
  apply Nat.leb_le. apply H. apply in_seq. lia.
Qed.

(** X4: the formatted number reads back as the number: for every integer
    [n >= 0], [int] of the zero-padded text is [n]; the text has at least
    four characters, and exactly four up to 9999. *)
Theorem format_04d_reads_back (n : Z) :
  0 <= n ->
  Py.int (format_04d n) = Some n /\
  (4 <= String.length (format_04d n))%nat /\
  (n <= 9999 -> String.length (format_04d n) = 4%nat).
Proof.
  intros Hn. destruct (str_of_nonnegative n Hn) as [Hd Hp]. unfold format_04d.
  split; [|split].
  - rewrite int_of_digits.
    + unfold parse_digits in *. rewrite all_chars_append, Hd.
      assert (Hz : forall k, all_chars is_digit (repeat_char "0" k) = true)
        by (induction k; simpl; auto).
      rewrite Hz. rewrite truthy_append_r.
      * simpl. rewrite digits_value_zeros. rewrite Hd in Hp.
        destruct (truthy (str_of_int n)); [exact Hp | discriminate Hp].
      * destruct (truthy (str_of_int n)); [reflexivity | discriminate Hp].
    + rewrite all_chars_append, Hd.
      assert (Hz : forall k, all_chars is_digit (repeat_char "0" k) = true)
        by (induction k; simpl; auto).
      now rewrite Hz.
  - rewrite length_append, length_repeat_char. lia.
  - intros Hle. rewrite length_append, length_repeat_char.
    pose proof (format_04d_short (Z.to_nat n)) as Hs. rewrite Z2Nat.id in Hs by lia.
    specialize (Hs Hle). lia.
Qed.

Lemma format_04d_reads_back_witness :
  Py.int (format_04d 45) = Some 45 /\
  (4 <= String.length (format_04d 45))%nat /\
  (45 <= 9999 -> String.length (format_04d 45) = 4%nat).
Proof. apply format_04d_reads_back. lia. Defined.

(** ** A number that is no integer *)

Lemma bind_try_raised {S A B} (body : M S A) (handler : Exn -> M S A) (k : A -> M S B)
    (s s1 : S) (e : Exn) :
  body s = Raise e s1 -> bind (try_except body handler) k s = bind (handler e) k s1.
Proof. intros H. unfold bind, try_except. now rewrite H. Qed.

Lemma bind_try_returned {S A B} (body : M S A) (handler : Exn -> M S A) (k : A -> M S B)
    (s s1 : S) (a : A) :
  body s = Ok a s1 -> bind (try_except body handler) k s = k a s1.
Proof. intros H. unfold bind, try_except. now rewrite H. Qed.

Section UnreadableNumber.

Variable L : Library.





End UnreadableNumber.



(** ** The fields that one parse leaves *)

Lemma diagnosed_nil (s : XEP) : diagnosed [] s = s.
Proof. unfold diagnosed. rewrite app_nil_r. now destruct s. Qed.


Lemma item0_text {S} (name : string) (n : Node) (s : S) (k : Node -> M S unit) :
  present name n = true ->
  exists e, first_element name n = Some e /\
            text_of name n = __getText__ (childNodes e) /\
            bind (item 0 (getElementsByTagName name n)) k s = k e s.
Proof.
  intros H. destruct (present_first _ _ H) as [e He]. exists e.
  split; [exact He|]. split.
  - unfold text_of, element_text. now rewrite He.
  - now rewrite (bind_ok _ _ _ _ _ (item0_first _ _ _ s He)).
Qed.

(** The name of the object does not depend on the fields that the later
    steps assign. *)
Lemma str_same (s s' : XEP) (name : string) :
  nrFormatted s' = nrFormatted s -> filename s' = filename s ->
  __str__ s = Ok name s -> __str__ s' = Ok name s'.
Proof.
  unfold __str__. rewrite !bind_get. intros -> ->.
  destruct (nrFormatted s) as [nf|]; [|discriminate].
  destruct (negb (truthy nf)); unfold ret; intros [= <-]; reflexivity.
Qed.

Lemma str_display (s : XEP) (nf : string) :
  nrFormatted s = Some nf -> __str__ s = Ok (display_of nf (filename s)) s.
Proof.
  intros H. unfold __str__, display_of. rewrite bind_get, H.
  now destruct (negb (truthy nf)).
Qed.

Section StepResults.

Variable L : Library.

Lemma processParsingError_diagnosed (d name : string) (e : Exn) (s : XEP) :
  __str__ s = Ok name s ->
  __processParsingError__ d e s =
  Ok tt (diagnosed (field_diagnostic d name (filename s) (Some e)) s).
Proof. intros H. now rewrite (processParsingError_eq d name e s H). Qed.

Lemma read_title_result (h : Node) (s : XEP) :
  present "title" h = true -> read_title h s = Ok tt (set_title (text_of "title" h) s).
Proof.
  intros H. unfold read_title.
  destruct (item0_text "title" h s
              (fun titleNode => modify (set_title (__getText__ (childNodes titleNode)))) H)
    as (e & _ & Ht & Hk).
  rewrite Hk, Ht. reflexivity.
Qed.

Lemma read_shortname_result (h : Node) (s : XEP) :
  read_shortname h s = Ok tt (set_shortname (element_text "shortname" h) s).
Proof.
  unfold read_shortname, element_text, first_element.
  destruct (getElementsByTagName "shortname" h); reflexivity.
Qed.

Lemma read_abstract_status_result (h : Node) (s : XEP) :
  present "abstract" h = true -> present "status" h = true ->
  read_abstract_status h s =
  Ok tt (set_status (text_of "status" h) (set_abstract (text_of "abstract" h) s)).
Proof.
  intros Ha Hs. unfold read_abstract_status.
  destruct (item0_text "abstract" h s
              (fun abstractNode =>
                 modify (set_abstract (__getText__ (childNodes abstractNode)));;
                 statusNode <- item 0 (getElementsByTagName "status" h);;
                 modify (set_status (__getText__ (childNodes statusNode)))) Ha)
    as (a & _ & Hta & Hka).
  rewrite Hka, bind_modify.
  destruct (item0_text "status" h (set_abstract (__getText__ (childNodes a)) s)
              (fun statusNode => modify (set_status (__getText__ (childNodes statusNode))))
              Hs) as (t & _ & Htt & Hkt).
  rewrite Hkt, Hta, Htt. reflexivity.
Qed.

Lemma read_lastcall_result (h : Node) (s : XEP) (name : string) :
  __str__ s = Ok name s ->
  read_lastcall L h s =
  Ok tt (diagnosed (field_diagnostic "last call" name (filename s) (lastcall_failure L h))
           (set_lastcall (lastcall_value L h) s)).
Proof.
  intros Hs. unfold read_lastcall, lastcall_failure, lastcall_value, element_text,
    first_element, date_failure.
  destruct (getElementsByTagName "lastcall" h) as [|n rest]; cbn [hd_error option_map].
  - now rewrite diagnosed_nil.
  - unfold try_except, strptime_, bind at 1.
    destruct (strptime L (__getText__ (childNodes n))) as [d|msg].
    + cbn. now rewrite diagnosed_nil.
    + unfold raise. rewrite bind_modify.
      rewrite (processParsingError_diagnosed "last call" name);
        [reflexivity | exact (str_same s (set_lastcall None s) name eq_refl eq_refl Hs)].
Qed.

Lemma read_type_interim_result (h : Node) (s : XEP) :
  present "type" h = true ->
  read_type_interim h s =
  Ok tt (set_interim (interim_marked h) (set_type (text_of "type" h) s)).
Proof.
  intros H. unfold read_type_interim.
  destruct (item0_text "type" h s
              (fun typeNode =>
                 modify (set_type (__getText__ (childNodes typeNode)));;
                 match getElementsByTagName "interim" h with
                 | [] => modify (set_interim false)
                 | _ :: _ => modify (set_interim true)
                 end) H) as (e & _ & Ht & Hk).
  rewrite Hk, bind_modify, Ht. unfold interim_marked.
  destruct (getElementsByTagName "interim" h); reflexivity.
Qed.

Lemma read_revision_result (h : Node) (s : XEP) (name : string) :
  complete_header h = true -> __str__ s = Ok name s ->
  read_revision L h s =
  Ok tt (set_version (revision_text "version" h)
           (diagnosed
              (field_diagnostic "date" name (filename s)
                 (date_failure L (revision_text "date" h)))
              (set_date (date_value L h) s))).
Proof.
  intros Hc Hs. unfold complete_header in Hc. apply andb_prop in Hc.
  destruct Hc as [_ Hc]. unfold revision_text, date_value, revision_text.
  destruct (first_element "revision" h) as [r|] eqn:Hr; [|discriminate].
  apply andb_prop in Hc. destruct Hc as [Hd Hv].
  unfold read_revision. rewrite (bind_ok _ _ _ _ _ (item0_first _ _ _ s Hr)).
  destruct (present_first _ _ Hd) as [d Hed].
  destruct (present_first _ _ Hv) as [v Hev].
  rewrite (bind_ok _ _ _ _ _ (item0_first _ _ _ s Hed)).
  assert (Td : text_of "date" r = __getText__ (childNodes d))
    by (unfold text_of, element_text; now rewrite Hed).
  assert (Tv : text_of "version" r = __getText__ (childNodes v))
    by (unfold text_of, element_text; now rewrite Hev).
  rewrite Td, Tv. unfold date_failure.
  destruct (strptime L (__getText__ (childNodes d))) as [dt|msg] eqn:Ep.
  - rewrite (bind_try_returned _ _ _ s (set_date dt s) tt);
      [|unfold strptime_; rewrite Ep; reflexivity].
    rewrite (bind_ok _ _ _ _ _ (item0_first _ _ _ _ Hev)).
    cbn [field_diagnostic]. now rewrite diagnosed_nil.
  - rewrite (bind_try_raised _ _ _ s s (ValueError msg));
      [|unfold strptime_; rewrite Ep; reflexivity].
    rewrite bind_assoc, bind_modify.
    rewrite (bind_ok _ _ _ _ _
               (processParsingError_diagnosed "date" name (ValueError msg)
                  (set_date (now L) s)
                  (str_same s (set_date (now L) s) name eq_refl eq_refl Hs))).
    rewrite (bind_ok _ _ _ _ _ (item0_first _ _ _ _ Hev)). reflexivity.
Qed.

Lemma read_majorVersion_result (s : XEP) (name : string) :
  __str__ s = Ok name s ->
  read_majorVersion L s =
  Ok tt (diagnosed
           (field_diagnostic "major version" name (filename s)
              (int_failure L (nth 0 (split "." (version s)) EmptyString)))
           (set_majorVersion
              (match Py.int (nth 0 (split "." (version s)) EmptyString) with
               | Some n => n
               | None => 0
               end) s)).
Proof.
  intros Hs. unfold read_majorVersion, try_except, int_failure.
  rewrite bind_get.
  assert (Hsplit : exists c0 rest, split "." (version s) = c0 :: rest).
  { destruct (version s) as [|c v]; simpl; [eauto|].
    destruct (Ascii.eqb c "."); [eauto|]. destruct (split "." v); eauto. }
  destruct Hsplit as (c0 & rest & E). rewrite E. cbn [item nth_error nth].
  rewrite bind_ret. unfold int_.
  destruct (Py.int c0) as [n|].
  - rewrite bind_ret. cbn [field_diagnostic]. now rewrite diagnosed_nil.
  - rewrite bind_raise, bind_modify.
    rewrite (processParsingError_diagnosed "major version" name _ (set_majorVersion 0 s)
               (str_same s (set_majorVersion 0 s) name eq_refl eq_refl Hs)).
    reflexivity.
Qed.

Lemma read_minorVersion_result (s : XEP) (name : string) :
  dotted (version s) = true -> __str__ s = Ok name s ->
  read_minorVersion L s =
  Ok tt (diagnosed
           (field_diagnostic "major version" name (filename s)
              (if interim s then None
               else int_failure L (nth 1 (split "." (version s)) EmptyString)))
           (set_minorVersion
              (match Py.int (nth 1 (split "." (version s)) EmptyString) with
               | Some n => PyInt n
               | None =>
                   if interim s then PyStr (nth 1 (split "." (version s)) EmptyString)
                   else PyInt 0
               end) s)).
Proof.
  intros Hd Hs. unfold dotted in Hd.
  destruct (split "." (version s)) as [|c0 [|c rest]] eqn:E; try discriminate.
  rewrite (read_minorVersion_dotted L s c0 c name rest E Hs).
  cbn [nth]. unfold int_failure.
  destruct (Py.int c) as [n|].
  - destruct (interim s); cbn [field_diagnostic]; now rewrite diagnosed_nil.
  - destruct (interim s); cbn [field_diagnostic]; [now rewrite diagnosed_nil | reflexivity].
Qed.

End StepResults.

Section Fields.

Variable L : Library.

Lemma nameable_accepted (s : XEP) (h : Node) : nameable s h -> number_accepted s h.
Proof.
  intros [Hn|Hp]; [now left|]. right. right. right. right.
  unfold number_parses in Hp. unfold text_of.
  destruct (element_text "number" h) as [t|]; [|discriminate].
  destruct (Py.int t); [discriminate | discriminate Hp].
Qed.

Lemma read_number_result (h : Node) (s : XEP) :
  present "number" h = true -> number_accepted s h ->
  read_number L h s =
  Ok tt (set_nrFormatted
           (Some (format_number (number_value s (text_of "number" h))))
           (diagnosed (number_diagnostics L s (text_of "number" h))
              (set_nr (number_value s (text_of "number" h))
                 (set_path (fst (os_path_split (filename s))) s)))).
Proof.
  intros H Hname. unfold read_number.
  destruct (present_first _ _ H) as [e He].
  assert (Ht : text_of "number" h = __getText__ (childNodes e))
    by (unfold text_of, element_text; now rewrite He).
  rewrite (bind_ok _ _ _ _ _ (item0_first _ _ _ s He)). rewrite bind_get.
  unfold number_accepted, in_inbox_or_template, file_part in Hname.
  unfold number_value, number_diagnostics, in_inbox_or_template, file_part.
  rewrite Ht in Hname. rewrite Ht. set (t := __getText__ (childNodes e)) in *.
  destruct (os_path_split (filename s)) as [p fle] eqn:Es. cbn [fst snd] in *.
  rewrite bind_modify.
  destruct (String.eqb (os_path_basename p) "inbox" || String.eqb fle "xep-template.xml")
    eqn:Ein.
  - destruct (negb (is_xxxx t)).
    + reflexivity.
    + rewrite diagnosed_nil. reflexivity.
  - destruct (is_xxxx t) eqn:Exx; [rewrite diagnosed_nil; reflexivity|].
    destruct (String.eqb fle "xep-README.xml" && String.eqb t "README") eqn:Erd;
      [rewrite diagnosed_nil; reflexivity|].
    destruct (Py.int t) as [n|] eqn:Hi.
    + rewrite (bind_try_returned _ _ _ (set_path p s) (set_nr (PyInt n) (set_path p s)) tt);
        [|unfold int_; rewrite Hi; reflexivity].
      rewrite diagnosed_nil. reflexivity.
    + rewrite (bind_try_raised _ _ _ (set_path p s) (set_path p s) (int_error L t));
        [|unfold int_; rewrite Hi; reflexivity].
      destruct Hname as [Hn|[Hin|[Hx|[Hr|Hp]]]];
        [|discriminate Hin | discriminate Hx | discriminate Hr | congruence].
      destruct (nrFormatted s) as [nf|] eqn:En; [|congruence].
      rewrite bind_assoc, bind_modify.
      rewrite (bind_ok _ _ _ _ _
                 (processParsingError_diagnosed "XEP number"
                    (display_of nf (filename s)) (int_error L t)
                    (set_nr (PyStr t) (set_path p s))
                    (str_display (set_nr (PyStr t) (set_path p s)) nf En))).
      reflexivity.
Qed.

Lemma dotted_revision_text (h : Node) :
  dotted_version h = true -> dotted (revision_text "version" h) = true.
Proof.
  unfold dotted_version, version_text, revision_text, text_of.
  destruct (first_element "revision" h); [|discriminate].
  destruct (element_text "version" n); [auto | discriminate].
Qed.

(** The entries that the steps before the minor version add. *)
Lemma diagnostics_before_minor (s : XEP) (h : Node) :
  diagnostics L s h =
  (let name :=
     display_of (format_number (number_value s (text_of "number" h))) (filename s) in
   (number_diagnostics L s (text_of "number" h)
    ++ field_diagnostic "last call" name (filename s) (lastcall_failure L h)
    ++ field_diagnostic "date" name (filename s)
         (date_failure L (revision_text "date" h))
    ++ field_diagnostic "major version" name (filename s)
         (int_failure L (component 0 h)))
   ++ field_diagnostic "major version" name (filename s) (minor_failure L h))%list.
Proof. unfold diagnostics. cbv zeta. now rewrite <- !app_assoc. Qed.

(** The header steps up to the major version, run one after the other,
    whatever follows them. *)
Lemma header_before_minor (h : Node) (s : XEP) :
  complete_header h = true -> number_accepted s h ->
  exists s',
    (forall k : M XEP unit,
        (read_title h ;; read_number L h ;; read_shortname h ;;
         read_abstract_status h ;; read_lastcall L h ;; read_type_interim h ;;
         read_revision L h ;; read_majorVersion L ;; k) s = k s') /\
    __str__ s' =
      Ok (display_of (format_number (number_value s (text_of "number" h))) (filename s))
         s' /\
    filename s' = filename s /\
    title s' = text_of "title" h /\
    nr s' = number_value s (text_of "number" h) /\
    nrFormatted s' = Some (format_number (number_value s (text_of "number" h))) /\
    shortname s' = element_text "shortname" h /\
    abstract s' = text_of "abstract" h /\ status s' = text_of "status" h /\
    lastcall s' = lastcall_value L h /\
    type s' = text_of "type" h /\ interim s' = interim_marked h /\
    date s' = date_value L h /\ version s' = revision_text "version" h /\
    majorVersion s' = major_value h /\
    path s' = fst (os_path_split (filename s)) /\
    xep s' = xep s /\
    minorVersion s' = minorVersion s /\ depends s' = depends s /\
    images s' = images s /\
    parseErrors s' =
      (let name :=
         display_of (format_number (number_value s (text_of "number" h))) (filename s) in
       parseErrors s
       ++ number_diagnostics L s (text_of "number" h)
       ++ field_diagnostic "last call" name (filename s) (lastcall_failure L h)
       ++ field_diagnostic "date" name (filename s)
            (date_failure L (revision_text "date" h))
       ++ field_diagnostic "major version" name (filename s)
            (int_failure L (component 0 h)))%list.
Proof.
  intros Hc Hname.
  destruct (complete_header_present h Hc) as (Pt & Pn & Pa & Ps & Py).
  set (s1 := set_title (text_of "title" h) s).
  assert (Hname1 : number_accepted s1 h) by exact Hname.
  set (v := number_value s1 (text_of "number" h)).
  set (s2 := set_nrFormatted (Some (format_number v))
               (diagnosed (number_diagnostics L s1 (text_of "number" h))
                  (set_nr v (set_path (fst (os_path_split (filename s1))) s1)))).
  set (name := display_of (format_number v) (filename s)).
  set (s3 := set_shortname (element_text "shortname" h) s2).
  set (s4 := set_status (text_of "status" h) (set_abstract (text_of "abstract" h) s3)).
  pose proof (read_lastcall_result L h s4 name (str_display s4 (format_number v) eq_refl))
    as R5.
  set (s5 := diagnosed _ (set_lastcall (lastcall_value L h) s4)) in R5.
  set (s6 := set_interim (interim_marked h) (set_type (text_of "type" h) s5)).
  pose proof (read_revision_result L h s6 name Hc
                (str_display s6 (format_number v) eq_refl)) as R7.
  set (s7 := set_version (revision_text "version" h) _) in R7.
  pose proof (read_majorVersion_result L s7 name
                (str_display s7 (format_number v) eq_refl)) as R8.
  set (s8 := diagnosed _ (set_majorVersion _ s7)) in R8.
  exists s8. split.
  - intros k.
    rewrite (bind_ok _ _ _ _ _ (read_title_result h s Pt)).
    rewrite (bind_ok _ _ _ _ _ (read_number_result h s1 Pn Hname1)).
    rewrite (bind_ok _ _ _ _ _ (read_shortname_result h s2)).
    rewrite (bind_ok _ _ _ _ _ (read_abstract_status_result h s3 Pa Ps)).
    rewrite (bind_ok _ _ _ _ _ R5).
    rewrite (bind_ok _ _ _ _ _ (read_type_interim_result h s5 Py)).
    rewrite (bind_ok _ _ _ _ _ R7).
    rewrite (bind_ok _ _ _ _ _ R8). reflexivity.
  - split; [exact (str_display s8 (format_number v) eq_refl)|].
    repeat (split; [reflexivity|]).
    cbn. rewrite <- !app_assoc. reflexivity.
Qed.


(** The header steps, run one after the other. *)
Lemma read_header_result (h : Node) (s : XEP) :
  complete_header h = true -> dotted_version h = true -> number_accepted s h ->
  exists s',
    read_header L h s = Ok tt s' /\
    title s' = text_of "title" h /\
    nr s' = number_value s (text_of "number" h) /\
    nrFormatted s' = Some (format_number (number_value s (text_of "number" h))) /\
    shortname s' = element_text "shortname" h /\
    abstract s' = text_of "abstract" h /\ status s' = text_of "status" h /\
    lastcall s' = lastcall_value L h /\
    type s' = text_of "type" h /\ interim s' = interim_marked h /\
    date s' = date_value L h /\ version s' = revision_text "version" h /\
    majorVersion s' = major_value h /\ minorVersion s' = minor_value h /\
    depends s' = spec_texts h /\
    path s' = fst (os_path_split (filename s)) /\
    xep s' = xep s /\
    parseErrors s' = (parseErrors s ++ diagnostics L s h)%list.
Proof.
  intros Hc Hd Hname.
  destruct (header_before_minor h s Hc Hname)
    as (s8 & Hk & Hstr & Ff & Ft & Fn & Fnf & Fsn & Fa & Fst & Flc & Fty & Fi & Fd & Fv
        & Fmaj & Fp & Fx & _ & _ & _ & Fe).
  pose proof (dotted_revision_text h Hd) as Hdot. rewrite <- Fv in Hdot.
  unfold read_header. rewrite Hk.
  rewrite (bind_ok _ _ _ _ _ (read_minorVersion_result L s8 _ Hdot Hstr)).
  rewrite read_depends_ok.
  eexists. split; [reflexivity|]. cbn.
  repeat (split; [assumption|]).
  split; [unfold minor_value, component; now rewrite Fv, Fi|].
  split; [reflexivity|]. split; [assumption|]. split; [assumption|].
  rewrite diagnostics_before_minor. cbv zeta in Fe |- *. rewrite Fe.
  unfold minor_failure, component. rewrite Ff, Fv, Fi.
  now rewrite <- !app_assoc.
Qed.

Lemma readXEP_runs_header (self : XEP) (doc : Document) (x h : Node) :
  parseString L (raw self) = Some doc ->
  xep_node doc = Some x -> first_element "header" x = Some h ->
  readXEP L self = (read_header L h ;; read_images x) (set_xep (Some doc) self).
Proof.
  intros Hp Hx Hh. unfold readXEP. rewrite bind_get, Hp. unfold read_document.
  rewrite bind_modify.
  assert (Ex : item 0 (Document_getElementsByTagName "xep" doc) (set_xep (Some doc) self)
               = Ok x (set_xep (Some doc) self)).
  { unfold xep_node in Hx. unfold item.
    destruct (Document_getElementsByTagName "xep" doc); simpl in *; [discriminate|].
    now injection Hx as ->. }
  rewrite (bind_ok _ _ _ _ _ Ex).
  now rewrite (bind_ok _ _ _ _ _ (item0_first _ _ _ _ Hh)).
Qed.




(** X8: a document outside the inbox whose number is an integer literal,
    whose dates parse and whose two version components are integer
    literals is parsed without any diagnostic: [parseErrors] is left as it
    was, no default is used, and the object is named XEP- followed by the
    zero-padded number. *)
Theorem valid_document_parses_without_diagnostics (self : XEP) (doc : Document)
    (x h : Node) (n a b : Z) (d : datetime) :
  parseString L (raw self) = Some doc ->
  xep_node doc = Some x -> first_element "header" x = Some h ->
  well_formed x h = true ->
  in_inbox_or_template self = false ->
  Py.int (text_of "number" h) = Some n ->
  lastcall_failure L h = None ->
  strptime L (revision_text "date" h) = inl d ->
  Py.int (component 0 h) = Some a -> Py.int (component 1 h) = Some b ->
  exists self',
    readXEP L self = Ok tt self' /\
    parseErrors self' = parseErrors self /\
    nr self' = PyInt n /\ nrFormatted self' = Some (format_04d n) /\
    date self' = d /\ majorVersion self' = a /\ minorVersion self' = PyInt b /\
    __str__ self' = Ok ("XEP-" ++ format_04d n) self'.
Proof.
  intros Hp Hx Hh Hw Hin Hn Hlc Hd Ha Hb.
  assert (Hname : nameable self h).
  { right. unfold number_parses. unfold text_of in Hn.
    destruct (element_text "number" h); [now rewrite Hn | discriminate Hn]. }
  assert (Hxx : is_xxxx (text_of "number" h) = false).
  { unfold is_xxxx.
    destruct (String.eqb_spec (text_of "number" h) "xxxx") as [E|_];
      [rewrite E in Hn; discriminate Hn|].
    destruct (String.eqb_spec (text_of "number" h) "XXXX") as [E|_];
      [rewrite E in Hn; discriminate Hn | reflexivity]. }
  assert (Hrd : String.eqb (text_of "number" h) "README" = false).
  { destruct (String.eqb_spec (text_of "number" h) "README") as [E|_];
      [rewrite E in Hn; discriminate Hn | reflexivity]. }
  unfold well_formed in Hw.
  apply andb_prop in Hw. destruct Hw as [Hw Hi].
  apply andb_prop in Hw. destruct Hw as [Hc Hdot].
  rewrite (readXEP_runs_header self doc x h Hp Hx Hh).
  destruct (read_header_result h (set_xep (Some doc) self) Hc Hdot
              (nameable_accepted _ _ Hname))
    as (s' & Hrun & _ & Fn & Fnf & _ & _ & _ & _ & _ & _ & Fd & _
        & Fmaj & Fmin & _ & _ & _ & Fe).
  rewrite (bind_ok _ _ _ _ _ Hrun). rewrite (read_images_ok x s' Hi).
  change (number_value (set_xep (Some doc) self)) with (number_value self) in Fn, Fnf.
  change (parseErrors (set_xep (Some doc) self)) with (parseErrors self) in Fe.
  change (diagnostics L (set_xep (Some doc) self)) with (diagnostics L self) in Fe.
  assert (Hv : number_value self (text_of "number" h) = PyInt n).
  { unfold number_value. rewrite Hin, Hxx, Hrd, andb_false_r, Hn. reflexivity. }
  rewrite Hv in Fn, Fnf. cbn [format_number] in Fnf.
  set (self' := set_images (image_sources x) s').
  assert (Fnf' : nrFormatted self' = Some (format_04d n)) by exact Fnf.
  exists self'. split; [reflexivity|].
  change (parseErrors self') with (parseErrors s').
  change (nr self') with (nr s'). change (date self') with (date s').
  change (majorVersion self') with (majorVersion s').
  change (minorVersion self') with (minorVersion s').
  change (nrFormatted self') with (nrFormatted s') at 1.
  split.
  - rewrite Fe. unfold diagnostics, number_diagnostics, date_failure, int_failure,
      minor_failure, int_failure.
    rewrite Hin, Hxx, Hrd, andb_false_r, Hn, Hlc, Hd, Ha, Hb.
    cbn [field_diagnostic app]. destruct (interim_marked h); apply app_nil_r.
  - split; [exact Fn|]. split; [exact Fnf|].
    split; [rewrite Fd; unfold date_value; now rewrite Hd|].
    split; [rewrite Fmaj; unfold major_value; now rewrite Ha|].
    split; [rewrite Fmin; unfold minor_value; now rewrite Hb|].
    rewrite (str_display self' (format_04d n) Fnf). unfold display_of.
    now rewrite format_04d_truthy.
Qed.


End Fields.


Lemma valid_document_parses_without_diagnostics_witness :
  let self := Fixture.unparsed "/repo/xep-0001.xml" None Fixture.doc_plain in
  exists self',
    readXEP Fixture.lib self = Ok tt self' /\
    parseErrors self' = parseErrors self /\
    nr self' = PyInt 1 /\ nrFormatted self' = Some (format_04d 1) /\
    date self' = mkDate 2014 9 23 /\ majorVersion self' = 1 /\
    minorVersion self' = PyInt 2 /\
    __str__ self' = Ok ("XEP-" ++ format_04d 1) self'.
Proof.
  apply (valid_document_parses_without_diagnostics Fixture.lib
           (Fixture.unparsed "/repo/xep-0001.xml" None Fixture.doc_plain)
           Fixture.doc_plain (Fixture.xep_of Fixture.doc_plain)
           (Fixture.header_of Fixture.doc_plain) 1 1 2 (mkDate 2014 9 23));
    vm_compute; reflexivity.
Defined.


(** ** The patcher applied twice *)

Lemma class_is_not_lt (c : ascii) : Re.in_class c = true -> Ascii.eqb c "<" = false.
Proof.
  intros H. destruct (Ascii.eqb_spec c "<") as [->|_]; [discriminate H | reflexivity].
Qed.

Lemma class_is_not_slash (c : ascii) : Re.in_class c = true -> Ascii.eqb "/" c = false.
Proof.
  intros H. destruct (Ascii.eqb_spec "/" c) as [<-|_]; [discriminate H | reflexivity].
Qed.

Lemma all_chars_weaken (p q : ascii -> bool) (s : string) :
  (forall c, p c = true -> q c = true) -> all_chars p s = true -> all_chars q s = true.
Proof.
  intros Hpq. induction s as [|c s IH]; simpl; [reflexivity|].
  intros H. apply andb_prop in H. destruct H as [Hc Hs].
  now rewrite (Hpq c Hc), (IH Hs).
Qed.

Lemma name_has_no_lt (name : string) :
  all_chars Re.in_class name = true ->
  all_chars (fun c => negb (Ascii.eqb c "<")) (name ++ ">") = true.
Proof.
  intros H. rewrite all_chars_append.
  rewrite (all_chars_weaken Re.in_class _ name); [reflexivity | | exact H].
  intros c Hc. now rewrite (class_is_not_lt c Hc).
Qed.

Lemma match_literal_refl (p s : string) : Re.match_literal p (p ++ s) = Some s.
Proof.
  induction p as [|a p IH]; simpl; [reflexivity|]. now rewrite Ascii.eqb_refl.
Qed.

(** A literal without [<] that is matched against a text with a [<] ends
    before it or fails. *)
Lemma match_literal_before_bracket (p u w : string) :
  all_chars (fun c => negb (Ascii.eqb c "<")) p = true ->
  Re.match_literal p (u ++ String "<" w)
  = option_map (fun r => r ++ String "<" w) (Re.match_literal p u).
Proof.
  revert u. induction p as [|a p IH]; intros u Hp; [reflexivity|].
  simpl in Hp. apply andb_prop in Hp. destruct Hp as [Ha Hp].
  destruct u as [|b u]; simpl.
  - apply negb_true_iff in Ha. now rewrite Ha.
  - destruct (Ascii.eqb a b); [now apply IH | reflexivity].
Qed.

Lemma match_literal_cons (a b : ascii) (p s : string) :
  Re.match_literal (String a p) (String b s)
  = if Ascii.eqb a b then Re.match_literal p s else None.
Proof. reflexivity. Qed.

Lemma open_tag_append (name z : string) :
  Re.open_tag name ++ z = String "<" ((name ++ ">") ++ z).
Proof. reflexivity. Qed.

Lemma close_tag_cons (name : string) :
  Re.close_tag name = String "<" (String "/" (name ++ ">")).
Proof. reflexivity. Qed.

(** The closing tag does not match where an opening tag starts. *)
Lemma close_not_at_open (name z : string) :
  all_chars Re.in_class name = true ->
  Re.match_literal (Re.close_tag name) (Re.open_tag name ++ z) = None.
Proof.
  intros Hn. rewrite open_tag_append, close_tag_cons.
  rewrite match_literal_cons, Ascii.eqb_refl.
  destruct name as [|n0 name]; [reflexivity|].
  simpl in Hn. apply andb_prop in Hn. destruct Hn as [H0 _].
  cbn [append]. rewrite match_literal_cons. now rewrite (class_is_not_slash n0 H0).
Qed.

Lemma star_at_open (name z : string) :
  all_chars Re.in_class name = true ->
  Re.match_star_then (Re.close_tag name) (Re.open_tag name ++ z) = None.
Proof.
  intros Hn. pose proof (close_not_at_open name z Hn) as H.
  rewrite open_tag_append in *. cbn [Re.match_star_then].
  change (Re.in_class "<") with false. cbn iota. exact H.
Qed.

(** Whether the body and the closing tag match in front of an opening tag
    does not depend on what follows that tag. *)
Lemma star_before_open (name u z1 z2 : string) :
  all_chars Re.in_class name = true ->
  Re.match_star_then (Re.close_tag name) (u ++ Re.open_tag name ++ z1) = None ->
  Re.match_star_then (Re.close_tag name) (u ++ Re.open_tag name ++ z2) = None.
Proof.
  intros Hn. induction u as [|c u IH].
  - intros _. apply (star_at_open name z2 Hn).
  - cbn [append Re.match_star_then]. destruct (Re.in_class c) eqn:Hc.
    + destruct (Re.match_star_then (Re.close_tag name) (u ++ Re.open_tag name ++ z1))
        eqn:E1; [discriminate|]. intros _. rewrite (IH eq_refl).
      rewrite close_tag_cons, match_literal_cons.
      pose proof (class_is_not_lt c Hc) as Hlt. rewrite Ascii.eqb_sym in Hlt.
      now rewrite Hlt.
    + rewrite close_tag_cons, !match_literal_cons.
      destruct (Ascii.eqb "<" c); [|reflexivity].
      rewrite !open_tag_append.
      assert (Hp : all_chars (fun c => negb (Ascii.eqb c "<")) (String "/" (name ++ ">"))
                   = true).
      { simpl. now apply name_has_no_lt. }
      rewrite !(match_literal_before_bracket _ _ _ Hp).
      destruct (Re.match_literal (String "/" (name ++ ">")) u);
        [discriminate | reflexivity].
Qed.

(** Whether the pattern matches at a position in front of an opening tag
    does not depend on what follows that tag. *)
Lemma match_here_before_open (name : string) (c : ascii) (u z1 z2 : string) :
  all_chars Re.in_class name = true ->
  Re.match_here name (String c (u ++ Re.open_tag name ++ z1)) = None ->
  Re.match_here name (String c (u ++ Re.open_tag name ++ z2)) = None.
Proof.
  intros Hn. unfold Re.match_here.
  change (Re.open_tag name) with (String "<" (name ++ ">")) at 1 3.
  rewrite !match_literal_cons. destruct (Ascii.eqb "<" c); [|reflexivity].
  rewrite !open_tag_append.
  rewrite !(match_literal_before_bracket _ _ _ (name_has_no_lt name Hn)).
  destruct (Re.match_literal (name ++ ">") u) as [r|]; [|reflexivity].
  cbn [option_map]. rewrite <- !open_tag_append. now apply star_before_open.
Qed.

Lemma star_complete (closing text rest : string) :
  all_chars Re.in_class text = true ->
  Re.match_literal closing (closing ++ rest) = Some rest ->
  (forall c s, closing ++ rest = String c s -> Re.in_class c = false) ->
  Re.match_star_then closing (text ++ closing ++ rest) = Some rest.
Proof.
  intros Ht Hc Hfirst. induction text as [|c text IH].
  - cbn [append]. destruct (closing ++ rest) as [|c s] eqn:E;
      cbn [Re.match_star_then]; [exact Hc|].
    now rewrite (Hfirst c s eq_refl).
  - simpl in Ht. apply andb_prop in Ht. destruct Ht as [Hcl Ht].
    cbn [append Re.match_star_then]. now rewrite Hcl, (IH Ht).
Qed.

(** The pattern matches an element with content in the class. *)
Lemma match_here_complete (name text rest : string) :
  all_chars Re.in_class text = true ->
  Re.match_here name (Re.open_tag name ++ text ++ Re.close_tag name ++ rest) = Some rest.
Proof.
  intros Ht. unfold Re.match_here. rewrite match_literal_refl.
  apply star_complete; [exact Ht | apply match_literal_refl |].
  intros c s E. rewrite close_tag_cons in E. injection E as <- _. reflexivity.
Qed.

Lemma sub_first_unfold (name replacement s : string) :
  Re.sub_first name replacement s =
  match Re.match_here name s with
  | Some rest => replacement ++ rest
  | None => match s with
            | EmptyString => EmptyString
            | String c s' => String c (Re.sub_first name replacement s')
            end
  end.
Proof. destruct s; reflexivity. Qed.

Lemma store_file_twice (name text : string) (fs : list (string * string)) :
  store_file name text (store_file name text fs) = store_file name text fs.
Proof.
  induction fs as [|[k v] fs IH]; simpl.
  - now rewrite String.eqb_refl.
  - destruct (String.eqb k name) eqn:E; simpl; rewrite E; [reflexivity | now rewrite IH].
Qed.

(** The substitution is idempotent: in the text that it returns, the
    leftmost match is the element that it wrote. *)
Lemma replace_text_twice (name text s : string) :
  all_chars Re.in_class name = true -> all_chars Re.in_class text = true ->
  Re.replace_text name text (Re.replace_text name text s) = Re.replace_text name text s.
Proof.
  intros Hn Ht. unfold Re.replace_text.
  set (repl := Re.open_tag name ++ text ++ Re.close_tag name).
  assert (Hrepl : forall r, Re.match_here name (repl ++ r) = Some r).
  { intros r. unfold repl. rewrite !append_assoc. now apply match_here_complete. }
  induction s as [|c s IH].
  - reflexivity.
  - rewrite (sub_first_unfold name repl (String c s)).
    destruct (Re.match_here name (String c s)) as [r|] eqn:Hm.
    + rewrite sub_first_unfold. now rewrite Hrepl.
    + assert (Hstill : Re.match_here name (String c (Re.sub_first name repl s)) = None).
      { destruct (sub_first_spec name repl s)
          as [[_ E]|(before & rest & r & Hr & _ & Hsplit & Hres)].
        - now rewrite E.
        - destruct (match_here_sound _ _ _ Hr) as (body & Hrest & _).
          rewrite Hres. unfold repl. rewrite !append_assoc.
          apply (match_here_before_open name c before
                   (body ++ Re.close_tag name ++ r) _ Hn).
          now rewrite <- Hrest, <- Hsplit. }
      rewrite sub_first_unfold, Hstill. now rewrite IH.
Qed.

(** X10: for an alphanumeric element name and an alphanumeric text,
    [replaceElementText] is idempotent: a second call writes the file
    again with the text that the first call gave it, so that the files are
    after two calls what they are after one. *)
Theorem replaceElementText_is_idempotent (elementname text : string) (self : XEP)
    (w : World) (s : string) :
  all_chars Re.in_class elementname = true -> all_chars Re.in_class text = true ->
  lookup_file (filename self) (files w) = Some s ->
  exists w1 w2,
    replaceElementText elementname text (self, w) = Ok tt (self, w1) /\
    replaceElementText elementname text (self, w1) = Ok tt (self, w2) /\
    files w2 = files w1 /\
    trace w2 =
      (trace w1 ++ [Call "replaceElementText";
                    FileWrite (filename self) (Re.replace_text elementname text s)])%list /\
    lookup_file (filename self) (files w1) = Some (Re.replace_text elementname text s).
Proof.
  intros Hn Ht Hf. eexists. eexists.
  split; [apply (replaceElementText_run _ _ _ _ _ Hf)|].
  assert (Hf1 : lookup_file (filename self)
                  (files (set_trace
                            (trace w ++ [Call "replaceElementText"]
                             ++ [FileWrite (filename self)
                                   (Re.replace_text elementname text s)])
                            (set_files
                               (store_file (filename self)
                                  (Re.replace_text elementname text s) (files w)) w)))
                = Some (Re.replace_text elementname text s)).
  { cbn [files set_trace set_files]. apply lookup_store_same. }
  split; [apply (replaceElementText_run _ _ _ _ _ Hf1)|].
  rewrite (replace_text_twice elementname text s Hn Ht).
  cbn [files trace set_trace set_files]. split; [apply store_file_twice|].
  split; [reflexivity | apply lookup_store_same].
Qed.

Lemma replaceElementText_is_idempotent_witness :
  let self := Fixture.unparsed "/repo/xep-0001.xml" None Fixture.doc_plain in
  exists w1 w2,
    replaceElementText "status" "Deferred" (self, Fixture.clean_tree) = Ok tt (self, w1) /\
    replaceElementText "status" "Deferred" (self, w1) = Ok tt (self, w2) /\
    files w2 = files w1.
Proof.
  destruct (replaceElementText_is_idempotent "status" "Deferred"
              (Fixture.unparsed "/repo/xep-0001.xml" None Fixture.doc_plain)
              Fixture.clean_tree (Fixture.document_xml Fixture.doc_plain))
    as (w1 & w2 & H1 & H2 & Hfiles & _);
    [vm_compute; reflexivity | vm_compute; reflexivity | vm_compute; reflexivity |].
  exists w1, w2. split; [exact H1|]. split; [exact H2 | exact Hfiles].
Defined.

(** ** The walk of [revertInterim] through interim commits *)

Lemma last_nonempty {A} (a : A) (l : list A) (d d' : A) :
  last (a :: l) d = last (a :: l) d'.
Proof.
  revert a. induction l as [|b l IH]; intros a; [reflexivity|].
  change (last (b :: l) d = last (b :: l) d'). apply IH.
Qed.

Section Walk.

Variable L : Library.

(** The loop fetches and parses the commits one after the other as long
    as their blobs parse as interim. *)
Lemma revert_loop_interim_prefix (top gitref : string) (w0 : World)
    (pre blobs rest : list string) :
  Forall2 (fun c blob => blob_parses L w0 top gitref c true blob) pre blobs ->
  forall self w,
    interim self = true -> nrFormatted self <> None -> git_show w = git_show w0 ->
    exists self1 w1,
      revert_loop L top gitref (pre ++ rest) (self, w)
      = revert_loop L top gitref rest (self1, w1) /\
      interim self1 = true /\ nrFormatted self1 <> None /\
      raw self1 = last blobs (raw self) /\
      buildErrors self1 = buildErrors self /\
      git_show w1 = git_show w0 /\ files w1 = files w /\
      trace w1 = (trace w ++ map (fun c => GitShow top (c ++ ":" ++ gitref)) pre)%list.
Proof.
  induction 1 as [|c blob pre blobs Hc _ IH]; intros self w Hi Hn Hg.
  - exists self, w. cbn [app map last]. rewrite app_nil_r. repeat split; assumption.
  - destruct (revert_loop_round L top gitref c blob true (pre ++ rest) self w Hi Hn
                (blob_parses_same_git L _ _ _ _ _ _ _ Hg Hc))
      as (self1 & _ & I1 & N1 & Kc & Hrun).
    destruct (IH self1 (set_trace (trace w ++ [GitShow top (c ++ ":" ++ gitref)]) w)
                I1 N1 Hg) as (self2 & w2 & H2 & I2 & N2 & R2 & B2 & G2 & F2 & T2).
    unfold same, config in Kc. cbn in Kc. injection Kc as _ _ _ _ _ Eerr Eraw.
    exists self2, w2. cbn [app]. rewrite Hrun. split; [exact H2|].
    split; [exact I2|]. split; [exact N2|]. split.
    + rewrite R2, Eraw. destruct blobs as [|b blobs]; [reflexivity|].
      change (last (blob :: b :: blobs) (raw self)) with (last (b :: blobs) (raw self)).
      apply last_nonempty.
    + split; [congruence|]. split; [exact G2|]. split; [exact F2|].
      rewrite T2. cbn [trace set_trace map]. now rewrite <- app_assoc.
Qed.

(** The call up to the loop, for an interim record of a working tree
    whose log can be read. *)
Lemma revertInterim_enters_loop (self : XEP) (w : World) (top out : string) :
  interim self = true -> gittoplevel self = Some top -> truthy top = true ->
  git_log w top (relpath L (filename self) top) = (out, EmptyString) ->
  revertInterim L (self, w) =
  revert_loop L top (relpath L (filename self) top)
    (skipn 1 (split (ascii_of_nat 10) out))
    (self, set_trace (trace w ++ [GitLog top (relpath L (filename self) top)]) w).
Proof.
  intros Hi Ht Htop Hlog. unfold revertInterim. rewrite bind_get. cbn [fst snd].
  rewrite Hi. cbn [negb]. unfold toplevel. rewrite Ht. cbn [given]. rewrite Htop.
  cbn [negb]. rewrite (bind_ok _ _ _ _ _ (emit_run _ _ _)). now rewrite Hlog.
Qed.

(** X11: when the blob of a commit cannot be read after some interim
    commits were fetched, [revertInterim] returns with one warning that
    carries the error text, and the record is left half reverted: it is
    still interim, and it holds the text and the fields of the last commit
    that was fetched (the name in the warning is the one of that commit);
    no later commit is asked for and no file is written. *)
Theorem revertInterim_stops_at_unreadable_blob (self : XEP) (w : World)
    (top out c0 ck outk errork : string) (pre blobs post : list string) :
  let gitref := relpath L (filename self) top in
  interim self = true -> nrFormatted self <> None ->
  gittoplevel self = Some top -> truthy top = true ->
  git_log w top gitref = (out, EmptyString) ->
  split (ascii_of_nat 10) out = c0 :: (pre ++ ck :: post)%list ->
  Forall2 (fun c blob => blob_parses L w top gitref c true blob) pre blobs ->
  git_show w top (ck ++ ":" ++ gitref) = (outk, errork) -> truthy errork = true ->
  exists self' w' name,
    revertInterim L (self, w) = Ok tt (self', w') /\
    interim self' = true /\ raw self' = last blobs (raw self) /\
    __str__ self' = Ok name self' /\
    buildErrors self' =
      (buildErrors self
       ++ [("WARNING: error reading git blob, not reversing interim XEP "
            ++ name ++ ": " ++ errork)%string])%list /\
    files w' = files w /\
    trace w' =
      (trace w ++ GitLog top gitref
               :: map (fun c => GitShow top (c ++ ":" ++ gitref)) (pre ++ [ck]))%list.
Proof.
  intros gitref Hi Hn Ht Htop Hlog Hsplit Hpre Hshow He.
  rewrite (revertInterim_enters_loop self w top out Hi Ht Htop Hlog).
  fold gitref. rewrite Hsplit. cbn [skipn].
  destruct (revert_loop_interim_prefix top gitref w pre blobs (ck :: post) Hpre self
              (set_trace (trace w ++ [GitLog top gitref]) w) Hi Hn eq_refl)
    as (self1 & w1 & H1 & I1 & N1 & R1 & B1 & G1 & F1 & T1).
  rewrite H1. destruct (str_named self1 N1) as [name Hname].
  rewrite <- G1 in Hshow.
  rewrite (revert_loop_blob_error L self1 w1 top gitref ck name outk errork post
             I1 Hname Hshow He).
  eexists. eexists. exists name. split; [reflexivity|].
  split; [exact I1|]. split; [exact R1|].
  split; [now apply str_warned|].
  split; [cbn [warned buildErrors set_buildErrors]; now rewrite B1|].
  split; [exact F1|].
  cbn [trace set_trace]. rewrite T1. cbn [trace set_trace].
  rewrite map_app. cbn [map]. now rewrite <- !app_assoc.
Qed.

(** X12: when every commit of the log from index 1 on parses as interim,
    [revertInterim] fetches them all and then raises [IndexError]; no
    warning is recorded, and the record is left interim with the text of
    the oldest commit.  A log of one line raises at once. *)
Theorem revertInterim_raises_when_every_commit_is_interim (self : XEP) (w : World)
    (top out c0 : string) (rest blobs : list string) :
  let gitref := relpath L (filename self) top in
  interim self = true -> nrFormatted self <> None ->
  gittoplevel self = Some top -> truthy top = true ->
  git_log w top gitref = (out, EmptyString) ->
  split (ascii_of_nat 10) out = c0 :: rest ->
  Forall2 (fun c blob => blob_parses L w top gitref c true blob) rest blobs ->
  exists self' w',
    revertInterim L (self, w) = Raise IndexError (self', w') /\
    interim self' = true /\ raw self' = last blobs (raw self) /\
    buildErrors self' = buildErrors self /\
    files w' = files w /\
    trace w' =
      (trace w ++ GitLog top gitref
               :: map (fun c => GitShow top (c ++ ":" ++ gitref)) rest)%list.
Proof.
  intros gitref Hi Hn Ht Htop Hlog Hsplit Hrest.
  rewrite (revertInterim_enters_loop self w top out Hi Ht Htop Hlog).
  fold gitref. rewrite Hsplit. cbn [skipn].
  destruct (revert_loop_interim_prefix top gitref w rest blobs [] Hrest self
              (set_trace (trace w ++ [GitLog top gitref]) w) Hi Hn eq_refl)
    as (self1 & w1 & H1 & I1 & N1 & R1 & B1 & G1 & F1 & T1).
  rewrite app_nil_r in H1. rewrite H1.
  exists self1, w1. split.
  - cbn [revert_loop]. rewrite bind_get. cbn [fst]. now rewrite I1.
  - split; [exact I1|]. split; [exact R1|]. split; [exact B1|]. split; [exact F1|].
    rewrite T1. cbn [trace set_trace]. now rewrite <- app_assoc.
Qed.

End Walk.

Lemma revertInterim_stops_at_unreadable_blob_witness :
  let self := final (Fixture.parsed "/repo/xep-0001.xml" (Some "/repo") Fixture.doc_rc3) in
  let w := Fixture.world "/repo/xep-0001.xml" (Fixture.document_xml Fixture.doc_rc3)
             EmptyString Fixture.log3
             [("c1:xep-0001.xml", Fixture.document_xml Fixture.doc_rc2)] in
  exists self' w',
    revertInterim Fixture.lib (self, w) = Ok tt (self', w') /\
    interim self' = true /\
    raw self' = Fixture.document_xml Fixture.doc_rc2 /\
    length (buildErrors self') = 1%nat /\
    trace w' =
      [GitLog "/repo" "xep-0001.xml"; GitShow "/repo" "c1:xep-0001.xml";
       GitShow "/repo" "c2:xep-0001.xml"].
Proof.
  destruct (revertInterim_stops_at_unreadable_blob Fixture.lib
              (final (Fixture.parsed "/repo/xep-0001.xml" (Some "/repo") Fixture.doc_rc3))
              (Fixture.world "/repo/xep-0001.xml" (Fixture.document_xml Fixture.doc_rc3)
                 EmptyString Fixture.log3
                 [("c1:xep-0001.xml", Fixture.document_xml Fixture.doc_rc2)])
              "/repo" Fixture.log3 "c0" "c2" EmptyString "fatal: bad object"
              ["c1"] [Fixture.document_xml Fixture.doc_rc2] [])
    as (self' & w' & name & H & I' & R' & _ & B' & _ & T').
  - vm_compute; reflexivity.
  - vm_compute. discriminate.
  - vm_compute; reflexivity.
  - vm_compute; reflexivity.
  - vm_compute; reflexivity.
  - vm_compute; reflexivity.
  - constructor; [|constructor].
    exists Fixture.doc_rc2, (Fixture.xep_of Fixture.doc_rc2),
      (Fixture.header_of Fixture.doc_rc2).
    repeat split; vm_compute; reflexivity.
  - vm_compute; reflexivity.
  - vm_compute; reflexivity.
  - exists self', w'. split; [exact H|]. split; [exact I'|]. split; [exact R'|].
    split; [rewrite B'; rewrite length_app; vm_compute; reflexivity | exact T'].
Defined.

Lemma revertInterim_raises_when_every_commit_is_interim_witness :
  let self := final (Fixture.parsed "/repo/xep-0001.xml" (Some "/repo") Fixture.doc_rc3) in
  exists self' w',
    revertInterim Fixture.lib (self, Fixture.interim_history)
    = Raise IndexError (self', w') /\
    interim self' = true /\
    raw self' = Fixture.document_xml Fixture.doc_rc1 /\
    buildErrors self' = buildErrors self.
Proof.
  destruct (revertInterim_raises_when_every_commit_is_interim Fixture.lib
              (final (Fixture.parsed "/repo/xep-0001.xml" (Some "/repo") Fixture.doc_rc3))
              Fixture.interim_history "/repo" Fixture.log3 "c0" ["c1"; "c2"]
              [Fixture.document_xml Fixture.doc_rc2; Fixture.document_xml Fixture.doc_rc1])
    as (self' & w' & H & I' & R' & B' & _).
  - vm_compute; reflexivity.
  - vm_compute. discriminate.
  - vm_compute; reflexivity.
  - vm_compute; reflexivity.
  - vm_compute; reflexivity.
  - vm_compute; reflexivity.
  - constructor; [|constructor; [|constructor]].
    + exists Fixture.doc_rc2, (Fixture.xep_of Fixture.doc_rc2),
        (Fixture.header_of Fixture.doc_rc2).
      repeat split; vm_compute; reflexivity.
    + exists Fixture.doc_rc1, (Fixture.xep_of Fixture.doc_rc1),
        (Fixture.header_of Fixture.doc_rc1).
      repeat split; vm_compute; reflexivity.
  - exists self', w'. split; [exact H|]. split; [exact I'|]. split; [exact R' | exact B'].
Defined.

(** ** The constructor, the status change and the archive step *)

Section Lifecycle.

Variable L : Library.





End Lifecycle.

(** X16: with an output directory that has an [attic] directory and the
    HTML page of the record, [archive] copies the page to the attic under
    a name that carries the number and the version; the page itself and
    every other file are left as they were. *)
Theorem archive_copies_the_page (self : XEP) (w : World) (out nf text : string) :
  let page := os_path_join out ("xep-" ++ nf ++ ".html") in
  let target :=
    os_path_join (os_path_join out "attic")
      ("xep-" ++ nf ++ "-" ++ version self ++ ".html") in
  outpath self = Some out -> truthy out = true -> nrFormatted self = Some nf ->
  isdir w (os_path_join out "attic") = true ->
  lookup_file page (files w) = Some text ->
  exists w',
    archive (self, w) = Ok tt (self, w') /\
    lookup_file target (files w') = Some text /\
    (forall other, other <> target ->
                   lookup_file other (files w') = lookup_file other (files w)) /\
    trace w' = (trace w ++ [Call "archive"; FileCopy page target])%list.
Proof.
  intros page target Ho Ht Hn Hd Hf. unfold archive.
  rewrite (bind_ok _ _ _ _ _ (emit_run _ _ _)). rewrite bind_get. cbn [fst snd].
  rewrite Ho, Ht, Hn, bind_ret.
  assert (Hd' : isdir (set_trace (trace w ++ [Call "archive"]) w)
                  (os_path_join out "attic") = true) by exact Hd.
  assert (Hfile : isfile (set_trace (trace w ++ [Call "archive"]) w) page = true).
  { unfold isfile. cbn [files set_trace]. now rewrite Hf. }
  fold page target. rewrite Hd', Hfile. cbn [andb].
  unfold read_file. rewrite bind_assoc, bind_get. cbn [fst snd files set_trace].
  rewrite Hf, bind_ret. unfold on_world. rewrite bind_modify. cbn [fst snd].
  rewrite emit_run. eexists. split; [reflexivity|].
  cbn [files trace set_trace set_files].
  split; [apply lookup_store_same|].
  split; [intros other Hne; now apply lookup_store_other|].
  now rewrite <- app_assoc.
Qed.

(** X17: without an output directory, without the [attic] directory or
    without the HTML page, [archive] copies nothing: it returns with the
    record and every file as they were. *)
Theorem archive_skips_without_attic_or_page (self : XEP) (w : World) (nf : string) :
  nrFormatted self = Some nf ->
  (forall out, outpath self = Some out -> truthy out = true ->
               isdir w (os_path_join out "attic")
               && isfile w (os_path_join out ("xep-" ++ nf ++ ".html")) = false) ->
  exists w',
    archive (self, w) = Ok tt (self, w') /\
    files w' = files w /\ trace w' = (trace w ++ [Call "archive"])%list.
Proof.
  intros Hn Hskip. unfold archive.
  rewrite (bind_ok _ _ _ _ _ (emit_run _ _ _)). rewrite bind_get. cbn [fst snd].
  destruct (outpath self) as [out|] eqn:Ho;
    [|eexists; split; [reflexivity | split; reflexivity]].
  destruct (truthy out) eqn:Ht;
    [|eexists; split; [reflexivity | split; reflexivity]].
  rewrite Hn, bind_ret. pose proof (Hskip out eq_refl Ht) as Hc.
  assert (Hc' : isdir (set_trace (trace w ++ [Call "archive"]) w) (os_path_join out "attic")
                && isfile (set_trace (trace w ++ [Call "archive"]) w)
                     (os_path_join out ("xep-" ++ nf ++ ".html")) = false) by exact Hc.
  rewrite Hc'. eexists; split; [reflexivity | split; reflexivity].
Qed.




Lemma archive_copies_the_page_witness :
  exists w',
    archive (Cases.built, Cases.built_tree) = Ok tt (Cases.built, w') /\
    lookup_file "/out/attic/xep-0001-1.2.html" (files w') = Some "<html>XEP-0001</html>" /\
    lookup_file "/out/xep-0001.html" (files w') = Some "<html>XEP-0001</html>" /\
    trace w' =
      [Call "archive"; FileCopy "/out/xep-0001.html" "/out/attic/xep-0001-1.2.html"].
Proof.
  destruct (archive_copies_the_page Cases.built Cases.built_tree "/out" "0001"
              "<html>XEP-0001</html>")
    as (w' & H & Ft & Fo & Tr);
    [vm_compute; reflexivity | vm_compute; reflexivity | vm_compute; reflexivity
    | vm_compute; reflexivity | vm_compute; reflexivity |].
  exists w'. split; [exact H|]. split; [exact Ft|]. split; [|exact Tr].
  rewrite (Fo "/out/xep-0001.html"); [vm_compute; reflexivity|].
  vm_compute. discriminate.
Defined.

Lemma archive_skips_without_attic_or_page_witness :
  exists w',
    archive (Cases.built, Fixture.clean_tree) = Ok tt (Cases.built, w') /\
    files w' = files Fixture.clean_tree /\ trace w' = [Call "archive"].
Proof.
  apply (archive_skips_without_attic_or_page Cases.built Fixture.clean_tree "0001");
    [vm_compute; reflexivity|].
  intros out Ho _. vm_compute in Ho. injection Ho as <-. vm_compute. reflexivity.
Defined.

(** ** What [revertInterim] leaves alone *)

#[local] Instance only_reads_history_preorder : PreOrder only_reads_history.
Proof.
  split.
  - intros a. split; [reflexivity|]. split; [reflexivity|].
    split; [exists []; now rewrite app_nil_r|]. split; [reflexivity|].
    exists []. split; [now rewrite app_nil_r | reflexivity].
  - intros a b c (F1 & G1 & [x1 B1] & W1 & e1 & T1 & R1)
                 (F2 & G2 & [x2 B2] & W2 & e2 & T2 & R2).
    split; [congruence|]. split; [congruence|].
    split; [exists (x1 ++ x2)%list; now rewrite B2, B1, <- app_assoc|].
    split; [congruence|].
    exists (e1 ++ e2)%list. split; [now rewrite T2, T1, <- app_assoc|].
    now rewrite forallb_app, R1, R2.
Qed.

Lemma on_self_reads_history {A} (c : M XEP A) :
  (forall x, filename (final (c x)) = filename x /\
             gittoplevel (final (c x)) = gittoplevel x /\
             exists warnings,
               buildErrors (final (c x)) = (buildErrors x ++ warnings)%list) ->
  preserves only_reads_history (on_self c).
Proof.
  intros H [x w]. unfold on_self. cbn [fst snd]. specialize (H x).
  destruct (c x) as [a x'|e x']; cbn [final fst snd] in *;
    (destruct H as (F & G & B); split; [exact F|]; split; [exact G|];
     split; [exact B|]; split; [reflexivity|];
     exists []; split; [now rewrite app_nil_r | reflexivity]).
Qed.

Lemma str_reads_history : preserves only_reads_history (on_self __str__).
Proof.
  apply on_self_reads_history. intros x. unfold __str__. rewrite bind_get.
  assert (E : forall r : Result XEP string, final r = x ->
              filename (final r) = filename x /\ gittoplevel (final r) = gittoplevel x /\
              exists warnings, buildErrors (final r) = (buildErrors x ++ warnings)%list).
  { intros r ->. split; [reflexivity|]. split; [reflexivity|].
    exists []. now rewrite app_nil_r. }
  apply E. destruct (nrFormatted x) as [nf|]; [|reflexivity].
  destruct (negb (truthy nf)); reflexivity.
Qed.

Lemma add_buildError_reads_history (e : string) :
  preserves only_reads_history (add_buildError e).
Proof.
  apply on_self_reads_history. intros x. cbn.
  split; [reflexivity|]. split; [reflexivity|]. now exists [e].
Qed.

Lemma set_raw_reads_history (text : string) :
  preserves only_reads_history (on_self (modify (set_raw text))).
Proof.
  apply on_self_reads_history. intros x. cbn.
  split; [reflexivity|]. split; [reflexivity|]. exists []. now rewrite app_nil_r.
Qed.

Lemma emit_reads_history (e : Event) :
  reads_history e = true -> preserves only_reads_history (emit e).
Proof.
  intros He [x w]. cbn. split; [reflexivity|]. split; [reflexivity|].
  split; [exists []; now rewrite app_nil_r|]. split; [reflexivity|].
  exists [e]. split; [reflexivity|]. cbn. now rewrite He.
Qed.

Section ReadOnly.

Variable L : Library.

Lemma readXEP_reads_history : preserves only_reads_history (on_self (readXEP L)).
Proof.
  apply on_self_reads_history. intros x.
  destruct (readXEP_kept L x) as (Kc & _ & _).
  unfold same, config in Kc. injection Kc as E1 _ _ E4 _ E6 _.
  split; [exact E1|]. split; [exact E4|]. exists []. now rewrite app_nil_r.
Qed.

Lemma warn_reads_history (f : string -> string) :
  preserves only_reads_history (name <- on_self __str__ ;; add_buildError (f name)).
Proof.
  apply preserves_bind; [typeclasses eauto | apply str_reads_history |].
  intros name. apply add_buildError_reads_history.
Qed.

Lemma revert_loop_reads_history (top gitref : string) (rest : list string) :
  preserves only_reads_history (revert_loop L top gitref rest).
Proof.
  induction rest as [|c rest IH]; cbn [revert_loop];
    (apply preserves_bind; [typeclasses eauto | apply preserves_get; typeclasses eauto |]);
    intros s; (destruct (interim (fst s)); [|apply preserves_ret; typeclasses eauto]).
  - apply preserves_raise; typeclasses eauto.
  - apply preserves_bind;
      [typeclasses eauto | now apply emit_reads_history | intros _].
    destruct (git_show (snd s) top (c ++ ":" ++ gitref)) as [out error].
    destruct (truthy error).
    + apply (warn_reads_history
               (fun name => "WARNING: error reading git blob, not reversing interim XEP "
                            ++ name ++ ": " ++ error)).
    + apply preserves_bind;
        [typeclasses eauto | apply set_raw_reads_history | intros _].
      apply preserves_bind;
        [typeclasses eauto | apply readXEP_reads_history | intros _; exact IH].
Qed.

Lemma revertInterim_reads_history : preserves only_reads_history (revertInterim L).
Proof.
  unfold revertInterim.
  apply preserves_bind; [typeclasses eauto | apply preserves_get; typeclasses eauto |].
  intros s. destruct (negb (interim (fst s))); [apply preserves_ret; typeclasses eauto|].
  destruct (negb (given (gittoplevel (fst s))));
    [apply add_buildError_reads_history|].
  apply preserves_bind; [typeclasses eauto | now apply emit_reads_history | intros _].
  destruct (git_log (snd s) (toplevel (fst s))
              (relpath L (filename (fst s)) (toplevel (fst s)))) as [out error].
  destruct (truthy error).
  - apply (warn_reads_history
             (fun name => "WARNING: error reading git log, not reversing interim XEP "
                          ++ name ++ ": " ++ error)).
  - apply revert_loop_reads_history.
Qed.

(** X18: however [revertInterim] ends, with a return, a warning or an
    exception, for any record, any log and any blobs, it has written no
    file, started no process but [git log] and [git show], kept the file
    name and the top-level directory of the record, and only added
    entries to [buildErrors]. *)
Theorem revertInterim_only_reads_history (self : XEP) (w : World) :
  let s' := final (revertInterim L (self, w)) in
  files (snd s') = files w /\
  (exists events,
      trace (snd s') = (trace w ++ events)%list /\
      forallb reads_history events = true) /\
  filename (fst s') = filename self /\
  gittoplevel (fst s') = gittoplevel self /\
  exists warnings, buildErrors (fst s') = (buildErrors self ++ warnings)%list.
Proof.
  destruct (revertInterim_reads_history (self, w)) as (F & G & B & W & T).
  cbv zeta. cbn [fst snd] in *. repeat split; assumption.
Qed.

End ReadOnly.

(** ** The name of a parsed record *)

Section Naming.

Variable L : Library.

(** X19: whenever [readXEP] returns, whatever the document looks like,
    [nrFormatted] is assigned by the formatting rule, so that the record
    can be printed without an exception: its name is the file name when
    the formatted number is empty and XEP- followed by the formatted
    number otherwise; an integer number is shown zero-padded. *)
Theorem parsed_record_has_a_name (self self' : XEP) :
  readXEP L self = Ok tt self' ->
  nrFormatted self' = Some (format_number (nr self')) /\
  __str__ self' = Ok (display_of (format_number (nr self')) (filename self)) self' /\
  (forall n, nr self' = PyInt n -> __str__ self' = Ok ("XEP-" ++ format_04d n) self').
Proof.
  intros Hrun. pose proof (readXEP_formats_number L self self' Hrun) as F.
  assert (F' : nrFormatted self' = Some (format_number (nr self'))) by exact F.
  pose proof (readXEP_kept L self) as K. rewrite Hrun in K. cbn [final] in K.
  destruct K as (Kc & _ & _). unfold same, config in Kc.
  injection Kc as Kfile _ _ _ _ _ _.
  pose proof (str_display self' _ F') as Hs. rewrite Kfile in Hs.
  split; [exact F'|]. split; [exact Hs|].
  intros n Hn. rewrite Hs, Hn. cbn [format_number]. unfold display_of.
  now rewrite format_04d_truthy.
Qed.

End Naming.

Lemma parsed_record_has_a_name_witness :
  let self := Fixture.unparsed "/repo/xep-0045.xml" None Fixture.doc_0045 in
  let self' := final (Fixture.parsed "/repo/xep-0045.xml" None Fixture.doc_0045) in
  nr self' = PyInt 45 /\ __str__ self' = Ok "XEP-0045" self'.
Proof.
  destruct (parsed_record_has_a_name Fixture.lib
              (Fixture.unparsed "/repo/xep-0045.xml" None Fixture.doc_0045)
              (final (Fixture.parsed "/repo/xep-0045.xml" None Fixture.doc_0045)))
    as (_ & _ & Hn); [vm_compute; reflexivity|].
  split; [vm_compute; reflexivity|].
  exact (Hn 45 ltac:(vm_compute; reflexivity)).
Defined.
